(** * Protekt endpoint agent: local store, queue, command loop, alerts,
      backups, ransomware heuristics, process monitor and thresholds

    A shallow embedding of the Python sources under [apps/agent], one Rocq
    module per source file, followed by the properties of the specification
    that were checked against them.

    Conventions of the embedding
    - SQLite tables are lists of rows in rowid order, with the AUTOINCREMENT
      counter kept next to them.
    - Wall-clock readings ([time.time()], [CURRENT_TIMESTAMP],
      [datetime.utcnow()]) are inputs named [now], in whole seconds.
    - Python dictionaries holding JSON are insertion-ordered association
      lists ([dict]); the in-memory cooldown map and the file system are
      finite maps.
    - Network calls take their outcome as an input ([http_outcome]).
    - The percentages psutil reports (Python floats) are rationals. *)

From Stdlib Require Import ZArith List String Ascii Lia Bool Sorted Permutation DecimalString.
From Stdlib Require Import Strings.Byte.
From Stdlib Require Import QArith.
From stdpp Require Import base gmap strings list.
Import ListNotations.
Open Scope Z_scope.

(** ** Python values *)

#[local] Set Warnings "-register-all".

Inductive json : Type :=
| JNull
| JBool (b : bool)
| JNum (n : Z)
| JStr (s : string)
| JArr (l : list json)
| JObj (o : list (string * json)).

Definition dict : Type := list (string * json).

(** [d.get(k)] *)
Fixpoint dict_get (k : string) (d : dict) : option json :=
  match d with
  | [] => None
  | (k', v) :: t => if String.eqb k' k then Some v else dict_get k t
  end.

(** [d[k] = v] *)
Fixpoint dict_set (k : string) (v : json) (d : dict) : dict :=
  match d with
  | [] => [(k, v)]
  | (k', v') :: t =>
      if String.eqb k' k then (k', v) :: t else (k', v') :: dict_set k v t
  end.

(** Truth value of a string, of an optional string and of a dictionary. *)
Definition truthy_str (s : string) : bool := negb (String.eqb s "").

Definition truthy_opt_str (s : option string) : bool :=
  match s with
  | Some s => truthy_str s
  | None => false
  end.

Definition truthy_dict (d : option dict) : bool :=
  match d with
  | Some (_ :: _) => true
  | _ => false
  end.

(** [str(n)] for an integer. *)
Definition str_of_Z (n : Z) : string := NilZero.string_of_int (Z.to_int n).

(** [x in l] for a list of strings. *)
Definition str_in (x : string) (l : list string) : bool :=
  existsb (String.eqb x) l.

(** [ORDER BY]: a stable insertion sort, [le a b] telling that [a] may
    come before [b]. *)
Fixpoint insert_by {A : Type} (le : A -> A -> bool) (x : A) (l : list A) : list A :=
  match l with
  | [] => [x]
  | y :: t => if le x y then x :: y :: t else y :: insert_by le x t
  end.

Fixpoint sort_by {A : Type} (le : A -> A -> bool) (l : list A) : list A :=
  match l with
  | [] => []
  | x :: t => insert_by le x (sort_by le t)
  end.

(** [p in s] for strings. *)
Fixpoint contains (p s : string) : bool :=
  String.prefix p s
  || match s with
     | EmptyString => false
     | String _ t => contains p t
     end.

(** An HTTP exchange as the caller sees it: a response with its status
    code, or an exception raised by [requests]. *)
Inductive http_outcome : Type :=
| Response (status_code : Z)
| RequestException.

(** ** core/database.py *)

Module Database.

(** Values held by a SQLite column. *)
Inductive sqlval : Type :=
| VNull
| VInt (n : Z)
| VText (s : string).

Definition sqlval_eqb (a b : sqlval) : bool :=
  match a, b with
  | VNull, VNull => true
  | VInt x, VInt y => x =? y
  | VText x, VText y => String.eqb x y
  | _, _ => false
  end.

Definition json_of_sqlval (v : sqlval) : json :=
  match v with
  | VNull => JNull
  | VInt n => JNum n
  | VText s => JStr s
  end.

(** Table [offline_queue]. *)
Record QueueItem : Type := {
  q_id : Z;
  queue_type : string;
  payload : dict;
  priority : Z;
  created_at : Z;
  retry_count : Z;
  max_retries : Z;
  status : string
}.

(** Table [security_events]. *)
Record SecurityEvent : Type := {
  ev_id : Z;
  event_type : string;
  severity : string;
  description : string;
  file_path : option string;
  process_name : option string;
  details : option dict;
  timestamp : Z;
  resolved : bool
}.

(** Table [command_history]. *)
Record CommandRecord : Type := {
  cmd_id : Z;
  command_id : string;
  command_type : string;
  parameters : dict;
  cmd_status : string;
  cmd_result : option dict;
  cmd_created_at : Z;
  completed_at : option Z
}.

(** Table [audit_log]. *)
Record AuditEntry : Type := {
  action : string;
  resource : option string;
  audit_details : option dict;
  audit_timestamp : Z;
  user_context : option string
}.

(** A table kept with its declared columns: name and default of each
    column, the UNIQUE columns, the rows as [dict(row)] gives them, and
    the AUTOINCREMENT counter of the [id] column. *)
Definition row : Type := list (string * sqlval).

Record Table : Type := {
  columns : list (string * sqlval);
  unique_columns : list string;
  rows : list row;
  rowseq : Z
}.

(** [CREATE TABLE IF NOT EXISTS backup_records] as [_create_tables]
    declares it. *)
Definition backup_records_schema : Table := {|
  columns := [("id", VNull); ("backup_id", VNull); ("backup_type", VNull);
              ("source_paths", VNull); ("backup_path", VNull);
              ("size_bytes", VNull); ("encrypted", VInt 1);
              ("created_at", VNull); ("uploaded", VInt 0);
              ("upload_url", VNull)];
  unique_columns := ["backup_id"];
  rows := [];
  rowseq := 0
|}.

Record Db : Type := {
  offline_queue : list QueueItem;
  offline_queue_seq : Z;
  security_events : list SecurityEvent;
  security_events_seq : Z;
  backup_records : Table;
  command_history : list CommandRecord;
  command_history_seq : Z;
  audit_log : list AuditEntry
}.

(** The same table with the two columns the INSERT of the backup manager
    names besides: what the table would have to be for that INSERT to
    succeed. *)
Definition backup_records_with_checksum : Table := {|
  columns := columns backup_records_schema
             ++ [("checksum", VNull); ("description", VNull)];
  unique_columns := ["backup_id"];
  rows := [];
  rowseq := 0
|}.

(** The store right after [initialize] on a fresh file. *)
Definition initialize : Db := {|
  offline_queue := [];
  offline_queue_seq := 0;
  security_events := [];
  security_events_seq := 0;
  backup_records := backup_records_schema;
  command_history := [];
  command_history_seq := 0;
  audit_log := []
|}.

Definition with_offline_queue (db : Db) (q : list QueueItem) (seq : Z) : Db := {|
  offline_queue := q;
  offline_queue_seq := seq;
  security_events := security_events db;
  security_events_seq := security_events_seq db;
  backup_records := backup_records db;
  command_history := command_history db;
  command_history_seq := command_history_seq db;
  audit_log := audit_log db
|}.

Definition with_security_events (db : Db) (l : list SecurityEvent) (seq : Z) : Db := {|
  offline_queue := offline_queue db;
  offline_queue_seq := offline_queue_seq db;
  security_events := l;
  security_events_seq := seq;
  backup_records := backup_records db;
  command_history := command_history db;
  command_history_seq := command_history_seq db;
  audit_log := audit_log db
|}.

Definition with_backup_records (db : Db) (t : Table) : Db := {|
  offline_queue := offline_queue db;
  offline_queue_seq := offline_queue_seq db;
  security_events := security_events db;
  security_events_seq := security_events_seq db;
  backup_records := t;
  command_history := command_history db;
  command_history_seq := command_history_seq db;
  audit_log := audit_log db
|}.

Definition with_command_history (db : Db) (l : list CommandRecord) (seq : Z) : Db := {|
  offline_queue := offline_queue db;
  offline_queue_seq := offline_queue_seq db;
  security_events := security_events db;
  security_events_seq := security_events_seq db;
  backup_records := backup_records db;
  command_history := l;
  command_history_seq := seq;
  audit_log := audit_log db
|}.

Definition with_audit_log (db : Db) (l : list AuditEntry) : Db := {|
  offline_queue := offline_queue db;
  offline_queue_seq := offline_queue_seq db;
  security_events := security_events db;
  security_events_seq := security_events_seq db;
  backup_records := backup_records db;
  command_history := command_history db;
  command_history_seq := command_history_seq db;
  audit_log := l
|}.

(** *** Generic INSERT / SELECT on a [Table] *)

Definition has_column (t : Table) (c : string) : bool :=
  existsb (fun cd => String.eqb (fst cd) c) (columns t).

Fixpoint row_get (c : string) (r : row) : option sqlval :=
  match r with
  | [] => None
  | (c', v) :: t => if String.eqb c' c then Some v else row_get c t
  end.

(** The row an INSERT builds: the given value where the statement names
    the column, the next rowid for [id], the declared default
    otherwise. *)
Definition build_row (t : Table) (assign : row) : row :=
  map (fun cd =>
         match row_get (fst cd) assign with
         | Some v => (fst cd, v)
         | None =>
             if String.eqb (fst cd) "id"
             then (fst cd, VInt (rowseq t + 1))
             else cd
         end) (columns t).

(** A UNIQUE column of the new row already holds that value in some
    row. *)
Definition unique_conflict (t : Table) (r : row) : bool :=
  existsb (fun c =>
             match row_get c r with
             | Some VNull | None => false
             | Some v =>
                 existsb (fun r' =>
                            match row_get c r' with
                            | Some v' => sqlval_eqb v v'
                            | None => false
                            end) (rows t)
             end) (unique_columns t).

(** [INSERT INTO t (c1, ..., cn) VALUES (...)]: [None] stands for the
    [sqlite3] error raised when the statement names a column the table
    does not have (OperationalError) or breaks a UNIQUE constraint
    (IntegrityError). *)
Definition sql_insert (t : Table) (assign : row) : option Table :=
  if forallb (fun cv => has_column t (fst cv)) assign then
    let r := build_row t assign in
    if unique_conflict t r then None
    else Some {| columns := columns t;
                 unique_columns := unique_columns t;
                 rows := rows t ++ [r];
                 rowseq := rowseq t + 1 |}
  else None.

(** [SELECT * FROM t WHERE c = v] followed by [fetchone]. *)
Definition sql_select_one (t : Table) (c : string) (v : sqlval) : option row :=
  List.find (fun r =>
               match row_get c r with
               | Some v' => sqlval_eqb v' v
               | None => false
               end) (rows t).

(** *** add_to_queue *)

(** Default of the [priority] parameter. *)
Definition default_priority : Z := 0.

Definition add_to_queue (db : Db) (qt : string) (p : dict) (prio : Z)
    (now : Z) : Db * Z :=
  let new_id := offline_queue_seq db + 1 in
  let item := {| q_id := new_id;
                 queue_type := qt;
                 payload := p;
                 priority := prio;
                 created_at := now;
                 retry_count := 0;
                 max_retries := 3;
                 status := "pending" |} in
  (with_offline_queue db (offline_queue db ++ [item]) new_id, new_id).

(** *** get_queue_items *)

(** [ORDER BY priority DESC, created_at ASC]: [a] may come before [b]. *)
Definition queue_order (a b : QueueItem) : bool :=
  (priority b <? priority a)
  || ((priority a =? priority b) && (created_at a <=? created_at b)).

(** [LIMIT n]: SQLite reads a negative bound as no bound. *)
Definition sql_limit {A : Type} (n : Z) (l : list A) : list A :=
  if n <? 0 then l else firstn (Z.to_nat n) l.

Definition get_queue_items (db : Db) (qt : option string) (st : string)
    (limit : Z) : list QueueItem :=
  let selected :=
    if truthy_opt_str qt then
      List.filter (fun r => String.eqb (queue_type r) (default "" qt)
                            && String.eqb (status r) st) (offline_queue db)
    else
      List.filter (fun r => String.eqb (status r) st) (offline_queue db) in
  sql_limit limit (sort_by queue_order selected).

(** *** update_queue_item *)

Definition set_status_retry (st : string) (r : QueueItem) : QueueItem := {|
  q_id := q_id r;
  queue_type := queue_type r;
  payload := payload r;
  priority := priority r;
  created_at := created_at r;
  retry_count := retry_count r + 1;
  max_retries := max_retries r;
  status := st
|}.

Definition set_payload (p : dict) (r : QueueItem) : QueueItem := {|
  q_id := q_id r;
  queue_type := queue_type r;
  payload := p;
  priority := priority r;
  created_at := created_at r;
  retry_count := retry_count r;
  max_retries := max_retries r;
  status := status r
|}.

Definition update_where (item_id : Z) (f : QueueItem -> QueueItem)
    (q : list QueueItem) : list QueueItem :=
  map (fun r => if q_id r =? item_id then f r else r) q.

Definition update_queue_item (db : Db) (item_id : Z) (st : string)
    (result : option dict) : Db :=
  let q1 := update_where item_id (set_status_retry st) (offline_queue db) in
  let q2 :=
    if truthy_dict result then
      match List.find (fun r => q_id r =? item_id) q1 with
      | Some r =>
          let p := dict_set "result" (JObj (default [] result)) (payload r) in
          update_where item_id (set_payload p) q1
      | None => q1
      end
    else q1 in
  with_offline_queue db q2 (offline_queue_seq db).

(** *** log_security_event, log_audit *)

Definition falsy_to_none (d : option dict) : option dict :=
  if truthy_dict d then d else None.

Definition log_security_event (db : Db) (et sev descr : string)
    (fp pn : option string) (det : option dict) (now : Z) : Db :=
  let new_id := security_events_seq db + 1 in
  let ev := {| ev_id := new_id;
               event_type := et;
               severity := sev;
               description := descr;
               file_path := fp;
               process_name := pn;
               details := falsy_to_none det;
               timestamp := now;
               resolved := false |} in
  with_security_events db (security_events db ++ [ev]) new_id.

Definition log_audit (db : Db) (act : string) (res : option string)
    (det : option dict) (uc : option string) (now : Z) : Db :=
  let e := {| action := act;
              resource := res;
              audit_details := falsy_to_none det;
              audit_timestamp := now;
              user_context := uc |} in
  with_audit_log db (audit_log db ++ [e]).

(** *** Notions used to state the properties of the queue *)

(** [a] is delivered no later than [b] under
    [priority DESC, created_at ASC]. *)
Definition precedes (a b : QueueItem) : Prop :=
  priority b < priority a
  \/ (priority a = priority b /\ created_at a <= created_at b).

(** The rows a claim selects from: status [st], and type [t] when the
    caller passes a type. *)
Definition selected (qt : option string) (st : string) (r : QueueItem) : Prop :=
  status r = st
  /\ forall t, qt = Some t -> t <> ""%string -> queue_type r = t.

(** The WHERE clause of [get_queue_items] as one predicate. *)
Definition where_clause (qt : option string) (st : string) (r : QueueItem) : bool :=
  if truthy_opt_str qt
  then String.eqb (queue_type r) (default "" qt) && String.eqb (status r) st
  else String.eqb (status r) st.

(** Row ids are distinct and none exceeds the AUTOINCREMENT counter. *)
Definition queue_wf (db : Db) : Prop :=
  List.NoDup (map q_id (offline_queue db))
  /\ List.Forall (fun r => q_id r <= offline_queue_seq db) (offline_queue db).

(** A queue of four rows on which the operations are run. *)
Definition sample_row (i : Z) (qt : string) (prio at_ rc : Z) (st : string)
    : QueueItem := {|
  q_id := i;
  queue_type := qt;
  payload := [("command_id", JStr "c1"); ("result", JObj [("success", JBool true)])];
  priority := prio;
  created_at := at_;
  retry_count := rc;
  max_retries := 3;
  status := st
|}.

Definition sample_db : Db :=
  with_offline_queue initialize
    [sample_row 1 "telemetry" 1 100 0 "pending";
     sample_row 2 "command_result" 3 105 1 "failed";
     sample_row 3 "command_result" 0 110 0 "pending";
     sample_row 4 "command_result" 3 120 3 "failed"]
    4.

(** *** Generic DELETE on a [Table] *)

(** [WHERE c = v]; a NULL compares equal to nothing. *)
Definition sql_matches (c : string) (v : sqlval) (r : row) : bool :=
  match v, row_get c r with
  | VNull, _ => false
  | _, Some v' => sqlval_eqb v' v
  | _, None => false
  end.

(** [DELETE FROM t WHERE c = v] *)
Definition sql_delete (t : Table) (c : string) (v : sqlval) : Table := {|
  columns := columns t;
  unique_columns := unique_columns t;
  rows := List.filter (fun r => negb (sql_matches c v r)) (rows t);
  rowseq := rowseq t
|}.

End Database.

(** ** services/offline_queue.py *)

Module OfflineQueue.
Import Database.

Definition queue_command_result (db : Db) (cid : string) (result : dict)
    (now : Z) : Db * Z :=
  add_to_queue db "command_result"
    [("command_id", JStr cid); ("result", JObj result)] 3 now.

Definition reset_row (r : QueueItem) : QueueItem := {|
  q_id := q_id r;
  queue_type := queue_type r;
  payload := payload r;
  priority := priority r;
  created_at := created_at r;
  retry_count := 0;
  max_retries := max_retries r;
  status := "pending"
|}.

(** The WHERE clause of the sweep. *)
Definition retry_eligible (r : QueueItem) : bool :=
  String.eqb (status r) "failed" && (retry_count r <? max_retries r).

Definition retry_failed_items (db : Db) : Db :=
  with_offline_queue db
    (map (fun r => if retry_eligible r then reset_row r else r)
         (offline_queue db))
    (offline_queue_seq db).

(** *** The sync worker: _sync_telemetry_data, _sync_security_events,
    _sync_command_results *)

Definition batch_size : Z := 50.

(** What [_send_telemetry_batch], [_send_security_events_batch] and the
    worker's [_send_command_result] return: [True] on status 200, [False]
    on any other status and when the request raises. *)
Definition delivered (post : http_outcome) : bool :=
  match post with
  | Response code => code =? 200
  | RequestException => false
  end.

(** [for item in items: if sel(item): update_queue_item(item.id, st)] *)
Definition mark_where (sel : QueueItem -> bool) (st : string)
    (items : list QueueItem) (db : Db) : Db :=
  fold_left (fun acc item =>
               if sel item then update_queue_item acc (q_id item) st None else acc)
            items db.

(** [decodes item] tells whether [json.loads] accepts the stored payload
    text; when it does, [payload item] is the dictionary it yields. *)
Section Sync.
Variable decodes : QueueItem -> bool.

(** The body shared by [_sync_telemetry_data] and [_sync_security_events]:
    undecodable items are marked failed while the batch is built, an empty
    batch ends the call, and the outcome of the one POST is then written
    to every claimed item. *)
Definition sync_batch (qt : string) (db : Db) (post : http_outcome) : Db :=
  let queue_items := get_queue_items db (Some qt) "pending" batch_size in
  match queue_items with
  | [] => db
  | _ :: _ =>
      let db1 := mark_where (fun item => negb (decodes item)) "failed" queue_items db in
      match List.filter decodes queue_items with
      | [] => db1
      | _ :: _ =>
          if delivered post
          then mark_where (fun _ => true) "completed" queue_items db1
          else mark_where (fun _ => true) "failed" queue_items db1
      end
  end.

Definition _sync_telemetry_data : Db -> http_outcome -> Db :=
  sync_batch "telemetry".

Definition _sync_security_events : Db -> http_outcome -> Db :=
  sync_batch "security_event".

(** Every key of [ks] is in the payload. *)
Definition has_keys (ks : list string) (item : QueueItem) : bool :=
  forallb (fun k => match dict_get k (payload item) with
                    | Some _ => true
                    | None => false
                    end) ks.

(** The loop of [_sync_command_results]. Only [json.JSONDecodeError] is
    caught inside the loop: a payload without [command_id] or [result]
    raises [KeyError], which ends the loop in the handler around it.
    [post i] is the outcome of the POST made for item [i]. *)
Fixpoint sync_command_results_loop (post : Z -> http_outcome)
    (items : list QueueItem) (db : Db) : Db :=
  match items with
  | [] => db
  | item :: rest =>
      if decodes item then
        if has_keys ["command_id"; "result"] item then
          sync_command_results_loop post rest
            (update_queue_item db (q_id item)
               (if delivered (post (q_id item)) then "completed" else "failed")
               None)
        else db
      else
        sync_command_results_loop post rest
          (update_queue_item db (q_id item) "failed" None)
  end.

Definition _sync_command_results (post : Z -> http_outcome) (db : Db) : Db :=
  sync_command_results_loop post
    (get_queue_items db (Some "command_result") "pending" batch_size) db.

(** *** Notions used to state the properties of the sync worker *)

(** The loop gets past the item. *)
Definition processable (item : QueueItem) : bool :=
  negb (decodes item) || has_keys ["command_id"; "result"] item.

(** The status the loop stores for an item it gets past. *)
Definition drain_outcome (post : Z -> http_outcome) (item : QueueItem) : string :=
  if decodes item && delivered (post (q_id item)) then "completed" else "failed".

End Sync.

(** Marking an item failed and running the retry sweep. *)
Definition fail_and_sweep (item_id : Z) (db : Db) : Db :=
  retry_failed_items (update_queue_item db item_id "failed" None).

(** *** cleanup_old_items

    [created_before c d] is the outcome of SQLite's comparison
    [created_at < ?] between the stored text of [c] and the ISO text of the
    cutoff [d]. *)
Definition cleanup_old_items (created_before : Z -> Z -> bool) (db : Db)
    (days now : Z) : Db :=
  let cutoff_date := now - days * 86400 in
  with_offline_queue db
    (List.filter (fun r => negb (str_in (status r) ["completed"; "failed"]
                                 && created_before (created_at r) cutoff_date))
                 (offline_queue db))
    (offline_queue_seq db).

(** *** get_queue_status *)

(** [SELECT k, COUNT( * ) ... GROUP BY k] read into a dictionary. *)
Definition count_by (keys : list string) : gmap string nat :=
  fold_left (fun m k => <[k := S (default 0%nat (m !! k))]> m) keys ∅.

(** [sum(d.values())] *)
Definition sum_values (m : gmap string nat) : nat :=
  map_fold (fun _ v acc => (v + acc)%nat) 0%nat m.

(** The worker's own fields that the status reports. *)
Record Worker : Type := {
  last_sync : option Z;
  sync_in_progress : bool;
  failed_syncs : Z
}.

Record QueueStatus : Type := {
  total_items : nat;
  status_counts : gmap string nat;
  pending_by_type : gmap string nat;
  st_last_sync : option Z;
  st_sync_in_progress : bool;
  st_failed_syncs : Z
}.

Definition get_queue_status (w : Worker) (db : Db) : QueueStatus :=
  let status_counts := count_by (map status (offline_queue db)) in
  let type_counts :=
    count_by (map queue_type
                (List.filter (fun r => String.eqb (status r) "pending")
                             (offline_queue db))) in
  {| total_items := sum_values status_counts;
     status_counts := status_counts;
     pending_by_type := type_counts;
     st_last_sync := last_sync w;
     st_sync_in_progress := sync_in_progress w;
     st_failed_syncs := failed_syncs w |}.

(** *** Sample states *)

(** Three pending command results, the second without its [result] key. *)
Definition result_row (i prio : Z) (p : dict) : QueueItem := {|
  q_id := i;
  queue_type := "command_result";
  payload := p;
  priority := prio;
  created_at := 100;
  retry_count := 0;
  max_retries := 3;
  status := "pending"
|}.

Definition blocked_db : Db :=
  with_offline_queue initialize
    [result_row 1 3 [("command_id", JStr "c1"); ("result", JObj [])];
     result_row 2 2 [("command_id", JStr "c2")];
     result_row 3 1 [("command_id", JStr "c3"); ("result", JObj [])]]
    3.

Definition always_decodes (item : QueueItem) : bool := true.

Definition idle_worker : Worker := {|
  last_sync := None;
  sync_in_progress := false;
  failed_syncs := 0
|}.

End OfflineQueue.

(** ** services/command_processor.py *)

Module CommandProcessor.
Import Database.

(** The two settings the command loop reads from section [saas]. *)
Record Config : Type := {
  base_url : option string;
  api_key : option string
}.

(** [not self.base_url or not self.api_key] *)
Definition unconfigured (cfg : Config) : bool :=
  negb (truthy_opt_str (base_url cfg)) || negb (truthy_opt_str (api_key cfg)).

(** One element of the [commands] array of a poll response. *)
Record Command : Type := {
  c_id : option string;
  c_type : option string;
  c_parameters : option dict
}.

(** Keys of [self.command_handlers]. *)
Definition command_handlers : list string :=
  ["backup"; "restore"; "scan"; "isolate"; "update_config"; "shutdown";
   "restart"; "get_status"; "get_logs"].

(** What a handler call gives back: a result dictionary, or an
    exception with its message. *)
Inductive handler_result : Type :=
| Returned (r : dict)
| Raised (msg : string).

(** *** _record_command, _update_command_status *)

(** [INSERT OR REPLACE]: a row holding the same [command_id] is deleted
    before the new row is inserted. *)
Definition _record_command (db : Db) (cid ctype : string) (params : dict)
    (st : string) (now : Z) : Db :=
  let new_id := command_history_seq db + 1 in
  let rec := {| cmd_id := new_id;
                command_id := cid;
                command_type := ctype;
                parameters := params;
                cmd_status := st;
                cmd_result := None;
                cmd_created_at := now;
                completed_at := None |} in
  with_command_history db
    (List.filter (fun r => negb (String.eqb (command_id r) cid))
                 (command_history db) ++ [rec])
    new_id.

Definition _update_command_status (db : Db) (cid st : string)
    (result : dict) (now : Z) : Db :=
  with_command_history db
    (map (fun r =>
            if String.eqb (command_id r) cid then
              {| cmd_id := cmd_id r;
                 command_id := command_id r;
                 command_type := command_type r;
                 parameters := parameters r;
                 cmd_status := st;
                 cmd_result := Some result;
                 cmd_created_at := cmd_created_at r;
                 completed_at := Some now |}
            else r) (command_history db))
    (command_history_seq db).

(** *** _send_command_result *)

Definition result_payload (cid result : json) : dict :=
  [("command_id", cid); ("result", result)].

Definition _send_command_result (cfg : Config) (db : Db) (cid result : json)
    (post : http_outcome) (now : Z) : Db :=
  if unconfigured cfg then
    fst (add_to_queue db "command_result" (result_payload cid result)
           default_priority now)
  else
    match post with
    | Response code =>
        if code =? 200 then db
        else fst (add_to_queue db "command_result"
                    (result_payload cid result) default_priority now)
    | RequestException =>
        fst (add_to_queue db "command_result" (result_payload cid result)
               default_priority now)
    end.

(** The result POST was not delivered: nothing was configured, the
    backend answered with another status than 200, or the request
    raised. *)
Definition post_failed (cfg : Config) (post : http_outcome) : bool :=
  unconfigured cfg
  || match post with
     | Response code => negb (code =? 200)
     | RequestException => true
     end.

(** *** _process_offline_queue *)

Definition process_queue_item (cfg : Config) (post : Z -> http_outcome)
    (now : Z) (db : Db) (item : QueueItem) : Db :=
  match dict_get "command_id" (payload item),
        dict_get "result" (payload item) with
  | Some cid, Some result =>
      let db1 := _send_command_result cfg db cid result (post (q_id item)) now in
      update_queue_item db1 (q_id item) "completed" None
  | _, _ => update_queue_item db (q_id item) "failed" None
  end.

(** [post i] is the outcome of the POST made while item [i] is
    handled. *)
Definition _process_offline_queue (cfg : Config) (post : Z -> http_outcome)
    (now : Z) (db : Db) : Db :=
  let queue_items := get_queue_items db (Some "command_result") "pending" 10 in
  fold_left (process_queue_item cfg post now) queue_items db.

(** *** Notions used to state the properties of the drain *)

(** The payload holds the two keys the drain reads. *)
Definition has_result_payload (item : QueueItem) : bool :=
  match dict_get "command_id" (payload item), dict_get "result" (payload item) with
  | Some _, Some _ => true
  | _, _ => false
  end.

(** The status the drain stores for a claimed item. *)
Definition drain_status (item : QueueItem) : string :=
  if has_result_payload item then "completed" else "failed".

(** The effect on row [r] of handling the claimed [item]. *)
Definition mark (item r : QueueItem) : QueueItem :=
  if q_id r =? q_id item then set_status_retry (drain_status item) r else r.

Definition marks (items : list QueueItem) (r : QueueItem) : QueueItem :=
  fold_left (fun acc item => mark item acc) items r.

(** Handling [item] puts its result on the queue again. *)
Definition requeued (cfg : Config) (post : Z -> http_outcome) (item : QueueItem)
    : bool :=
  has_result_payload item && post_failed cfg (post (q_id item)).

(** The row that is inserted then, [seq] being the counter before. *)
Definition requeued_row (seq now : Z) (item : QueueItem) : QueueItem := {|
  q_id := seq + 1;
  queue_type := "command_result";
  payload := result_payload (default JNull (dict_get "command_id" (payload item)))
                            (default JNull (dict_get "result" (payload item)));
  priority := default_priority;
  created_at := now;
  retry_count := 0;
  max_retries := 3;
  status := "pending"
|}.

(** *** _execute_command, _process_command

    The handlers act on the host (files, configuration, the operating
    system); that part of the state is the abstract [World]. Every call
    of a handler is appended to [handler_calls], tagged with the id of
    the command being processed. *)
Section Handlers.
Variable World : Type.
Variable handler : string -> dict -> World -> handler_result * World.

Record State : Type := {
  db : Db;
  world : World;
  handler_calls : list (string * string)
}.

Definition _execute_command (cid ctype : string) (params : dict)
    (st : State) : handler_result * State :=
  if str_in ctype command_handlers then
    let (r, w) := handler ctype params (world st) in
    (r, {| db := db st;
           world := w;
           handler_calls := handler_calls st ++ [(cid, ctype)] |})
  else (Raised ("Unknown command type: " +:+ ctype), st).

Definition _process_command (cfg : Config) (st : State) (command : Command)
    (post : http_outcome) (now : Z) : State :=
  let params := default [] (c_parameters command) in
  if negb (truthy_opt_str (c_id command))
     || negb (truthy_opt_str (c_type command))
  then st
  else
    let cid := default "" (c_id command) in
    let ctype := default "" (c_type command) in
    let st1 := {| db := _record_command (db st) cid ctype params "received" now;
                  world := world st;
                  handler_calls := handler_calls st |} in
    let (r, st2) := _execute_command cid ctype params st1 in
    match r with
    | Returned result =>
        let db3 := _update_command_status (db st2) cid "completed" result now in
        {| db := _send_command_result cfg db3 (JStr cid) (JObj result) post now;
           world := world st2;
           handler_calls := handler_calls st2 |}
    | Raised msg =>
        let error_result := [("error", JStr msg); ("success", JBool false)] in
        let db3 := _update_command_status (db st2) cid "failed" error_result now in
        {| db := _send_command_result cfg db3 (JStr cid) (JObj error_result) post now;
           world := world st2;
           handler_calls := handler_calls st2 |}
    end.

(** The [for command in commands] loop of [_command_loop], each command
    paired with the outcome of its result POST. *)
Definition process_commands (cfg : Config) (now : Z) (st : State)
    (commands : list (Command * http_outcome)) : State :=
  fold_left (fun s cp => _process_command cfg s (fst cp) (snd cp) now)
            commands st.

(** *** Notions used to state the properties of the loop *)

(** Number of handler calls made on behalf of command [cid]. *)
Definition executions (cid : string) (st : State) : nat :=
  length (List.filter (fun c => String.eqb (fst c) cid) (handler_calls st)).

(** The command is well formed and its type has a handler. *)
Definition runs_handler (c : Command) : bool :=
  truthy_opt_str (c_id c) && truthy_opt_str (c_type c)
  && str_in (default "" (c_type c)) command_handlers.

(** Number of such commands with id [cid] among the polled ones. *)
Definition deliveries (cid : string) (commands : list (Command * http_outcome))
    : nat :=
  length (List.filter
            (fun cp => runs_handler (fst cp)
                       && String.eqb (default "" (c_id (fst cp))) cid)
            commands).

End Handlers.

Arguments db {World} _.
Arguments world {World} _.
Arguments handler_calls {World} _.
Arguments executions {World} _ _.
Arguments _process_command {World} _ _ _ _ _ _.
Arguments process_commands {World} _ _ _ _ _.

(** A host on which every handler succeeds at once, and a [get_status]
    command as the backend serves it. *)
Definition trivial_handler (ctype : string) (params : dict) (w : unit)
    : handler_result * unit :=
  (Returned [("success", JBool true)], w).

Definition get_status_c1 : Command := {|
  c_id := Some "c1";
  c_type := Some "get_status";
  c_parameters := None
|}.

Definition online : Config := {|
  base_url := Some "https://saas.example";
  api_key := Some "key"
|}.

Definition fresh_state : State unit := {|
  db := initialize;
  world := tt;
  handler_calls := []
|}.

(** *** The handlers that name [Path] *)

(** The names the module binds: what its [import] statements (lines 5 to
    13) bring in, and the class it defines. [Path] is not among them and
    is no builtin. *)
Definition module_names : list string :=
  ["json"; "logging"; "threading"; "time"; "subprocess"; "requests";
   "Dict"; "Any"; "Optional"; "List"; "datetime"; "uuid"; "CommandProcessor"].

(** [str(e)] for the NameError raised on evaluating an unbound name. *)
Definition name_error (n : string) : string :=
  "name '" +:+ n +:+ "' is not defined".

(** [type(v).__name__] for a value read from JSON. *)
Definition type_name (v : json) : string :=
  match v with
  | JNull => "NoneType"
  | JBool _ => "bool"
  | JNum _ => "int"
  | JStr _ => "str"
  | JArr _ => "list"
  | JObj _ => "dict"
  end.

(** [v.get(k, d)] for the value [v] of the key [parameters] of a command:
    on anything but a dictionary the attribute lookup raises
    AttributeError, whose text is the left result. *)
Definition attr_get (v : json) (k : string) (d : json) : string + json :=
  match v with
  | JObj o => inr (default d (dict_get k o))
  | _ => inl ("'" +:+ type_name v +:+ "' object has no attribute 'get'")
  end.

Section PathHandlers.
Variable World : Type.
(** What the two bodies do from their first [Path(...)] on, once the name
    is bound: move the listed files to the quarantine directory and log
    them; read the last lines of the log file. *)
Variable isolate_files : json -> World -> handler_result * World.
Variable read_logs : json -> json -> World -> handler_result * World.

(** [file_paths = parameters.get('file_paths', [])], then
    [Path(self.config.get(...))]: the name [Path] is looked up before
    the argument of the call is evaluated. *)
Definition _handle_isolate_command (parameters : json) (w : World)
    : handler_result * World :=
  match attr_get parameters "file_paths" (JArr []) with
  | inl e => (Raised e, w)
  | inr file_paths =>
      if str_in "Path" module_names then isolate_files file_paths w
      else (Raised (name_error "Path"), w)
  end.

(** [log_type = parameters.get('log_type', 'agent')],
    [lines = parameters.get('lines', 100)], then [Path(...)]. *)
Definition _handle_get_logs_command (parameters : json) (w : World)
    : handler_result * World :=
  match attr_get parameters "log_type" (JStr "agent") with
  | inl e => (Raised e, w)
  | inr log_type =>
      match attr_get parameters "lines" (JNum 100) with
      | inl e => (Raised e, w)
      | inr lines =>
          if str_in "Path" module_names then read_logs log_type lines w
          else (Raised (name_error "Path"), w)
      end
  end.

(** The handler table with these two entries filled in, [others] standing
    for the remaining seven handlers. A [Command] carries its parameters
    as a dictionary, which is what the two handlers are given here. *)
Definition with_pathless_handlers
    (others : string -> dict -> World -> handler_result * World)
    (ctype : string) (params : dict) (w : World) : handler_result * World :=
  if String.eqb ctype "isolate" then _handle_isolate_command (JObj params) w
  else if String.eqb ctype "get_logs" then _handle_get_logs_command (JObj params) w
  else others ctype params w.

End PathHandlers.

(** The error either handler ends with, by the kind of [parameters]. *)
Definition path_handler_error (parameters : json) : string :=
  match parameters with
  | JObj _ => name_error "Path"
  | _ => "'" +:+ type_name parameters +:+ "' object has no attribute 'get'"
  end.

(** Stand-ins for the two bodies: they report success. *)
Definition isolate_succeeds (file_paths : json) (w : unit)
    : handler_result * unit :=
  (Returned [("success", JBool true)], w).

Definition read_logs_succeeds (log_type lines : json) (w : unit)
    : handler_result * unit :=
  (Returned [("success", JBool true)], w).

(** *** Notions used to state the outcome of one command *)

(** [{'error': str(e), 'success': False}] *)
Definition error_result (msg : string) : dict :=
  [("error", JStr msg); ("success", JBool false)].

(** Status and result [_process_command] stores for a command of type
    [ctype], and the host after it. *)
Definition command_outcome {World : Type}
    (handler : string -> dict -> World -> handler_result * World)
    (ctype : string) (params : dict) (w : World) : string * dict * World :=
  if str_in ctype command_handlers then
    match handler ctype params w with
    | (Returned result, w') => ("completed"%string, result, w')
    | (Raised msg, w') => ("failed"%string, error_result msg, w')
    end
  else ("failed"%string, error_result ("Unknown command type: " +:+ ctype), w).

(** The row of [command_history] a processed command ends with. *)
Definition final_record (seq : Z) (cid ctype : string) (params : dict)
    (st : string) (result : dict) (now : Z) : CommandRecord := {|
  cmd_id := seq + 1;
  command_id := cid;
  command_type := ctype;
  parameters := params;
  cmd_status := st;
  cmd_result := Some result;
  cmd_created_at := now;
  completed_at := Some now
|}.

(** [command_id and command_type] *)
Definition well_formed (c : Command) : bool :=
  truthy_opt_str (c_id c) && truthy_opt_str (c_type c).

Definition isolate_c2 : Command := {|
  c_id := Some "c2";
  c_type := Some "isolate";
  c_parameters := Some [("file_paths", JArr [JStr "C:/Users/a/invoice.exe"])]
|}.

Definition wipe_c3 : Command := {|
  c_id := Some "c3";
  c_type := Some "wipe";
  c_parameters := None
|}.

Definition untyped_c4 : Command := {|
  c_id := Some "c4";
  c_type := None;
  c_parameters := None
|}.

End CommandProcessor.

(** ** services/alert_manager.py *)

Module AlertManager.
Import Database.

(** The dispatcher: its configured cooldown and the scratch map
    [last_alerts] from dedup key to the time of the last emission. *)
Record Manager : Type := {
  alert_cooldown : Z;
  last_alerts : gmap string Z
}.

Definition alert_key (et sev : string) : string := et +:+ "_" +:+ sev.

Definition _should_send_alert (m : Manager) (et sev : string) (now : Z)
    : bool * Manager :=
  let updated := {| alert_cooldown := alert_cooldown m;
                    last_alerts := <[alert_key et sev := now]> (last_alerts m) |} in
  match last_alerts m !! alert_key et sev with
  | Some last =>
      if now - last <? alert_cooldown m then (false, m) else (true, updated)
  | None => (true, updated)
  end.

(** [_record_alert]: the audit row every emission leaves. The transports
    (webhook, SMTP) are best effort and leave no other trace in the
    store. *)
Definition _record_alert (db : Db) (alert_type message sev : string)
    (now : Z) : Db :=
  with_audit_log db
    (audit_log db ++
     [{| action := "alert_sent";
         resource := Some alert_type;
         audit_details := Some [("message", JStr message);
                                ("severity", JStr sev);
                                ("timestamp", JNum now)];
         audit_timestamp := now;
         user_context := None |}]).

Definition _send_alert (db : Db) (alert_type message sev : string)
    (now : Z) : Db :=
  _record_alert db alert_type message sev now.

Definition _mark_event_resolved (db : Db) (event_id : Z) : Db :=
  with_security_events db
    (map (fun e =>
            if ev_id e =? event_id then
              {| ev_id := ev_id e;
                 event_type := event_type e;
                 severity := severity e;
                 description := description e;
                 file_path := file_path e;
                 process_name := process_name e;
                 details := details e;
                 timestamp := timestamp e;
                 resolved := true |}
            else e) (security_events db))
    (security_events_seq db).

(** Message rendering ([_generate_alert_data], [_format_alert_message])
    reads the host and fills a template; the text it yields is taken as
    given. *)
Section Dispatcher.
Variable render_event : SecurityEvent -> string.
Variable render_command : CommandRecord -> string.

Definition _process_security_event (s : Manager * Db) (event : SecurityEvent)
    (now : Z) : Manager * Db :=
  let (ok, m) := _should_send_alert (fst s) (event_type event) (severity event) now in
  if ok then
    let db1 := _send_alert (snd s) (event_type event) (render_event event)
                 (severity event) now in
    (m, _mark_event_resolved db1 (ev_id event))
  else (m, snd s).

Definition _process_command_event (s : Manager * Db) (command : CommandRecord)
    (now : Z) : Manager * Db :=
  if negb (str_in (command_type command) ["backup"; "restore"; "scan"; "isolate"])
  then s
  else (fst s, _send_alert (snd s) "command_executed" (render_command command)
                 "medium" now).

(** One pass of [_alert_loop]. The clock is read once per pass: the two
    queries, the cooldown checks and the stamps of the audit rows all use
    [now], where the code reads the clock again for each of them.

    The first query compares [timestamp], written by SQLite as
    [YYYY-MM-DD HH:MM:SS], with [datetime('now', '-1 hour')] in the same
    form. The second compares [created_at], written by [_record_command]
    as [isoformat()] text ([YYYY-MM-DDTHH:MM:SS...]), with that same
    bound: as texts, a row of the bound's day or of a later day is above
    the bound ([T] sorts after the blank) and a row of an earlier day is
    below it, so the query keeps the commands recorded since the start of
    the UTC day that held the time one hour ago. Seconds are counted from
    a midnight UTC, as Unix time is. *)
Definition _process_pending_alerts (s : Manager * Db) (now : Z)
    : Manager * Db :=
  let events :=
    sort_by (fun a b => timestamp b <=? timestamp a)
      (List.filter (fun e => (now - 3600 <? timestamp e) && negb (resolved e))
                   (security_events (snd s))) in
  let s1 := fold_left (fun acc e => _process_security_event acc e now) events s in
  let commands :=
    sort_by (fun a b => cmd_created_at b <=? cmd_created_at a)
      (List.filter (fun c => (now - 3600) / 86400 <=? cmd_created_at c / 86400)
                   (command_history (snd s1))) in
  fold_left (fun acc c => _process_command_event acc c now) commands s1.

End Dispatcher.

(** The emissions recorded in the store: dedup key and time of every
    [alert_sent] row, oldest first. *)
Definition emission_of (a : AuditEntry) : option (string * Z) :=
  if String.eqb (action a) "alert_sent" then
    match resource a, audit_details a with
    | Some et, Some d =>
        match dict_get "severity" d with
        | Some (JStr sev) => Some (alert_key et sev, audit_timestamp a)
        | _ => None
        end
    | _, _ => None
    end
  else None.

Definition emissions (db : Db) : list (string * Z) :=
  omap emission_of (audit_log db).

(** *** Notions used to state the cooldown property *)

(** Any two entries of the log that share a key are at least [c] apart,
    the later one being later in time. *)
Definition cooldown_honoured (c : Z) (log : list (string * Z)) : Prop :=
  forall (i j : nat) (k : string) (t1 t2 : Z),
    (i < j)%nat ->
    nth_error log i = Some (k, t1) ->
    nth_error log j = Some (k, t2) ->
    c <= t2 - t1.

(** The same, built one emission at a time. *)
Inductive well_spaced (c : Z) : list (string * Z) -> Prop :=
| ws_nil : well_spaced c []
| ws_snoc (log : list (string * Z)) (k : string) (t : Z) :
    well_spaced c log ->
    (forall t', In (k, t') log -> c <= t - t') ->
    well_spaced c (log ++ [(k, t)]).

(** What the pass maintains: the log is well spaced, every logged emission
    is no later than the entry of its key in [last_alerts], and no entry of
    that map is later than the clock. *)
Definition cooldown_invariant (c t0 : Z) (s : Manager * Db) : Prop :=
  alert_cooldown (fst s) = c
  /\ well_spaced c (emissions (snd s))
  /\ (forall k t, In (k, t) (emissions (snd s)) ->
      exists last, last_alerts (fst s) !! k = Some last /\ t <= last)
  /\ (forall k last, last_alerts (fst s) !! k = Some last -> last <= t0).

(** The security-event path run on a sequence of candidates, each with the
    clock reading of its check. *)
Definition run_security_events (render_event : SecurityEvent -> string)
    (s : Manager * Db) (calls : list (SecurityEvent * Z)) : Manager * Db :=
  fold_left (fun acc c => _process_security_event render_event acc (fst c) (snd c))
            calls s.

(** The clock readings never go back, starting from [t0]. *)
Fixpoint monotone_from (t0 : Z) (calls : list (SecurityEvent * Z)) : Prop :=
  match calls with
  | [] => True
  | c :: rest => t0 <= snd c /\ monotone_from (snd c) rest
  end.

(** A dispatcher with the default cooldown and a store holding one
    [backup] command recorded at time 1000. *)
Definition default_manager : Manager := {|
  alert_cooldown := 300;
  last_alerts := ∅
|}.

Definition backup_command_db : Db :=
  with_command_history initialize
    [{| cmd_id := 1;
        command_id := "c1";
        command_type := "backup";
        parameters := [];
        cmd_status := "completed";
        cmd_result := Some [("success", JBool true)];
        cmd_created_at := 1000;
        completed_at := Some 1000 |}]
    1.

Definition plain (A : Type) (x : A) : string := "".

(** *** Notions used to state what a pass leaves alone *)

(** [b] is the row [a] with at most its [resolved] flag raised. *)
Definition resolved_later (a b : SecurityEvent) : Prop :=
  ev_id b = ev_id a
  /\ event_type b = event_type a
  /\ severity b = severity a
  /\ description b = description a
  /\ file_path b = file_path a
  /\ process_name b = process_name a
  /\ details b = details a
  /\ timestamp b = timestamp a
  /\ (resolved a = true -> resolved b = true).

(** The part of the store and of the dispatcher a pass at time [now] may
    have changed since [s0]. *)
Definition pass_frame (now : Z) (s0 s : Manager * Db) : Prop :=
  alert_cooldown (fst s) = alert_cooldown (fst s0)
  /\ offline_queue (snd s) = offline_queue (snd s0)
  /\ offline_queue_seq (snd s) = offline_queue_seq (snd s0)
  /\ command_history (snd s) = command_history (snd s0)
  /\ backup_records (snd s) = backup_records (snd s0)
  /\ Forall2 resolved_later (security_events (snd s0)) (security_events (snd s))
  /\ exists sent,
       audit_log (snd s) = audit_log (snd s0) ++ sent
       /\ List.Forall (fun a => action a = "alert_sent"%string
                                /\ audit_timestamp a = now) sent.

(** The string holds no underscore, as the four severities in use
    ([low], [medium], [high], [critical]). *)
Fixpoint no_underscore (s : string) : bool :=
  match s with
  | EmptyString => true
  | String c t => negb (Ascii.eqb c "_") && no_underscore t
  end.

(** A run of cooldown checks for one event type and severity at the given
    clock readings. *)
Definition check_all (m : Manager) (et sev : string) (times : list Z) : Manager :=
  fold_left (fun acc t => snd (_should_send_alert acc et sev t)) times m.

(** A run of cooldown checks over any event types and severities, each
    with the reading of [time.time()] its check makes: the dispatcher after
    the run, and the checks that were granted, as dedup key and time of
    the check, oldest first. *)
Definition run_checks (m : Manager) (checks : list (string * string * Z))
    : Manager * list (string * Z) :=
  fold_left
    (fun acc c =>
       let r := _should_send_alert (fst acc) (fst (fst c)) (snd (fst c)) (snd c) in
       (snd r,
        snd acc ++ (if fst r
                    then [(alert_key (fst (fst c)) (snd (fst c)), snd c)]
                    else [])))
    checks (m, []).

(** The readings of the checks never go back, starting from [t0]. *)
Fixpoint clock_from (t0 : Z) (checks : list (string * string * Z)) : Prop :=
  match checks with
  | [] => True
  | c :: rest => t0 <= snd c /\ clock_from (snd c) rest
  end.

(** What a run of checks maintains: the granted checks are well spaced,
    each is no later than the entry of its key in [last_alerts], and no
    entry of that map is later than the clock. *)
Definition checks_invariant (c t0 : Z) (acc : Manager * list (string * Z)) : Prop :=
  alert_cooldown (fst acc) = c
  /\ well_spaced c (snd acc)
  /\ (forall k t, In (k, t) (snd acc) ->
      exists last, last_alerts (fst acc) !! k = Some last /\ t <= last)
  /\ (forall k last, last_alerts (fst acc) !! k = Some last -> last <= t0).

(** A dispatcher that alerted on a high ransomware detection at time
    1000. *)
Definition alerted_manager : Manager := {|
  alert_cooldown := 300;
  last_alerts := {[ "ransomware_detection_high"%string := 1000 ]}
|}.

End AlertManager.

(** ** services/backup_manager.py *)

Module BackupManager.
Import Database.

Definition bytes : Type := list byte.

(** The file system is a finite map from the path of each regular file to
    its content, [gmap string bytes]. *)

Record Config : Type := {
  backup_dir : string;
  compression_level : Z;
  max_backup_size : Z
}.

(** The libraries the manager calls are taken as given: [tarfile] with
    gzip, the Fernet cipher set up from the configured key ([encrypt]
    stands for the token one call produces), SHA-256 and the [pathlib]
    operations. A failing library call ([ReadError], [InvalidToken]) is
    [None]. *)
Section Libraries.
Variable tar_gz_create : Z -> list (string * bytes) -> bytes.
Variable tar_gz_extract : bytes -> option (list (string * bytes)).
Variable encrypt : bytes -> bytes.
Variable decrypt : bytes -> option bytes.
Variable sha256_hexdigest : bytes -> string.
(** [path.name], [path.absolute()], [a / b], [path.with_suffix('.tmp')] *)
Variable path_name : string -> string.
Variable path_absolute : string -> string.
Variable path_join : string -> string -> string.
Variable with_suffix_tmp : string -> string.
(** For a directory, the members its [os.walk] loop archives (hidden and
    [__pycache__] directories pruned, [.tmp], [.log], [.cache] files
    skipped, names relative to the parent); [None] when the path is not
    a directory. *)
Variable walk_dir : gmap string bytes -> string -> option (list (string * bytes)).

Definition path_exists (fs : gmap string bytes) (p : string) : bool :=
  match fs !! p, walk_dir fs p with
  | None, None => false
  | _, _ => true
  end.

Definition _validate_source_paths (fs : gmap string bytes) (source_paths : list string)
    : list string :=
  map path_absolute (List.filter (path_exists fs) source_paths).

Definition _add_to_archive (fs : gmap string bytes) (source_path : string)
    : list (string * bytes) :=
  match fs !! source_path with
  | Some content => [(path_name source_path, content)]
  | None => default [] (walk_dir fs source_path)
  end.

Definition _calculate_checksum (fs : gmap string bytes) (p : string) : option string :=
  sha256_hexdigest <$> fs !! p.

(** [if not expected_checksum] *)
Definition checksum_available (expected : option sqlval) : bool :=
  match expected with
  | Some (VText c) => truthy_str c
  | Some (VInt n) => negb (n =? 0)
  | _ => false
  end.

(** [None] when reading the file raises. *)
Definition _verify_checksum (fs : gmap string bytes) (p : string)
    (expected : option sqlval) : option bool :=
  if checksum_available expected then
    actual ← _calculate_checksum fs p;
    Some (match expected with
          | Some (VText c) => String.eqb actual c
          | _ => false
          end)
  else Some true.

(** The INSERT of [_record_backup], with the nine columns it names;
    [source_paths] is stored as one text. [None] when the statement
    raises. *)
Definition _record_backup (db : Db) (backup_id backup_type : string)
    (source_paths : list string) (backup_path : string) (size_bytes : Z)
    (descr checksum : string) (now : Z) : option Db :=
  with_backup_records db <$>
    sql_insert (backup_records db)
      [("backup_id", VText backup_id);
       ("backup_type", VText backup_type);
       ("source_paths", VText (String.concat "," source_paths));
       ("backup_path", VText backup_path);
       ("size_bytes", VInt size_bytes);
       ("encrypted", VInt 1);
       ("created_at", VInt now);
       ("checksum", VText checksum);
       ("description", VText descr)].

Definition _get_backup_record (db : Db) (backup_id : string) : option row :=
  sql_select_one (backup_records db) "backup_id" (VText backup_id).

(** [create_backup]; [backup_id] is what [_generate_backup_id] drew and
    [stamp] the formatted time. The result is the returned id ([None]
    on every failure path), the file system and the store. *)
Definition create_backup (cfg : Config) (fs : gmap string bytes) (db : Db)
    (source_paths : list string) (backup_type descr : string)
    (backup_id stamp : string) (now : Z)
    : option string * gmap string bytes * Db :=
  let backup_filename :=
    "backup_" +:+ backup_id +:+ "_" +:+ stamp +:+ ".tar.gz.enc" in
  let backup_path := path_join (backup_dir cfg) backup_filename in
  let valid_paths := _validate_source_paths fs source_paths in
  match valid_paths with
  | [] => (None, fs, db)
  | _ :: _ =>
      let temp_backup_path := with_suffix_tmp backup_path in
      let archive :=
        tar_gz_create (compression_level cfg)
          (flat_map (_add_to_archive fs) valid_paths) in
      let fs1 := <[temp_backup_path := archive]> fs in
      let backup_size := Z.of_nat (length archive) in
      if max_backup_size cfg <? backup_size then
        (None, delete temp_backup_path fs1, db)
      else
        match fs1 !! temp_backup_path with
        | None => (None, fs1, db)
        | Some data =>
            let fs2 := <[backup_path := encrypt data]> fs1 in
            let fs3 := delete temp_backup_path fs2 in
            match _calculate_checksum fs3 backup_path with
            | None => (None, fs3, db)
            | Some checksum =>
                match _record_backup db backup_id backup_type source_paths
                        backup_path backup_size descr checksum now with
                | Some db' => (Some backup_id, fs3, db')
                | None => (None, fs3, db)
                end
            end
        end
  end.

(** [tar.extractall(restore_dir)] *)
Definition extractall (fs : gmap string bytes) (restore_dir : string)
    (members : list (string * bytes)) : gmap string bytes :=
  fold_left (fun acc m => <[path_join restore_dir (fst m) := snd m]> acc)
            members fs.

Definition restore_backup (fs : gmap string bytes) (db : Db) (backup_id : string)
    (restore_path : option string) (now : Z) : bool * gmap string bytes * Db :=
  match _get_backup_record db backup_id with
  | None => (false, fs, db)
  | Some backup_record =>
      match row_get "backup_path" backup_record with
      | Some (VText backup_path) =>
          match fs !! backup_path with
          | None => (false, fs, db)
          | Some encrypted_data =>
              match _verify_checksum fs backup_path
                      (row_get "checksum" backup_record) with
              | Some true =>
                  let temp_backup_path := with_suffix_tmp backup_path in
                  match decrypt encrypted_data with
                  | None => (false, fs, db)
                  | Some decrypted_data =>
                      let fs1 := <[temp_backup_path := decrypted_data]> fs in
                      let restore_dir :=
                        if truthy_opt_str restore_path
                        then default "" restore_path else "./restore" in
                      match fs1 !! temp_backup_path ≫= tar_gz_extract with
                      | None => (false, fs1, db)
                      | Some members =>
                          let fs2 := extractall fs1 restore_dir members in
                          let fs3 := delete temp_backup_path fs2 in
                          match row_get "backup_type" backup_record with
                          | None => (false, fs3, db)
                          | Some backup_type =>
                              (true, fs3,
                               log_audit db "backup_restored" (Some backup_id)
                                 (Some [("backup_path", JStr backup_path);
                                        ("restore_path", JStr restore_dir);
                                        ("backup_type", json_of_sqlval backup_type)])
                                 None now)
                          end
                      end
                  end
              | _ => (false, fs, db)
              end
          end
      | _ => (false, fs, db)
      end
  end.

End Libraries.

(** *** Stand-ins used to run the manager on concrete inputs

    An archive that is the content of its only member, a cipher that
    leaves the bytes alone and a constant digest; paths are joined with a
    slash. *)
Definition toy_tar_gz_create (level : Z) (members : list (string * bytes)) : bytes :=
  flat_map snd members.

Definition toy_tar_gz_extract (archive : bytes) : option (list (string * bytes)) :=
  Some [("test_file.txt"%string, archive)].

Definition toy_encrypt (data : bytes) : bytes := data.

Definition toy_decrypt (data : bytes) : option bytes := Some data.

Definition toy_sha256 (data : bytes) : string := str_of_Z (Z.of_nat (length data)).

Definition toy_path (p : string) : string := p.

Definition toy_join (a b : string) : string := a +:+ "/" +:+ b.

Definition toy_tmp (p : string) : string := p +:+ ".tmp".

Definition toy_walk (fs : gmap string bytes) (p : string) : option (list (string * bytes)) :=
  None.

Definition toy_config : Config := {|
  backup_dir := "./backups";
  compression_level := 6;
  max_backup_size := 1073741824
|}.

(** A small file at the path the repository's backup test writes to. *)
Definition test_fs : gmap string bytes :=
  {[ "test_data/test_file.txt"%string := [x54; x65; x73; x74] ]}.

(** A store whose [backup_records] table does have a [checksum] column and
    holds one record, with its artifact on disk. *)
Definition checksummed_db : Db :=
  with_backup_records initialize {|
    columns := columns backup_records_schema ++ [("checksum", VNull)];
    unique_columns := ["backup_id"];
    rows := [[("id", VInt 1); ("backup_id", VText "b1");
              ("backup_type", VText "manual");
              ("backup_path", VText "./backups/b1.tar.gz.enc");
              ("checksum", VText "4")]];
    rowseq := 1
  |}.

Definition corrupted_fs : gmap string bytes :=
  {[ "./backups/b1.tar.gz.enc"%string := [x54; x65; x73; x74; x00] ]}.

(** *** _cleanup_old_backups, delete_backup *)

Section Retention.
Variable walk_dir : gmap string bytes -> string -> option (list (string * bytes)).

(** [if backup_path.exists(): backup_path.unlink()]; [None] when the
    path is a directory, on which [unlink] raises. *)
Definition unlink_if_exists (fs : gmap string bytes) (p : string)
    : option (gmap string bytes) :=
  match fs !! p with
  | Some _ => Some (delete p fs)
  | None =>
      match walk_dir fs p with
      | Some _ => None
      | None => Some fs
      end
  end.

(** [WHERE created_at < ? AND uploaded = 1], times being held as
    numbers of seconds. *)
Definition old_uploaded (cutoff : Z) (r : row) : bool :=
  match row_get "created_at" r, row_get "uploaded" r with
  | Some (VInt t), Some (VInt u) => (t <? cutoff) && (u =? 1)
  | _, _ => false
  end.

(** The [for backup in old_backups] loop. A stored path that is no text,
    or a failing [unlink], raises: the loop stops there with what it has
    done so far. *)
Fixpoint cleanup_loop (old_backups : list row) (fs : gmap string bytes)
    (t : Table) : gmap string bytes * Table :=
  match old_backups with
  | [] => (fs, t)
  | backup :: rest =>
      match row_get "backup_path" backup with
      | Some (VText p) =>
          match unlink_if_exists fs p with
          | Some fs' =>
              cleanup_loop rest fs'
                (sql_delete t "backup_id"
                   (default VNull (row_get "backup_id" backup)))
          | None => (fs, t)
          end
      | _ => (fs, t)
      end
  end.

Definition _cleanup_old_backups (retention_days : Z) (fs : gmap string bytes)
    (db : Db) (now : Z) : gmap string bytes * Db :=
  let cutoff_date := now - retention_days * 86400 in
  let old_backups :=
    List.filter (old_uploaded cutoff_date) (rows (backup_records db)) in
  let r := cleanup_loop old_backups fs (backup_records db) in
  (fst r, with_backup_records db (snd r)).

Definition delete_backup (fs : gmap string bytes) (db : Db) (backup_id : string)
    : bool * gmap string bytes * Db :=
  match _get_backup_record db backup_id with
  | None => (false, fs, db)
  | Some backup_record =>
      match row_get "backup_path" backup_record with
      | Some (VText backup_path) =>
          match unlink_if_exists fs backup_path with
          | Some fs' =>
              (true, fs',
               with_backup_records db
                 (sql_delete (backup_records db) "backup_id" (VText backup_id)))
          | None => (false, fs, db)
          end
      | _ => (false, fs, db)
      end
  end.

End Retention.

(** *** More stand-ins *)

(** An archive format that cannot be read back. *)
Definition unreadable_archive (archive : bytes) : option (list (string * bytes)) :=
  None.

(** A store whose table has the two extra columns and is empty. *)
Definition extended_db : Db :=
  with_backup_records initialize backup_records_with_checksum.

(** A row of [backup_records] made at time 1000. *)
Definition retention_row (i : Z) (backup_id backup_path : string) (uploaded : Z)
    : row :=
  [("id", VInt i); ("backup_id", VText backup_id);
   ("backup_type", VText "manual"); ("source_paths", VText "docs");
   ("backup_path", VText backup_path); ("size_bytes", VInt 4);
   ("encrypted", VInt 1); ("created_at", VInt 1000);
   ("uploaded", VInt uploaded); ("upload_url", VNull)].

(** A record without a checksum, with its artifact on disk. *)
Definition plain_record_db : Db :=
  with_backup_records initialize {|
    columns := columns backup_records_schema;
    unique_columns := ["backup_id"];
    rows := [retention_row 1 "b1" "./backups/b1.tar.gz.enc" 0];
    rowseq := 1
  |}.

Definition artifact_fs : gmap string bytes :=
  {[ "./backups/b1.tar.gz.enc"%string := [x54; x65; x73; x74] ]}.

(** Two records made at time 1000, the first uploaded, the second not,
    each with its artifact on disk. *)
Definition retention_db : Db :=
  with_backup_records initialize {|
    columns := columns backup_records_schema;
    unique_columns := ["backup_id"];
    rows := [retention_row 1 "b1" "./backups/b1.tar.gz.enc" 1;
             retention_row 2 "b2" "./backups/b2.tar.gz.enc" 0];
    rowseq := 2
  |}.

Definition retention_fs : gmap string bytes :=
  {[ "./backups/b1.tar.gz.enc"%string := [x54];
     "./backups/b2.tar.gz.enc"%string := [x65] ]}.

End BackupManager.

(** ** services/file_watcher.py *)

Module FileWatcher.
Import Database.

(** The four kinds of event the observer delivers ([on_created],
    [on_modified], [on_moved], [on_deleted]). *)
Inductive kind : Type := created | modified | moved | deleted.

Definition kind_eqb (a b : kind) : bool :=
  match a, b with
  | created, created | modified, modified
  | moved, moved | deleted, deleted => true
  | _, _ => false
  end.

(** [event_data] *)
Record event_data : Type := {
  type : kind;
  src_path : string;
  dest_path : option string;
  ev_timestamp : Z;
  extension : string;
  is_suspicious_extension : bool;
  is_encryption_pattern : bool
}.

Record RansomwareDetector : Type := {
  suspicious_extensions : list string;
  max_file_size : Z;
  recent_events : list event_data
}.

Definition default_suspicious_extensions : list string :=
  [".exe"; ".bat"; ".cmd"; ".scr"; ".pif"; ".com"; ".vbs"; ".js"].

Definition encryption_patterns : list string :=
  [".encrypted"; ".locked"; ".crypto"; ".crypt"].

Definition mass_write_threshold : nat := 50.
Definition mass_rename_threshold : nat := 30.
Definition suspicious_extension_threshold : nat := 10.

(** What [_process_file_event] learns about the path from [pathlib] and
    the file system: whether an exclude path covers it, the size of the
    file when it exists, [path.name.lower()] and [path.suffix.lower()]. *)
Record path_info : Type := {
  ignored : bool;
  size : option Z;
  name_lower : string;
  suffix_lower : string
}.

Definition count_kind (k : kind) (l : list event_data) : nat :=
  length (List.filter (fun e => kind_eqb (type e) k) l).

Definition jnat (n : nat) : json := JNum (Z.of_nat n).

Definition str_of_nat (n : nat) : string := str_of_Z (Z.of_nat n).

Definition dict_str (k : string) (d : dict) : string :=
  match dict_get k d with
  | Some (JStr s) => s
  | _ => ""
  end.

(** [_trigger_alert]: one security event and one audit row. *)
Definition _trigger_alert (db : Db) (alert_type : string) (det : dict)
    (now : Z) : Db :=
  let db1 := log_security_event db "ransomware_detection"
               (dict_str "severity" det) (dict_str "message" det)
               None None (Some det) now in
  log_audit db1 "ransomware_alert_triggered" (Some alert_type) (Some det)
    None now.

(** The events of the last minute. *)
Definition last_minute (d : RansomwareDetector) (now : Z) : list event_data :=
  List.filter (fun e => now - 60 <? ev_timestamp e) (recent_events d).

Definition _check_ransomware_patterns (d : RansomwareDetector) (db : Db)
    (now : Z) : Db :=
  let recent := last_minute d now in
  match recent with
  | [] => db
  | _ :: _ =>
      let created_count := count_kind created recent in
      let modified_count := count_kind modified recent in
      let moved_count := count_kind moved recent in
      let deleted_count := count_kind deleted recent in
      let total_operations :=
        (created_count + modified_count + moved_count + deleted_count)%nat in
      let db1 :=
        if (mass_write_threshold <? total_operations)%nat then
          _trigger_alert db "mass_file_operations"
            [("severity", JStr "high");
             ("message", JStr ("Mass file operations detected: "
                               +:+ str_of_nat total_operations
                               +:+ " operations in 1 minute"));
             ("created", jnat created_count);
             ("modified", jnat modified_count);
             ("moved", jnat moved_count);
             ("deleted", jnat deleted_count);
             ("threshold", jnat mass_write_threshold)] now
        else db in
      let db2 :=
        if (mass_rename_threshold <? moved_count)%nat then
          _trigger_alert db1 "mass_renames"
            [("severity", JStr "high");
             ("message", JStr ("Mass file renames detected: "
                               +:+ str_of_nat moved_count
                               +:+ " renames in 1 minute"));
             ("count", jnat moved_count);
             ("threshold", jnat mass_rename_threshold)] now
        else db1 in
      let suspicious_count :=
        length (List.filter is_suspicious_extension recent) in
      let db3 :=
        if (suspicious_extension_threshold <? suspicious_count)%nat then
          _trigger_alert db2 "suspicious_extensions"
            [("severity", JStr "medium");
             ("message", JStr ("Many suspicious file extensions detected: "
                               +:+ str_of_nat suspicious_count
                               +:+ " files in 1 minute"));
             ("count", jnat suspicious_count);
             ("threshold", jnat suspicious_extension_threshold)] now
        else db2 in
      let encryption_count :=
        length (List.filter is_encryption_pattern recent) in
      let db4 :=
        if (5 <? encryption_count)%nat then
          _trigger_alert db3 "encryption_patterns"
            [("severity", JStr "critical");
             ("message", JStr ("Encryption patterns detected: "
                               +:+ str_of_nat encryption_count
                               +:+ " files with encryption-like names"));
             ("count", jnat encryption_count);
             ("files", JArr (map (fun e => JStr (src_path e))
                                 (List.filter is_encryption_pattern recent)))]
            now
        else db3 in
      let modified_files :=
        List.filter (fun e => kind_eqb (type e) modified) recent in
      if (20 <? length modified_files)%nat then
        _trigger_alert db4 "rapid_modifications"
          [("severity", JStr "high");
           ("message", JStr ("Rapid file modifications detected: "
                             +:+ str_of_nat (length modified_files)
                             +:+ " files modified in 1 minute"));
           ("count", jnat (length modified_files));
           ("files", JArr (map (fun e => JStr (src_path e))
                               (firstn 10 modified_files)))] now
      else db4
  end.

(** [_process_file_event]: [now] is the clock read when the event is
    stamped, [now'] the one read by the check that follows. *)
Definition _process_file_event (d : RansomwareDetector) (db : Db)
    (event_type : kind) (src : string) (dest : option string)
    (info : path_info) (now now' : Z) : RansomwareDetector * Db :=
  if ignored info then (d, db)
  else if match size info with
          | Some sz => max_file_size d <? sz
          | None => false
          end then (d, db)
  else
    let event :=
      {| type := event_type;
         src_path := src;
         dest_path := if truthy_opt_str dest then dest else None;
         ev_timestamp := now;
         extension := suffix_lower info;
         is_suspicious_extension :=
           str_in (suffix_lower info) (suspicious_extensions d);
         is_encryption_pattern :=
           existsb (fun pattern => contains pattern (name_lower info))
                   encryption_patterns |} in
    let d' :=
      {| suspicious_extensions := suspicious_extensions d;
         max_file_size := max_file_size d;
         recent_events :=
           List.filter (fun e => now - ev_timestamp e <? 300)
                       (recent_events d ++ [event]) |} in
    (d', _check_ransomware_patterns d' db now').

(** *** The detectors as the specification lists them

    Each entry is the detector that fires and the details it reports; the
    condition and severity of each row come from the table of the
    specification, the file lists from the code: every matching name for
    [encryption_patterns], the first ten for [rapid_modifications]. *)
Definition detections (recent : list event_data) : list (string * dict) :=
  let total := length recent in
  let moves := count_kind moved recent in
  let suspicious := List.filter is_suspicious_extension recent in
  let encrypted := List.filter is_encryption_pattern recent in
  let modifications := List.filter (fun e => kind_eqb (type e) modified) recent in
  (if (50 <? total)%nat then
     [("mass_file_operations"%string,
       [("severity", JStr "high");
        ("message", JStr ("Mass file operations detected: " +:+ str_of_nat total
                          +:+ " operations in 1 minute"));
        ("created", jnat (count_kind created recent));
        ("modified", jnat (count_kind modified recent));
        ("moved", jnat moves);
        ("deleted", jnat (count_kind deleted recent));
        ("threshold", jnat 50)])]
   else [])
  ++ (if (30 <? moves)%nat then
        [("mass_renames"%string,
          [("severity", JStr "high");
           ("message", JStr ("Mass file renames detected: " +:+ str_of_nat moves
                             +:+ " renames in 1 minute"));
           ("count", jnat moves);
           ("threshold", jnat 30)])]
      else [])
  ++ (if (10 <? length suspicious)%nat then
        [("suspicious_extensions"%string,
          [("severity", JStr "medium");
           ("message", JStr ("Many suspicious file extensions detected: "
                             +:+ str_of_nat (length suspicious)
                             +:+ " files in 1 minute"));
           ("count", jnat (length suspicious));
           ("threshold", jnat 10)])]
      else [])
  ++ (if (5 <? length encrypted)%nat then
        [("encryption_patterns"%string,
          [("severity", JStr "critical");
           ("message", JStr ("Encryption patterns detected: "
                             +:+ str_of_nat (length encrypted)
                             +:+ " files with encryption-like names"));
           ("count", jnat (length encrypted));
           ("files", JArr (map (fun e => JStr (src_path e)) encrypted))])]
      else [])
  ++ (if (20 <? length modifications)%nat then
        [("rapid_modifications"%string,
          [("severity", JStr "high");
           ("message", JStr ("Rapid file modifications detected: "
                             +:+ str_of_nat (length modifications)
                             +:+ " files modified in 1 minute"));
           ("count", jnat (length modifications));
           ("files", JArr (map (fun e => JStr (src_path e))
                               (firstn 10 modifications)))])]
      else []).

(** Severity of each detector in the table of the specification. *)
Definition severity_of (detector : string) : string :=
  if String.eqb detector "suspicious_extensions" then "medium"
  else if String.eqb detector "encryption_patterns" then "critical"
  else "high".

(** Logging a list of detections, one [_trigger_alert] each. *)
Definition trigger_all (db : Db) (alerts : list (string * dict)) (now : Z) : Db :=
  fold_left (fun acc a => _trigger_alert acc (fst a) (snd a) now) alerts db.

(** What a security event shows apart from its row id. *)
Definition event_view (e : SecurityEvent)
    : string * string * option dict * bool :=
  (event_type e, severity e, details e, resolved e).

(** The length of the [files] list in the details of an event. *)
Definition files_listed (e : SecurityEvent) : option nat :=
  match details e ≫= dict_get "files" with
  | Some (JArr l) => Some (length l)
  | _ => None
  end.

(** The reading of C5 under which both file lists are cut: no event a scan
    writes on an empty store lists more than ten files. *)
Definition file_lists_truncated : Prop :=
  forall (d : RansomwareDetector) (now : Z) (e : SecurityEvent) (n : nat),
    In e (security_events (_check_ransomware_patterns d initialize now)) ->
    files_listed e = Some n ->
    (n <= 10)%nat.

(** A detector with the default settings and an empty ring, and the ring
    after eleven files named [f<i>.locked] were created one second
    apart. *)
Definition empty_detector : RansomwareDetector := {|
  suspicious_extensions := default_suspicious_extensions;
  max_file_size := 104857600;
  recent_events := []
|}.

Definition locked_file (i : nat) : string := "f" +:+ str_of_nat i +:+ ".locked".

Definition create_locked (s : RansomwareDetector * Db) (i : nat)
    : RansomwareDetector * Db :=
  _process_file_event (fst s) (snd s) created
    ("/home/user/" +:+ locked_file i) None
    {| ignored := false;
       size := Some 4096;
       name_lower := locked_file i;
       suffix_lower := ".locked" |}
    (1000 + Z.of_nat i) (1000 + Z.of_nat i).

Definition eleven_locked_files : RansomwareDetector * Db :=
  fold_left create_locked (seq 0 11) (empty_detector, initialize).

End FileWatcher.

(** ** services/file_watcher.py: the process monitor *)

Module ProcessWatcher.
Import Database.

(** [x > y] on the numbers psutil reports. *)
Definition gtb (x y : Q) : bool := negb (Qle_bool x y).

(** One entry of [psutil.process_iter]; a field that could not be read
    is [None]. *)
Record proc_info : Type := {
  pid : Z;
  name : option string;
  exe : option string;
  cmdline : option (list string);
  cpu_percent : option Q;
  memory_percent : option Q
}.

Definition with_exe (p : proc_info) (e : option string) : proc_info := {|
  pid := pid p;
  name := name p;
  exe := e;
  cmdline := cmdline p;
  cpu_percent := cpu_percent p;
  memory_percent := memory_percent p
|}.

Definition with_memory_percent (p : proc_info) (m : option Q) : proc_info := {|
  pid := pid p;
  name := name p;
  exe := exe p;
  cmdline := cmdline p;
  cpu_percent := cpu_percent p;
  memory_percent := m
|}.

Definition safe_processes : list string :=
  ["system idle process"; "system"; "csrss"; "winlogon"; "wininit";
   "services"; "lsass"; "svchost"; "explorer"; "dwm"; "conhost";
   "slack"; "slack.exe"; "msedge"; "msedgewebview2"; "msedgewebview2.exe";
   "chrome"; "firefox"; "notepad"; "calc"; "lockapp"; "lockapp.exe";
   "searchapp"; "shellexperiencehost"; "runtimebroker"; "dllhost"; "wmiprvse";
   "taskhostw"; "audiodg"; "spoolsv"; "winlogon.exe"; "csrss.exe";
   "services.exe"; "lsass.exe"; "svchost.exe"; "explorer.exe";
   "dwm.exe"; "conhost.exe"; "searchapp.exe"; "shellexperiencehost.exe";
   "runtimebroker.exe"; "dllhost.exe"; "wmiprvse.exe"; "taskhostw.exe";
   "audiodg.exe"; "spoolsv.exe"].

Definition suspicious_names : list string :=
  ["crypt"; "encrypt"; "lock"; "ransom"; "malware"; "virus";
   "backdoor"; "trojan"; "worm"; "keylogger"; "rootkit"].

Definition json_of_opt_str (s : option string) : json :=
  match s with
  | Some s => JStr s
  | None => JNull
  end.

(** [str.lower], [str.strip], [f"{x:.1f}"] and the JSON form of a float
    are taken as given. *)
Section Strings.
Variable lower : string -> string.
Variable strip : string -> string.
Variable format_1f : Q -> string.
Variable json_of_float : Q -> json.

(** [' '.join(proc_info['cmdline']) if proc_info['cmdline'] else ''] *)
Definition joined_cmdline (p : proc_info) : string :=
  match cmdline p with
  | Some (a :: l) => String.concat " " (a :: l)
  | _ => ""
  end.

(** [None] when [proc_info['name']] is [None], on which [.lower()]
    raises. *)
Definition _is_suspicious_process (p : proc_info) : option bool :=
  match name p with
  | None => None
  | Some n =>
      let nm := strip (lower n) in
      let cmd := joined_cmdline p in
      Some
        (if negb (truthy_str nm) || String.eqb nm "" then false
         else if str_in nm safe_processes then false
         else if contains "system idle process" nm || contains "idle" nm
         then false
         else if existsb (fun suspicious => contains suspicious nm)
                         suspicious_names then true
         else if existsb (fun suspicious => contains suspicious (lower cmd))
                         suspicious_names then true
         else if negb (truthy_opt_str (exe p)) && truthy_str nm
                 && (3 <? String.length nm)%nat
         then existsb (fun suspicious => contains suspicious nm)
                      suspicious_names
         else false)
  end.

Definition _handle_suspicious_process (db : Db) (p : proc_info) (n : string)
    (now : Z) : Db :=
  log_security_event db "suspicious_process" "high"
    ("Suspicious process detected: " +:+ n) None (Some n)
    (Some [("pid", JNum (pid p));
           ("exe", json_of_opt_str (exe p));
           ("cmdline", match cmdline p with
                       | Some l => JArr (map JStr l)
                       | None => JNull
                       end)])
    now.

(** Called with a readable name and a readable CPU figure [cpu]. *)
Definition _handle_high_resource_process (db : Db) (p : proc_info) (n : string)
    (cpu : Q) (now : Z) : Db :=
  if contains "system idle process" (lower n) || contains "idle" (lower n)
  then db
  else if gtb cpu (80 # 1) then
    log_security_event db "high_resource_usage" "medium"
      ("High CPU usage: " +:+ n +:+ " (" +:+ format_1f cpu +:+ "%)")
      None (Some n)
      (Some [("pid", JNum (pid p));
             ("cpu_percent", json_of_float cpu);
             ("memory_percent", match memory_percent p with
                                | Some m => json_of_float m
                                | None => JNull
                                end)])
      now
  else db.

(** The body of the [for proc in ...] loop for one process: the store
    after it, and whether the loop goes on. It does not when the body
    raises something else than the three psutil errors the loop
    catches: an unreadable name ([None.lower()]) or an unreadable
    figure ([None > 80]). *)
Definition check_process (db : Db) (p : proc_info) (now : Z) : Db * bool :=
  match name p, _is_suspicious_process p with
  | Some n, Some suspicious =>
      let db1 :=
        if suspicious then _handle_suspicious_process db p n now else db in
      match cpu_percent p with
      | None => (db1, false)
      | Some cpu =>
          if gtb cpu (80 # 1) then
            (_handle_high_resource_process db1 p n cpu now, true)
          else
            match memory_percent p with
            | None => (db1, false)
            | Some mem =>
                if gtb mem (80 # 1) then
                  (_handle_high_resource_process db1 p n cpu now, true)
                else (db1, true)
            end
      end
  | _, _ => (db, false)
  end.

(** [_check_processes] on the processes psutil lists; the set of known
    process names only feeds a debug message and is left out. *)
Fixpoint _check_processes (procs : list proc_info) (db : Db) (now : Z) : Db :=
  match procs with
  | [] => db
  | p :: rest =>
      let (db1, go_on) := check_process db p now in
      if go_on then _check_processes rest db1 now else db1
  end.

End Strings.

(** Stand-ins for names that are already in lower case, and three
    processes. *)
Definition as_is (s : string) : string := s.

Definition no_format (x : Q) : string := "".

Definition no_float (x : Q) : json := JNull.

Definition idle_locker : proc_info := {|
  pid := 4242;
  name := Some "idle_cryptolocker.exe";
  exe := None;
  cmdline := Some ["idle_cryptolocker.exe"; "--encrypt"; "C:/Users"];
  cpu_percent := Some (97 # 1);
  memory_percent := Some (12 # 1)
|}.

Definition memory_hog : proc_info := {|
  pid := 77;
  name := Some "indexer";
  exe := Some "C:/Program Files/indexer.exe";
  cmdline := None;
  cpu_percent := Some (3 # 1);
  memory_percent := Some (95 # 1)
|}.

Definition unreadable : proc_info := {|
  pid := 4;
  name := None;
  exe := None;
  cmdline := None;
  cpu_percent := None;
  memory_percent := None
|}.

End ProcessWatcher.

(** ** services/telemetry.py: the threshold checks *)

Module Telemetry.
Import Database.

(** [x > y] on floats. *)
Definition gtb (x y : Q) : bool := negb (Qle_bool x y).

(** What [_check_thresholds] reads of a sample: [data['cpu']['percent']],
    [data['memory']['percent']] and, for each mount point of
    [data['disk']], its ['percent']; [None] where the key is missing, as
    in the sample [_collect_system_data] returns after an error. *)
Record telemetry_data : Type := {
  cpu : option Q;
  memory : option Q;
  disk : list (string * option Q)
}.

Record Thresholds : Type := {
  cpu_threshold : Q;
  memory_threshold : Q;
  disk_threshold : Q
}.

(** [max(max_usage, partition_data['percent'])] over the partitions
    that carry the key, from [0.0]. *)
Definition _get_max_disk_usage (disk_data : list (string * option Q)) : Q :=
  fold_left (fun max_usage partition_data =>
               match snd partition_data with
               | Some percent =>
                   if gtb percent max_usage then percent else max_usage
               | None => max_usage
               end) disk_data (0 # 1).

(** [f"{x:.1f}"], [str(x)] and the JSON form of a float are taken as
    given. *)
Section Formats.
Variable format_1f : Q -> string.
Variable str_float : Q -> string.
Variable json_of_float : Q -> json.

Definition threshold_alert (ty sev label resource : string) (value th : Q)
    : dict :=
  [("type", JStr ty);
   ("severity", JStr sev);
   ("message", JStr (label +:+ format_1f value +:+ "% (threshold: "
                     +:+ str_float th +:+ "%)"));
   ("resource_type", JStr resource);
   ("current_value", json_of_float value);
   ("threshold", json_of_float th)].

Definition threshold_alerts (th : Thresholds) (data : telemetry_data)
    : list dict :=
  let cpu_percent := default (0 # 1) (cpu data) in
  let memory_percent := default (0 # 1) (memory data) in
  let max_disk_usage := _get_max_disk_usage (disk data) in
  (if gtb cpu_percent (cpu_threshold th) then
     [threshold_alert "high_cpu" "medium" "High CPU usage: " "CPU"
        cpu_percent (cpu_threshold th)]
   else [])
  ++ (if gtb memory_percent (memory_threshold th) then
        [threshold_alert "high_memory" "medium" "High memory usage: " "Memory"
           memory_percent (memory_threshold th)]
      else [])
  ++ (if gtb max_disk_usage (disk_threshold th) then
        [threshold_alert "high_disk" "high" "High disk usage: " "Disk"
           max_disk_usage (disk_threshold th)]
      else []).

Definition alert_str (k : string) (alert : dict) : string :=
  match dict_get k alert with
  | Some (JStr s) => s
  | _ => ""
  end.

Definition _check_thresholds (th : Thresholds) (db : Db) (data : telemetry_data)
    (now : Z) : Db :=
  fold_left (fun acc alert =>
               log_security_event acc "threshold_violation"
                 (alert_str "severity" alert) (alert_str "message" alert)
                 None None (Some alert) now)
            (threshold_alerts th data) db.

End Formats.

(** *** Notions used to state the property of the checks *)

(** Some partition reports a usage above [th]. *)
Definition partition_above (th : Q) (disk_data : list (string * option Q)) : bool :=
  existsb (fun partition_data =>
             match snd partition_data with
             | Some percent => gtb percent th
             | None => false
             end) disk_data.

(** The alert type recorded in the details of a security event. *)
Definition violation_type (e : SecurityEvent) : string :=
  match details e with
  | Some d => alert_str "type" d
  | None => ""
  end.

Definition default_thresholds : Thresholds := {|
  cpu_threshold := 80 # 1;
  memory_threshold := 85 # 1;
  disk_threshold := 90 # 1
|}.

(** A sample with the CPU exactly at its threshold and one of two
    partitions above the disk threshold. *)
Definition busy_sample : telemetry_data := {|
  cpu := Some (80 # 1);
  memory := Some (40 # 1);
  disk := [("C:\", Some (55 # 1)); ("D:\", Some (905 # 10))]
|}.

End Telemetry.

(** * Properties *)

(** ** Sorting *)

Section SortBy.
Context {A : Type} (le : A -> A -> bool).

Lemma insert_by_perm (x : A) (l : list A) :
  Permutation (insert_by le x l) (x :: l).
Proof.
  induction l as [|y t IH]; simpl.
  - reflexivity.
  - destruct (le x y).
    + reflexivity.
    + rewrite IH. apply perm_swap.
Qed.

Lemma sort_by_perm (l : list A) : Permutation (sort_by le l) l.
Proof.
  induction l as [|x t IH]; simpl.
  - constructor.
  - rewrite insert_by_perm. now constructor.
Qed.

Lemma sort_by_length (l : list A) : length (sort_by le l) = length l.
Proof. apply Permutation_length, sort_by_perm. Qed.

Lemma sort_by_In (x : A) (l : list A) : In x (sort_by le l) <-> In x l.
Proof.
  split; apply Permutation_in; [|symmetry]; apply sort_by_perm.
Qed.

Hypothesis le_total : forall a b, le a b = true \/ le b a = true.
Hypothesis le_trans :
  forall a b c, le a b = true -> le b c = true -> le a c = true.

Lemma insert_by_sorted (x : A) (l : list A) :
  StronglySorted (fun a b => le a b = true) l ->
  StronglySorted (fun a b => le a b = true) (insert_by le x l).
Proof.
  induction 1 as [|y t Hs IH Hall]; simpl.
  - repeat constructor.
  - destruct (le x y) eqn:E.
    + constructor; [now constructor|].
      constructor; [exact E|].
      eapply List.Forall_impl; [|exact Hall].
      intros z Hz. now apply le_trans with y.
    + constructor; [exact IH|].
      rewrite List.Forall_forall. intros z Hz.
      apply (Permutation_in _ (insert_by_perm x t)) in Hz.
      destruct Hz as [<-|Hz].
      * destruct (le_total x y) as [H|H]; congruence.
      * rewrite List.Forall_forall in Hall. now apply Hall.
Qed.

Lemma sort_by_sorted (l : list A) :
  StronglySorted (fun a b => le a b = true) (sort_by le l).
Proof.
  induction l as [|x t IH]; simpl.
  - constructor.
  - now apply insert_by_sorted.
Qed.
End SortBy.

Lemma firstn_In {A : Type} (n : nat) (l : list A) (x : A) :
  In x (firstn n l) -> In x l.
Proof.
  revert l. induction n as [|n IH]; intros [|y t]; simpl; try tauto.
  intros [H|H]; [now left|right; now apply IH].
Qed.

Lemma StronglySorted_firstn {A : Type} (R : A -> A -> Prop) (n : nat) (l : list A) :
  StronglySorted R l -> StronglySorted R (firstn n l).
Proof.
  intros H. revert n.
  induction H as [|x t Hs IH Hall]; intros [|n]; simpl; try constructor.
  - apply IH.
  - rewrite List.Forall_forall in *. intros y Hy. apply Hall.
    eapply firstn_In; eauto.
Qed.

Lemma StronglySorted_impl {A : Type} (R S : A -> A -> Prop) (l : list A) :
  (forall a b, R a b -> S a b) -> StronglySorted R l -> StronglySorted S l.
Proof.
  intros HRS. induction 1 as [|x t Hs IH Hall]; constructor.
  - exact IH.
  - revert Hall. apply List.Forall_impl. intros b. apply HRS.
Qed.

(** ** The queue of the local store *)

Section QueueProperties.
Import Database.

Lemma queue_order_precedes (a b : QueueItem) :
  queue_order a b = true <-> precedes a b.
Proof.
  unfold queue_order, precedes.
  rewrite orb_true_iff, andb_true_iff, Z.ltb_lt, Z.eqb_eq, Z.leb_le.
  reflexivity.
Qed.

Lemma queue_order_total (a b : QueueItem) :
  queue_order a b = true \/ queue_order b a = true.
Proof. rewrite !queue_order_precedes. unfold precedes. lia. Qed.

Lemma queue_order_trans (a b c : QueueItem) :
  queue_order a b = true -> queue_order b c = true -> queue_order a c = true.
Proof. rewrite !queue_order_precedes. unfold precedes. lia. Qed.

Lemma sql_limit_length {A : Type} (n : Z) (l : list A) :
  0 <= n -> length (sql_limit n l) = Nat.min (Z.to_nat n) (length l).
Proof.
  intros Hn. unfold sql_limit.
  destruct (n <? 0) eqn:E; [apply Z.ltb_lt in E; lia|].
  apply length_firstn.
Qed.

Lemma sql_limit_In {A : Type} (n : Z) (l : list A) (x : A) :
  In x (sql_limit n l) -> In x l.
Proof.
  unfold sql_limit. destruct (n <? 0); [easy|]. apply firstn_In.
Qed.

Lemma sql_limit_sorted {A : Type} (R : A -> A -> Prop) (n : Z) (l : list A) :
  StronglySorted R l -> StronglySorted R (sql_limit n l).
Proof.
  unfold sql_limit. destruct (n <? 0); [easy|]. apply StronglySorted_firstn.
Qed.

Lemma get_queue_items_eq (db : Db) (qt : option string) (st : string) (limit : Z) :
  get_queue_items db qt st limit
  = sql_limit limit
      (sort_by queue_order (List.filter (where_clause qt st) (offline_queue db))).
Proof.
  unfold get_queue_items, where_clause.
  destruct (truthy_opt_str qt); reflexivity.
Qed.

Lemma where_clause_selected (qt : option string) (st : string) (r : QueueItem) :
  where_clause qt st r = true -> selected qt st r.
Proof.
  unfold where_clause, selected, truthy_opt_str, truthy_str.
  destruct qt as [t|]; simpl.
  - destruct (String.eqb t "") eqn:E; simpl.
    + apply String.eqb_eq in E. rewrite String.eqb_eq.
      intros ->. split; [reflexivity|]. intros t' [= <-]. congruence.
    + rewrite andb_true_iff, !String.eqb_eq. intros [H1 H2].
      split; [exact H2|]. now intros t' [= <-].
  - rewrite String.eqb_eq. intros ->. split; [reflexivity|]. discriminate.
Qed.

(** C6. Claiming pending items with a non-negative [limit] returns at most
    [limit] rows of the queue (as many as there are, up to [limit]), each
    pending and of the requested type when one is given, in the order
    priority descending, then created_at ascending. *)
Theorem claim_pending_ordered (db : Db) (qt : option string) (limit : Z) :
  0 <= limit ->
  let items := get_queue_items db qt "pending" limit in
  Z.of_nat (length items) <= limit
  /\ length items
     = Nat.min (Z.to_nat limit)
         (length (List.filter (where_clause qt "pending") (offline_queue db)))
  /\ Forall (fun r => In r (offline_queue db) /\ selected qt "pending" r) items
  /\ StronglySorted precedes items.
Proof.
  intros Hlimit items. subst items. rewrite get_queue_items_eq.
  assert (Hlen : length (sql_limit limit
             (sort_by queue_order
                (List.filter (where_clause qt "pending") (offline_queue db))))
           = Nat.min (Z.to_nat limit)
               (length (List.filter (where_clause qt "pending") (offline_queue db)))).
  { rewrite sql_limit_length by assumption. now rewrite sort_by_length. }
  split; [rewrite Hlen; lia|].
  split; [exact Hlen|].
  split.
  - rewrite List.Forall_forall. intros r Hr.
    apply sql_limit_In, sort_by_In, filter_In in Hr.
    destruct Hr as [Hin Hw]. split; [exact Hin|].
    now apply where_clause_selected.
  - apply sql_limit_sorted.
    apply StronglySorted_impl with (R := fun a b => queue_order a b = true).
    + intros a b. apply queue_order_precedes.
    + apply sort_by_sorted.
      * apply queue_order_total.
      * apply queue_order_trans.
Qed.

Lemma claim_pending_ordered_witness :
  let items := get_queue_items sample_db None "pending" 1 in
  Z.of_nat (length items) <= 1
  /\ length items
     = Nat.min (Z.to_nat 1)
         (length (List.filter (where_clause None "pending") (offline_queue sample_db)))
  /\ Forall (fun r => In r (offline_queue sample_db) /\ selected None "pending" r) items
  /\ StronglySorted precedes items.
Proof. apply (claim_pending_ordered sample_db None 1). lia. Defined.

Lemma nth_error_update_where (item_id : Z) (f : QueueItem -> QueueItem)
    (q : list QueueItem) (i : nat) :
  nth_error (update_where item_id f q) i
  = option_map (fun r => if q_id r =? item_id then f r else r) (nth_error q i).
Proof. unfold update_where. apply nth_error_map. Qed.

(** C9. One call of [update_queue_item] adds exactly one to the
    [retry_count] of the row it addresses and stores the status it was
    given, whatever that status is: marking a row completed counts as much
    as marking it failed. *)
Theorem update_queue_item_increments_retry_count (db : Db) (item_id : Z)
    (st : string) (result : option dict) (i : nat) (r : QueueItem) :
  nth_error (offline_queue db) i = Some r ->
  q_id r = item_id ->
  exists r',
    nth_error (offline_queue (update_queue_item db item_id st result)) i = Some r'
    /\ retry_count r' = retry_count r + 1
    /\ status r' = st.
Proof.
  intros Hi Hid. unfold update_queue_item. simpl.
  assert (H1 : nth_error (update_where item_id (set_status_retry st) (offline_queue db)) i
               = Some (set_status_retry st r)).
  { rewrite nth_error_update_where, Hi. simpl.
    now rewrite Hid, Z.eqb_refl. }
  destruct (truthy_dict result).
  - destruct (List.find _ _) as [r0|].
    + eexists. split.
      * rewrite nth_error_update_where, H1. simpl.
        rewrite Hid, Z.eqb_refl. reflexivity.
      * split; reflexivity.
    + eexists. split; [exact H1|]. split; reflexivity.
  - eexists. split; [exact H1|]. split; reflexivity.
Qed.

Lemma update_queue_item_increments_retry_count_witness :
  exists r',
    nth_error (offline_queue (update_queue_item sample_db 3 "completed" None)) 2 = Some r'
    /\ retry_count r' = retry_count (sample_row 3 "command_result" 0 110 0 "pending") + 1
    /\ status r' = "completed"%string.
Proof.
  apply (update_queue_item_increments_retry_count sample_db 3 "completed" None 2
           (sample_row 3 "command_result" 0 110 0 "pending")); reflexivity.
Defined.

Section RetrySweep.
Import OfflineQueue.

(** C7. One sweep of [retry_failed_items] turns every failed row whose
    [retry_count] is below its [max_retries] into a pending row with
    [retry_count] 0 and leaves every other row, and every other column, as
    it was. *)
Theorem retry_failed_items_sweep (db : Db) (i : nat) (r : QueueItem) :
  nth_error (offline_queue db) i = Some r ->
  length (offline_queue (retry_failed_items db)) = length (offline_queue db)
  /\ exists r',
      nth_error (offline_queue (retry_failed_items db)) i = Some r'
      /\ (status r = "failed"%string /\ retry_count r < max_retries r ->
          status r' = "pending"%string /\ retry_count r' = 0
          /\ q_id r' = q_id r /\ queue_type r' = queue_type r
          /\ payload r' = payload r /\ priority r' = priority r
          /\ created_at r' = created_at r /\ max_retries r' = max_retries r)
      /\ (~ (status r = "failed"%string /\ retry_count r < max_retries r) -> r' = r).
Proof.
  intros Hi. unfold retry_failed_items. simpl. split.
  - apply length_map.
  - rewrite nth_error_map, Hi. simpl. eexists. split; [reflexivity|].
    unfold retry_eligible.
    destruct (String.eqb (status r) "failed") eqn:Es;
      destruct (retry_count r <? max_retries r) eqn:Er; simpl.
    + split; [intros _; repeat split|].
      intros Hn. exfalso. apply Hn.
      apply String.eqb_eq in Es. apply Z.ltb_lt in Er. now split.
    + apply Z.ltb_ge in Er. split; [lia|reflexivity].
    + apply String.eqb_neq in Es. split; [tauto|reflexivity].
    + apply String.eqb_neq in Es. split; [tauto|reflexivity].
Qed.

Lemma retry_failed_items_sweep_witness :
  length (offline_queue (retry_failed_items sample_db)) = length (offline_queue sample_db)
  /\ exists r',
      nth_error (offline_queue (retry_failed_items sample_db)) 1 = Some r'
      /\ (status (sample_row 2 "command_result" 3 105 1 "failed") = "failed"%string
          /\ retry_count (sample_row 2 "command_result" 3 105 1 "failed")
             < max_retries (sample_row 2 "command_result" 3 105 1 "failed") ->
          status r' = "pending"%string /\ retry_count r' = 0
          /\ q_id r' = 2 /\ queue_type r' = "command_result"%string
          /\ payload r' = payload (sample_row 2 "command_result" 3 105 1 "failed")
          /\ priority r' = 3 /\ created_at r' = 105 /\ max_retries r' = 3)
      /\ (~ (status (sample_row 2 "command_result" 3 105 1 "failed") = "failed"%string
             /\ retry_count (sample_row 2 "command_result" 3 105 1 "failed")
                < max_retries (sample_row 2 "command_result" 3 105 1 "failed")) ->
          r' = sample_row 2 "command_result" 3 105 1 "failed").
Proof.
  apply (retry_failed_items_sweep sample_db 1
           (sample_row 2 "command_result" 3 105 1 "failed")).
  reflexivity.
Defined.

End RetrySweep.

End QueueProperties.

(** ** The command loop *)

Section CommandLoop.
Import Database CommandProcessor.

Lemma send_command_result_rows (cfg : Config) (db : Db) (cid result : json)
    (post : http_outcome) (now : Z) :
  _send_command_result cfg db cid result post now
  = if post_failed cfg post
    then fst (add_to_queue db "command_result" (result_payload cid result)
                default_priority now)
    else db.
Proof.
  unfold _send_command_result, post_failed.
  destruct (unconfigured cfg); simpl; [reflexivity|].
  destruct post as [code|]; [|reflexivity].
  now destruct (code =? 200).
Qed.

(** C8, as the code has it. When the result POST fails, the command loop
    appends one pending [command_result] row holding the command id and the
    result, with the default priority 0 of [add_to_queue], not priority
    3. *)
Theorem send_command_result_failure_enqueues_priority_0 (cfg : Config) (db : Db)
    (cid result : json) (post : http_outcome) (now : Z) :
  post_failed cfg post = true ->
  exists item,
    offline_queue (_send_command_result cfg db cid result post now)
    = offline_queue db ++ [item]
    /\ queue_type item = "command_result"%string
    /\ status item = "pending"%string
    /\ dict_get "command_id" (payload item) = Some cid
    /\ dict_get "result" (payload item) = Some result
    /\ priority item = 0
    /\ priority item <> 3.
Proof.
  intros Hf. rewrite send_command_result_rows, Hf. simpl.
  eexists. split; [reflexivity|]. simpl. repeat split. discriminate.
Qed.

Lemma send_command_result_failure_enqueues_priority_0_witness :
  exists item,
    offline_queue (_send_command_result
                     {| base_url := Some "https://saas.example"%string;
                        api_key := Some "k"%string |}
                     initialize (JStr "c1") (JObj [("success", JBool true)])
                     (Response 503) 1000)
    = offline_queue initialize ++ [item]
    /\ queue_type item = "command_result"%string
    /\ status item = "pending"%string
    /\ dict_get "command_id" (payload item) = Some (JStr "c1")
    /\ dict_get "result" (payload item) = Some (JObj [("success", JBool true)])
    /\ priority item = 0
    /\ priority item <> 3.
Proof.
  apply (send_command_result_failure_enqueues_priority_0
           {| base_url := Some "https://saas.example"%string;
              api_key := Some "k"%string |}
           initialize (JStr "c1") (JObj [("success", JBool true)])
           (Response 503) 1000).
  reflexivity.
Defined.

(** The sibling helper of the sync worker does use priority 3. *)
Lemma queue_command_result_priority (db : Db) (cid : string) (result : dict)
    (now : Z) :
  exists item,
    offline_queue (fst (OfflineQueue.queue_command_result db cid result now))
    = offline_queue db ++ [item]
    /\ priority item = 3.
Proof. eexists. split; reflexivity. Qed.

(** *** The drain of queued command results *)

Lemma NoDup_map_injective {A B : Type} (f : A -> B) (l : list A) (a b : A) :
  List.NoDup (map f l) -> In a l -> In b l -> f a = f b -> a = b.
Proof.
  induction l as [|x t IH]; simpl; [tauto|].
  rewrite List.NoDup_cons_iff. intros [Hx Ht] [Ha|Ha] [Hb|Hb] Hab.
  - congruence.
  - subst x. exfalso. apply Hx. rewrite Hab. now apply in_map.
  - subst x. exfalso. apply Hx. rewrite <- Hab. now apply in_map.
  - now apply IH.
Qed.

Lemma mark_q_id (item r : QueueItem) : q_id (mark item r) = q_id r.
Proof. unfold mark. now destruct (q_id r =? q_id item). Qed.

Lemma marks_q_id (items : list QueueItem) (r : QueueItem) :
  q_id (marks items r) = q_id r.
Proof.
  unfold marks. revert r.
  induction items as [|it rest IH]; intros r; simpl; [reflexivity|].
  now rewrite IH, mark_q_id.
Qed.

Lemma marks_other (items : list QueueItem) (r : QueueItem) :
  List.Forall (fun it => q_id it < q_id r) items -> marks items r = r.
Proof.
  unfold marks. induction 1 as [|it rest Hit _ IH]; simpl; [reflexivity|].
  unfold mark at 2.
  destruct (q_id r =? q_id it) eqn:E; [apply Z.eqb_eq in E; lia|exact IH].
Qed.

Lemma marks_status (items : list QueueItem) (r : QueueItem) (st : string) :
  (forall it, In it items -> q_id it = q_id r -> drain_status it = st) ->
  (exists it, In it items /\ q_id it = q_id r) ->
  status (marks items r) = st.
Proof.
  unfold marks. revert r.
  induction items as [|it rest IH]; intros r Hall [x [Hx Hid]]; simpl in *.
  - contradiction.
  - assert (Hkeep : forall r0 : QueueItem,
               q_id r0 = q_id r -> status r0 = st ->
               status (fold_left (fun acc item => mark item acc) rest r0) = st).
    { clear IH Hx Hid x. intros r0 Hr0 Hst. revert r0 Hr0 Hst.
      induction rest as [|y rest' IHr]; intros r0 Hr0 Hst; simpl; [exact Hst|].
      apply IHr.
      - intros it' Hin. apply Hall. destruct Hin; [now left|now right; right].
      - now rewrite mark_q_id.
      - unfold mark. destruct (q_id r0 =? q_id y) eqn:E; [|exact Hst].
        simpl. apply Hall; [now right; left|].
        apply Z.eqb_eq in E. congruence. }
    destruct (q_id r =? q_id it) eqn:E.
    + apply Hkeep.
      * apply mark_q_id.
      * unfold mark. rewrite E. simpl. apply Hall; [now left|].
        apply Z.eqb_eq in E. congruence.
    + destruct Hx as [->|Hx]; [apply Z.eqb_neq in E; congruence|].
      apply IH.
      * intros it' Hin Hq. apply Hall; [now right|].
        now rewrite mark_q_id in Hq.
      * exists x. split; [exact Hx|]. now rewrite mark_q_id.
Qed.

Lemma process_queue_item_rows (cfg : Config) (post : Z -> http_outcome) (now : Z)
    (db : Db) (item : QueueItem) :
  q_id item <= offline_queue_seq db ->
  offline_queue (process_queue_item cfg post now db item)
  = map (mark item) (offline_queue db)
    ++ (if requeued cfg post item
        then [requeued_row (offline_queue_seq db) now item] else [])
  /\ offline_queue_seq (process_queue_item cfg post now db item)
     = offline_queue_seq db + (if requeued cfg post item then 1 else 0).
Proof.
  intros Hle.
  unfold process_queue_item, requeued, requeued_row, mark, drain_status,
    has_result_payload.
  destruct (dict_get "command_id" (payload item)) as [cid|];
    [destruct (dict_get "result" (payload item)) as [res|]|].
  - rewrite send_command_result_rows.
    destruct (post_failed cfg (post (q_id item))); simpl.
    + unfold update_where. rewrite map_app. simpl.
      destruct (offline_queue_seq db + 1 =? q_id item) eqn:E;
        [apply Z.eqb_eq in E; lia|].
      split; reflexivity.
    + rewrite app_nil_r. split; [reflexivity|lia].
  - simpl. rewrite app_nil_r. split; [reflexivity|lia].
  - simpl. rewrite app_nil_r. split; [reflexivity|lia].
Qed.

Lemma drain_rows (cfg : Config) (post : Z -> http_outcome) (now : Z)
    (items : list QueueItem) :
  forall db : Db,
    List.Forall (fun it => q_id it <= offline_queue_seq db) items ->
    exists extra,
      offline_queue (fold_left (process_queue_item cfg post now) items db)
      = map (marks items) (offline_queue db) ++ extra
      /\ List.Forall (fun n => offline_queue_seq db < q_id n
                               /\ queue_type n = "command_result"%string
                               /\ status n = "pending"%string) extra
      /\ length extra = length (List.filter (requeued cfg post) items)
      /\ (forall it, In it items -> requeued cfg post it = true ->
          exists n, In n extra /\ payload n = payload (requeued_row 0 now it))
      /\ offline_queue_seq db
         <= offline_queue_seq (fold_left (process_queue_item cfg post now) items db).
Proof.
  induction items as [|it rest IH]; intros db Hids; simpl.
  - exists []. rewrite app_nil_r. unfold marks. simpl. rewrite map_id.
    split; [reflexivity|]. split; [constructor|]. split; [reflexivity|].
    split; [intros it []|lia].
  - apply List.Forall_cons_iff in Hids. destruct Hids as [Hit Hrest].
    destruct (process_queue_item_rows cfg post now db it Hit) as [Hrows Hseq].
    set (db1 := process_queue_item cfg post now db it) in *.
    assert (Hmono : offline_queue_seq db <= offline_queue_seq db1).
    { rewrite Hseq. destruct (requeued cfg post it); lia. }
    destruct (IH db1) as (extra' & Hq & Hex & Hlen & Hpay & Hle).
    { revert Hrest. apply List.Forall_impl. intros a Ha. lia. }
    set (new := if requeued cfg post it
                then [requeued_row (offline_queue_seq db) now it] else []) in *.
    assert (Hnew : map (marks rest) new = new).
    { subst new. destruct (requeued cfg post it); [|reflexivity]. simpl.
      f_equal. apply marks_other. simpl.
      revert Hrest. apply List.Forall_impl. intros a Ha. lia. }
    exists (new ++ extra'). split; [|split; [|split; [|split]]].
    + rewrite Hq, Hrows, map_app, Hnew, map_map, <- app_assoc. reflexivity.
    + apply List.Forall_app. split.
      * subst new. destruct (requeued cfg post it); constructor; [|constructor].
        simpl. repeat split. lia.
      * revert Hex. apply List.Forall_impl. intros n (H1 & H2 & H3).
        repeat split; try assumption. lia.
    + rewrite length_app, Hlen. subst new.
      destruct (requeued cfg post it); reflexivity.
    + intros x [<-|Hx] Hreq.
      * exists (requeued_row (offline_queue_seq db) now it). split.
        -- apply in_or_app. left. subst new. rewrite Hreq. now left.
        -- reflexivity.
      * destruct (Hpay x Hx Hreq) as (n & Hn & Hp).
        exists n. split; [apply in_or_app; now right|exact Hp].
    + lia.
Qed.

Lemma get_queue_items_In (db : Db) (qt : option string) (st : string)
    (limit : Z) (r : QueueItem) :
  In r (get_queue_items db qt st limit) -> In r (offline_queue db).
Proof.
  rewrite get_queue_items_eq. intros Hr.
  apply sql_limit_In, sort_by_In, filter_In in Hr. tauto.
Qed.

(** C10. In the drain of the command loop, a claimed item whose payload
    holds a command id and a result ends completed whether or not its POST
    succeeded, so it never becomes failed here; when the POST failed, a new
    pending [command_result] row with the same command id and result has
    been inserted, and the queue has grown by one row per failed POST. *)
Theorem process_offline_queue_completes_and_requeues (cfg : Config)
    (post : Z -> http_outcome) (now : Z) (db : Db) (item : QueueItem)
    (cid result : json) :
  queue_wf db ->
  In item (get_queue_items db (Some "command_result"%string) "pending" 10) ->
  dict_get "command_id" (payload item) = Some cid ->
  dict_get "result" (payload item) = Some result ->
  let db' := _process_offline_queue cfg post now db in
  (exists r', In r' (offline_queue db') /\ q_id r' = q_id item)
  /\ (forall r', In r' (offline_queue db') -> q_id r' = q_id item ->
      status r' = "completed"%string)
  /\ (post_failed cfg (post (q_id item)) = true ->
      exists n, In n (offline_queue db')
                /\ offline_queue_seq db < q_id n
                /\ queue_type n = "command_result"%string
                /\ status n = "pending"%string
                /\ payload n = [("command_id", cid); ("result", result)])
  /\ length (offline_queue db')
     = (length (offline_queue db)
        + length (List.filter (requeued cfg post)
                    (get_queue_items db (Some "command_result"%string) "pending" 10)))%nat.
Proof.
  intros [Hnodup Hseq] Hitem Hcid Hres db'. subst db'.
  unfold _process_offline_queue.
  set (items := get_queue_items db (Some "command_result"%string) "pending" 10) in *.
  assert (Hsub : forall it, In it items -> In it (offline_queue db)).
  { intros it. apply get_queue_items_In. }
  assert (Hwf : has_result_payload item = true).
  { unfold has_result_payload. now rewrite Hcid, Hres. }
  destruct (drain_rows cfg post now items db) as (extra & Hq & Hex & Hlen & Hpay & _).
  { rewrite List.Forall_forall in *. intros it Hit. apply Hseq, Hsub, Hit. }
  rewrite Hq. split; [|split; [|split]].
  - exists (marks items item). split; [|apply marks_q_id].
    apply in_or_app. left. apply in_map. now apply Hsub.
  - intros r' Hin Hid. apply in_app_or in Hin. destruct Hin as [Hin|Hin].
    + apply in_map_iff in Hin. destruct Hin as (r & <- & Hr).
      rewrite marks_q_id in Hid.
      assert (r = item) by (eapply NoDup_map_injective; eauto). subst r.
      apply marks_status.
      * intros it Hit Hq'.
        assert (it = item) by (eapply NoDup_map_injective; eauto). subst it.
        unfold drain_status. now rewrite Hwf.
      * exists item. split; [assumption|reflexivity].
    + rewrite List.Forall_forall in Hex, Hseq.
      destruct (Hex r' Hin) as (Hlt & _).
      specialize (Hseq item (Hsub item Hitem)). lia.
  - intros Hfail.
    destruct (Hpay item Hitem) as (n & Hn & Hp).
    { unfold requeued. now rewrite Hwf, Hfail. }
    rewrite List.Forall_forall in Hex. destruct (Hex n Hn) as (H1 & H2 & H3).
    exists n. split; [apply in_or_app; now right|].
    repeat split; try assumption.
    rewrite Hp. simpl. unfold result_payload. now rewrite Hcid, Hres.
  - rewrite length_app, length_map, Hlen. reflexivity.
Qed.

Lemma queue_wf_sample_db : queue_wf sample_db.
Proof.
  split.
  - simpl. repeat (constructor; [simpl; intuition discriminate|]). constructor.
  - simpl. repeat (constructor; [simpl; lia|]). constructor.
Defined.

Lemma process_offline_queue_completes_and_requeues_witness :
  let cfg := {| base_url := None; api_key := None |} in
  let post := fun _ : Z => RequestException in
  let item := sample_row 3 "command_result" 0 110 0 "pending" in
  let db' := _process_offline_queue cfg post 200 sample_db in
  (exists r', In r' (offline_queue db') /\ q_id r' = q_id item)
  /\ (forall r', In r' (offline_queue db') -> q_id r' = q_id item ->
      status r' = "completed"%string)
  /\ (post_failed cfg (post (q_id item)) = true ->
      exists n, In n (offline_queue db')
                /\ offline_queue_seq sample_db < q_id n
                /\ queue_type n = "command_result"%string
                /\ status n = "pending"%string
                /\ payload n = [("command_id", JStr "c1");
                                ("result", JObj [("success", JBool true)])])
  /\ length (offline_queue db')
     = (length (offline_queue sample_db)
        + length (List.filter (requeued cfg post)
                    (get_queue_items sample_db (Some "command_result"%string)
                       "pending" 10)))%nat.
Proof.
  apply (process_offline_queue_completes_and_requeues
           {| base_url := None; api_key := None |}
           (fun _ : Z => RequestException) 200 sample_db
           (sample_row 3 "command_result" 0 110 0 "pending")
           (JStr "c1") (JObj [("success", JBool true)])).
  - exact queue_wf_sample_db.
  - vm_compute. left. reflexivity.
  - reflexivity.
  - reflexivity.
Defined.

(** *** Duplicate deliveries of a command *)

Section Idempotence.
Variable World : Type.
Variable handler : string -> dict -> World -> handler_result * World.

Lemma command_history_send (cfg : Config) (db : Db) (cid result : json)
    (post : http_outcome) (now : Z) :
  command_history (_send_command_result cfg db cid result post now)
  = command_history db.
Proof.
  rewrite send_command_result_rows. now destruct (post_failed cfg post).
Qed.

Lemma command_ids_update (db : Db) (cid st : string) (result : dict) (now : Z) :
  map command_id (command_history (_update_command_status db cid st result now))
  = map command_id (command_history db).
Proof.
  unfold _update_command_status. simpl. rewrite map_map.
  apply map_ext. intros r. now destruct (String.eqb (command_id r) cid).
Qed.

Lemma command_ids_record (db : Db) (cid ctype : string) (params : dict)
    (st : string) (now : Z) :
  List.NoDup (map command_id (command_history db)) ->
  List.NoDup (map command_id
                (command_history (_record_command db cid ctype params st now))).
Proof.
  unfold _record_command. simpl. rewrite map_app. simpl.
  generalize (command_history db) as l.
  induction l as [|r t IH]; simpl; intros Hnd.
  - repeat constructor. intros [].
  - apply List.NoDup_cons_iff in Hnd. destruct Hnd as [Hr Ht].
    destruct (String.eqb (command_id r) cid) eqn:E; simpl; [now apply IH|].
    apply List.NoDup_cons_iff. split; [|now apply IH].
    intros Hin. apply in_app_or in Hin. destruct Hin as [Hin|[Hin|[]]].
    + apply Hr. apply in_map_iff in Hin. destruct Hin as (x & Hx & Hin).
      apply filter_In in Hin. apply in_map_iff. exists x. tauto.
    + apply String.eqb_neq in E. congruence.
Qed.

Lemma process_command_effect (cfg : Config) (st : State World) (c : Command)
    (post : http_outcome) (now : Z) :
  let st' := _process_command handler cfg st c post now in
  handler_calls st'
  = handler_calls st
    ++ (if runs_handler c then [(default "" (c_id c), default "" (c_type c))]
        else [])
  /\ (List.NoDup (map command_id (command_history (db st))) ->
      List.NoDup (map command_id (command_history (db st')))).
Proof.
  unfold _process_command, runs_handler, _execute_command.
  set (known := str_in (default "" (c_type c)) command_handlers).
  destruct (truthy_opt_str (c_id c)); cbn [negb orb andb];
    [|rewrite app_nil_r; split; [reflexivity|tauto]].
  destruct (truthy_opt_str (c_type c)); cbn [negb orb andb];
    [|rewrite app_nil_r; split; [reflexivity|tauto]].
  cbn [db world handler_calls].
  destruct known.
  - destruct (handler _ _ _) as [[result|msg] w]; cbn [db world handler_calls];
      (split; [reflexivity|]); intros Hnd;
      rewrite command_history_send, command_ids_update;
      now apply command_ids_record.
  - cbn [db world handler_calls]. rewrite app_nil_r. split; [reflexivity|].
    intros Hnd. rewrite command_history_send, command_ids_update.
    now apply command_ids_record.
Qed.

(** C1, as the code has it. However often a command id is delivered, the
    command history keeps at most one record of it (a later copy replaces
    the row), and the handler runs once for every delivered copy: the
    number of executions for an id grows by the number of well-formed
    copies with a known type, so a duplicate of a recorded command is
    executed again. *)
Theorem process_commands_runs_every_delivery (cfg : Config) (now : Z)
    (st : State World) (commands : list (Command * http_outcome)) (cid : string) :
  List.NoDup (map command_id (command_history (db st))) ->
  let st' := process_commands handler cfg now st commands in
  List.NoDup (map command_id (command_history (db st')))
  /\ executions cid st' = (executions cid st + deliveries cid commands)%nat.
Proof.
  unfold process_commands. revert st.
  induction commands as [|[c post] rest IH]; intros st Hnd; simpl.
  - split; [exact Hnd|]. unfold deliveries. simpl. lia.
  - destruct (process_command_effect cfg st c post now) as [Hcalls Hkeep].
    destruct (IH (_process_command handler cfg st c post now) (Hkeep Hnd))
      as [Hnd' Hex].
    split; [exact Hnd'|]. rewrite Hex.
    unfold executions, deliveries. rewrite Hcalls. simpl.
    rewrite List.filter_app, length_app.
    destruct (runs_handler c); simpl; [|lia].
    destruct (String.eqb (default "" (c_id c)) cid); simpl; lia.
Qed.

End Idempotence.

Lemma process_commands_runs_every_delivery_witness :
  let st' := process_commands trivial_handler online 1000 fresh_state
               [(get_status_c1, Response 200); (get_status_c1, Response 200)] in
  List.NoDup (map command_id (command_history (db st')))
  /\ executions "c1" st'
     = (executions "c1" fresh_state
        + deliveries "c1" [(get_status_c1, Response 200);
                           (get_status_c1, Response 200)])%nat.
Proof.
  apply (process_commands_runs_every_delivery unit trivial_handler online 1000
           fresh_state
           [(get_status_c1, Response 200); (get_status_c1, Response 200)] "c1").
  simpl. constructor.
Defined.

(** C1, as the specification states it, does not hold: the same [get_status] command served in two
    poll responses is executed twice. *)
Lemma duplicate_command_executes_twice :
  ~ (executions "c1"
       (process_commands trivial_handler online 1000 fresh_state
          [(get_status_c1, Response 200); (get_status_c1, Response 200)])
     <= 1)%nat.
Proof. vm_compute. lia. Qed.

End CommandLoop.

(** ** The alert dispatcher *)

Section Alerts.
Import Database AlertManager.

Lemma emissions_record_alert (db : Db) (et message sev : string) (now : Z) :
  emissions (_record_alert db et message sev now)
  = emissions db ++ [(alert_key et sev, now)].
Proof.
  unfold emissions, _record_alert. simpl.
  rewrite omap_app. reflexivity.
Qed.

Lemma emissions_mark_resolved (db : Db) (event_id : Z) :
  emissions (_mark_event_resolved db event_id) = emissions db.
Proof. reflexivity. Qed.

(** The command path emits for every alerting command, whatever
    [last_alerts] holds, and leaves that map as it was. *)
Lemma process_command_event_emits (render_command : CommandRecord -> string)
    (m : Manager) (db : Db) (c : CommandRecord) (now : Z) :
  str_in (command_type c) ["backup"; "restore"; "scan"; "isolate"]%string = true ->
  let s' := _process_command_event render_command (m, db) c now in
  fst s' = m
  /\ emissions (snd s') = emissions db ++ [("command_executed_medium"%string, now)].
Proof.
  intros Hin. unfold _process_command_event. rewrite Hin. simpl.
  split; [reflexivity|]. unfold _send_alert. now rewrite emissions_record_alert.
Qed.

(** C2 at a failing input. With the default cooldown of 300 s, one [backup]
    command recorded at time 1000 is alerted on by the pass at 1000 and
    again by the pass at 1060: two emissions under the key
    [command_executed_medium], 60 s apart. *)
Theorem command_alerts_repeat_within_cooldown :
  let s1 := _process_pending_alerts (plain _) (plain _)
              (default_manager, backup_command_db) 1000 in
  let s2 := _process_pending_alerts (plain _) (plain _) s1 1060 in
  emissions (snd s2)
  = [("command_executed_medium"%string, 1000);
     ("command_executed_medium"%string, 1060)]
  /\ ~ cooldown_honoured (alert_cooldown (fst s2)) (emissions (snd s2)).
Proof.
  assert (E : emissions
                (snd (_process_pending_alerts (plain _) (plain _)
                        (_process_pending_alerts (plain _) (plain _)
                           (default_manager, backup_command_db) 1000) 1060))
              = [("command_executed_medium"%string, 1000);
                 ("command_executed_medium"%string, 1060)]).
  { vm_compute. reflexivity. }
  cbv zeta. split; [exact E|].
  rewrite E. intros H.
  specialize (H 0%nat 1%nat "command_executed_medium"%string 1000 1060).
  simpl in H. specialize (H ltac:(lia) eq_refl eq_refl).
  revert H. vm_compute. intros H. apply H. reflexivity.
Qed.

(** *** The security-event path does honour the cooldown *)

Lemma well_spaced_honoured (c : Z) (log : list (string * Z)) :
  well_spaced c log -> cooldown_honoured c log.
Proof.
  induction 1 as [|log k t Hws IH Hnew]; intros i j k' t1 t2 Hij Hi Hj.
  - destruct i; discriminate.
  - assert (Hjlen : (j < length (log ++ [(k, t)]))%nat).
    { apply nth_error_Some. congruence. }
    rewrite length_app in Hjlen. simpl in Hjlen.
    destruct (Nat.eq_dec j (length log)) as [->|Hne].
    + rewrite nth_error_app2 in Hj by lia.
      rewrite Nat.sub_diag in Hj. simpl in Hj. injection Hj as -> ->.
      rewrite nth_error_app1 in Hi by lia.
      apply Hnew. eapply nth_error_In; eauto.
    + rewrite nth_error_app1 in Hj by lia.
      rewrite nth_error_app1 in Hi by lia.
      exact (IH i j k' t1 t2 Hij Hi Hj).
Qed.

Lemma process_security_event_invariant (render_event : SecurityEvent -> string)
    (c t0 now : Z) (s : Manager * Db) (event : SecurityEvent) :
  0 <= c -> t0 <= now ->
  cooldown_invariant c t0 s ->
  cooldown_invariant c now (_process_security_event render_event s event now).
Proof.
  intros Hc Hnow (Hcd & Hws & Hlog & Hmap).
  destruct s as [m db]. simpl in *.
  assert (Hemit :
    (forall t', In (alert_key (event_type event) (severity event), t') (emissions db) ->
                c <= now - t') ->
    cooldown_invariant c now
      ({| alert_cooldown := alert_cooldown m;
          last_alerts := <[alert_key (event_type event) (severity event) := now]>
                           (last_alerts m) |},
       _mark_event_resolved
         (_send_alert db (event_type event) (render_event event) (severity event) now)
         (ev_id event))).
  { intros Hsep. unfold cooldown_invariant. simpl.
    rewrite emissions_mark_resolved. unfold _send_alert.
    rewrite emissions_record_alert.
    split; [exact Hcd|]. split; [now constructor|]. split.
    - intros k t Hin. apply in_app_or in Hin.
      destruct Hin as [Hin|[[= <- <-]|[]]].
      + destruct (decide (alert_key (event_type event) (severity event) = k))
          as [<-|Hne].
        * exists now. rewrite lookup_insert_eq. split; [reflexivity|].
          destruct (Hlog _ _ Hin) as (last & Hl & Ht).
          specialize (Hmap _ _ Hl). lia.
        * rewrite lookup_insert_ne by exact Hne. now apply Hlog.
      + exists now. rewrite lookup_insert_eq. split; [reflexivity|lia].
    - intros k last.
      destruct (decide (alert_key (event_type event) (severity event) = k))
        as [<-|Hne].
      + rewrite lookup_insert_eq. intros [= <-]. lia.
      + rewrite lookup_insert_ne by exact Hne. intros Hl.
        specialize (Hmap _ _ Hl). lia. }
  unfold _process_security_event, _should_send_alert. simpl.
  destruct (last_alerts m !! alert_key (event_type event) (severity event))
    as [last|] eqn:El.
  - destruct (now - last <? alert_cooldown m) eqn:Ecd; simpl.
    + unfold cooldown_invariant. simpl. repeat split; try assumption.
      intros k l Hl. specialize (Hmap _ _ Hl). lia.
    + apply Hemit. intros t' Hin.
      destruct (Hlog _ _ Hin) as (last' & Hl & Ht).
      rewrite El in Hl. injection Hl as <-.
      apply Z.ltb_ge in Ecd. lia.
  - simpl. apply Hemit. intros t' Hin.
    destruct (Hlog _ _ Hin) as (last' & Hl & _). congruence.
Qed.

(** On the security-event path alone, with a cooldown that is not negative
    and a clock that does not go back, any two emissions under one dedup
    key are at least [alert_cooldown] apart, each emission being dated by
    the clock reading of its cooldown check. *)
Lemma security_events_honour_cooldown (render_event : SecurityEvent -> string)
    (c t0 : Z) (s : Manager * Db) (calls : list (SecurityEvent * Z)) :
  0 <= c ->
  monotone_from t0 calls ->
  cooldown_invariant c t0 s ->
  cooldown_honoured c (emissions (snd (run_security_events render_event s calls))).
Proof.
  intros Hc Hmono Hinv. apply well_spaced_honoured.
  enough (H : exists t, cooldown_invariant c t
                          (run_security_events render_event s calls))
    by (destruct H as (t & _ & Hws & _); exact Hws).
  unfold run_security_events. revert t0 s Hmono Hinv.
  induction calls as [|[event now] rest IH]; intros t0 s Hmono Hinv; simpl.
  - now exists t0.
  - destruct Hmono as [Hle Hrest]. simpl in *.
    apply (IH now); [exact Hrest|].
    now apply process_security_event_invariant with t0.
Qed.

Lemma fresh_dispatcher_invariant (c t0 : Z) :
  cooldown_invariant c t0
    ({| alert_cooldown := c; last_alerts := ∅ |}, initialize).
Proof.
  unfold cooldown_invariant. simpl.
  split; [reflexivity|]. split; [constructor|]. split.
  - intros k t [].
  - intros k last. rewrite lookup_empty. discriminate.
Qed.

End Alerts.

(** ** The backup store *)

Section Backups.
Import Database BackupManager.

Variable tar_gz_create : Z -> list (string * bytes) -> bytes.
Variable tar_gz_extract : bytes -> option (list (string * bytes)).
Variable encrypt : bytes -> bytes.
Variable decrypt : bytes -> option bytes.
Variable sha256_hexdigest : bytes -> string.
Variable path_name : string -> string.
Variable path_absolute : string -> string.
Variable path_join : string -> string -> string.
Variable with_suffix_tmp : string -> string.
Variable walk_dir : gmap string bytes -> string -> option (list (string * bytes)).

Lemma sql_insert_unknown_column (t : Table) (assign : row) (c : string) (v : sqlval) :
  In (c, v) assign -> has_column t c = false -> sql_insert t assign = None.
Proof.
  intros Hin Hc. unfold sql_insert.
  destruct (forallb (fun cv => has_column t (fst cv)) assign) eqn:E; [|reflexivity].
  rewrite forallb_forall in E. specialize (E _ Hin). simpl in E. congruence.
Qed.

Lemma record_backup_fails (db : Db) (backup_id backup_type : string)
    (source_paths : list string) (backup_path : string) (size_bytes : Z)
    (descr checksum : string) (now : Z) :
  columns (backup_records db) = columns backup_records_schema ->
  _record_backup db backup_id backup_type source_paths backup_path size_bytes
    descr checksum now = None.
Proof.
  intros Hcols. unfold _record_backup.
  rewrite (sql_insert_unknown_column _ _ "checksum" (VText checksum)).
  - reflexivity.
  - simpl. tauto.
  - unfold has_column. rewrite Hcols. reflexivity.
Qed.

Lemma create_backup_records_nothing_aux (cfg : Config) (fs : gmap string bytes)
    (db : Db) (source_paths : list string)
    (backup_type descr backup_id stamp : string) (now : Z) :
  columns (backup_records db) = columns backup_records_schema ->
  let r := create_backup tar_gz_create encrypt sha256_hexdigest path_name
             path_absolute path_join with_suffix_tmp walk_dir
             cfg fs db source_paths backup_type descr backup_id stamp now in
  fst (fst r) = None /\ snd r = db.
Proof.
  intros Hcols. unfold create_backup.
  destruct (_validate_source_paths _ _ _ _); [now split|].
  destruct (_ <? _); [now split|].
  destruct (_ !! _); [|now split].
  destruct (_calculate_checksum _ _ _); [|now split].
  rewrite record_backup_fails by exact Hcols. now split.
Qed.

(** C3 at its failing inputs. On a store whose [backup_records] table has
    the columns [_create_tables] declares, [create_backup] returns no
    backup id for any source paths and leaves the store without a record,
    so that no later restore finds the backup: the INSERT of
    [_record_backup] names the columns [checksum] and [description], which
    the table does not have. *)
Theorem create_backup_records_nothing (cfg : Config) (fs : gmap string bytes) (db : Db)
    (source_paths : list string) (backup_type descr backup_id stamp : string)
    (now : Z) :
  columns (backup_records db) = columns backup_records_schema ->
  let r := create_backup tar_gz_create encrypt sha256_hexdigest path_name
             path_absolute path_join with_suffix_tmp walk_dir
             cfg fs db source_paths backup_type descr backup_id stamp now in
  fst (fst r) = None /\ snd r = db.
Proof.
  apply create_backup_records_nothing_aux.
Qed.

(** C4. When the record holds a checksum and the SHA-256 of the artifact on
    disk differs from it, [restore_backup] fails and leaves the file system
    and the store as they were: nothing is decrypted to disk and nothing is
    extracted. *)
Theorem restore_backup_refuses_checksum_mismatch (fs : gmap string bytes) (db : Db)
    (backup_id : string) (restore_path : option string) (now : Z)
    (record : row) (checksum : string) :
  _get_backup_record db backup_id = Some record ->
  row_get "checksum" record = Some (VText checksum) ->
  checksum <> ""%string ->
  (forall backup_path data,
      row_get "backup_path" record = Some (VText backup_path) ->
      fs !! backup_path = Some data ->
      sha256_hexdigest data <> checksum) ->
  restore_backup tar_gz_extract decrypt sha256_hexdigest path_join with_suffix_tmp
    fs db backup_id restore_path now
  = (false, fs, db).
Proof.
  intros Hrec Hsum Hne Hdiff. unfold restore_backup. rewrite Hrec.
  destruct (row_get "backup_path" record) as [[| |backup_path]|] eqn:Ep;
    try reflexivity.
  destruct (fs !! backup_path) as [data|] eqn:Ef; [|reflexivity].
  unfold _verify_checksum, _calculate_checksum. rewrite Hsum, Ef. simpl.
  unfold truthy_str.
  destruct (String.eqb checksum "") eqn:E0;
    [apply String.eqb_eq in E0; contradiction|].
  simpl.
  destruct (String.eqb (sha256_hexdigest data) checksum) eqn:E1; [|reflexivity].
  apply String.eqb_eq in E1. exfalso. exact (Hdiff _ _ eq_refl Ef E1).
Qed.

(** After such a call on a fresh store the drawn id names no record, and a
    restore of it fails without touching the file system. *)
Lemma restore_after_create_on_fresh_store (cfg : Config) (fs : gmap string bytes)
    (source_paths : list string) (backup_type descr backup_id stamp : string)
    (restore_path : option string) (now now' : Z) :
  let created := create_backup tar_gz_create encrypt sha256_hexdigest path_name
                   path_absolute path_join with_suffix_tmp walk_dir
                   cfg fs initialize source_paths backup_type descr backup_id
                   stamp now in
  fst (fst created) = None
  /\ restore_backup tar_gz_extract decrypt sha256_hexdigest path_join
       with_suffix_tmp (snd (fst created)) (snd created) backup_id restore_path now'
     = (false, snd (fst created), initialize).
Proof.
  intros created.
  destruct (create_backup_records_nothing_aux cfg fs initialize source_paths
              backup_type descr backup_id stamp now eq_refl) as [Hid Hdb].
  fold created in Hid, Hdb. split; [exact Hid|].
  rewrite Hdb. reflexivity.
Qed.

Section RoundTrip.
Hypothesis decrypt_encrypt : forall data, decrypt (encrypt data) = Some data.
Hypothesis extract_create :
  forall level members, tar_gz_extract (tar_gz_create level members) = Some members.

(** With those two columns in place the round trip does hold: for a
    cipher and an archive format that invert, a file that fits the size
    bound comes back byte for byte under the restore directory. *)
Lemma roundtrip_on_extended_schema (cfg : Config) (fs : gmap string bytes) (db : Db) (f : string)
    (content : bytes) (backup_type descr backup_id stamp : string) (now now' : Z) :
  backup_records db = backup_records_with_checksum ->
  fs !! f = Some content ->
  path_absolute f = f ->
  Z.of_nat (length (tar_gz_create (compression_level cfg) [(path_name f, content)]))
    <= max_backup_size cfg ->
  let backup_path :=
    path_join (backup_dir cfg)
      ("backup_" +:+ backup_id +:+ "_" +:+ stamp +:+ ".tar.gz.enc") in
  with_suffix_tmp backup_path <> backup_path ->
  path_join "./restore" (path_name f) <> with_suffix_tmp backup_path ->
  let created := create_backup tar_gz_create encrypt sha256_hexdigest path_name
                   path_absolute path_join with_suffix_tmp walk_dir
                   cfg fs db [f] backup_type descr backup_id stamp now in
  let restored := restore_backup tar_gz_extract decrypt sha256_hexdigest path_join
                    with_suffix_tmp (snd (fst created)) (snd created) backup_id
                    None now' in
  fst (fst created) = Some backup_id
  /\ fst (fst restored) = true
  /\ snd (fst restored) !! path_join "./restore" (path_name f) = Some content.
Proof.
  intros Hdb Hf Habs Hsize backup_path Htmp Htarget.
  assert (Hvalid : _validate_source_paths path_absolute walk_dir fs [f] = [f]).
  { unfold _validate_source_paths, path_exists. cbn [List.filter map].
    rewrite Hf. cbn [map]. now rewrite Habs. }
  assert (Harch : flat_map (_add_to_archive path_name walk_dir fs) [f]
                  = [(path_name f, content)]).
  { cbn [flat_map]. unfold _add_to_archive. rewrite Hf. reflexivity. }
  set (archive := tar_gz_create (compression_level cfg) [(path_name f, content)]) in *.
  set (tmp := with_suffix_tmp backup_path) in *.
  set (fs3 := delete tmp (<[backup_path := encrypt archive]> (<[tmp := archive]> fs))).
  assert (Hcreate :
    exists db', create_backup tar_gz_create encrypt sha256_hexdigest path_name
                  path_absolute path_join with_suffix_tmp walk_dir
                  cfg fs db [f] backup_type descr backup_id stamp now
                = (Some backup_id, fs3, db')
                /\ _get_backup_record db' backup_id
                   = Some [("id", VInt 1); ("backup_id", VText backup_id);
                           ("backup_type", VText backup_type);
                           ("source_paths", VText (String.concat "," [f]));
                           ("backup_path", VText backup_path);
                           ("size_bytes", VInt (Z.of_nat (length archive)));
                           ("encrypted", VInt 1); ("created_at", VInt now);
                           ("uploaded", VInt 0); ("upload_url", VNull);
                           ("checksum", VText (sha256_hexdigest (encrypt archive)));
                           ("description", VText descr)]).
  { unfold create_backup. fold backup_path. fold tmp.
    rewrite Hvalid, Harch. fold archive.
    destruct (max_backup_size cfg <? Z.of_nat (length archive)) eqn:E;
      [apply Z.ltb_lt in E; lia|].
    rewrite lookup_insert_eq. fold fs3.
    assert (Hbp : fs3 !! backup_path = Some (encrypt archive)).
    { unfold fs3. rewrite lookup_delete_ne by exact Htmp. apply lookup_insert_eq. }
    unfold _calculate_checksum. rewrite Hbp. cbn [fmap option_fmap option_map].
    unfold _record_backup. rewrite Hdb.
    eexists. split; [reflexivity|].
    unfold _get_backup_record, sql_select_one. cbn.
    rewrite String.eqb_refl. reflexivity. }
  destruct Hcreate as (db' & Hcreate & Hrecord).
  intros created restored. subst created restored.
  rewrite Hcreate. cbn [fst snd].
  split; [reflexivity|].
  assert (Hbp : fs3 !! backup_path = Some (encrypt archive)).
  { unfold fs3. rewrite lookup_delete_ne by exact Htmp. apply lookup_insert_eq. }
  unfold restore_backup. rewrite Hrecord.
  cbn [row_get String.eqb Ascii.eqb Bool.eqb].
  rewrite Hbp.
  assert (Hver : _verify_checksum sha256_hexdigest fs3 backup_path
                   (Some (VText (sha256_hexdigest (encrypt archive))))
                 = Some true).
  { unfold _verify_checksum, _calculate_checksum. rewrite Hbp.
    destruct (checksum_available _); [|reflexivity].
    cbn. now rewrite String.eqb_refl. }
  rewrite Hver, decrypt_encrypt. fold tmp.
  rewrite lookup_insert_eq. cbn [mbind option_bind].
  assert (Hex : tar_gz_extract archive = Some [(path_name f, content)])
    by apply extract_create.
  rewrite Hex.
  cbn [fst snd truthy_opt_str]. unfold extractall. cbn [fold_left fst snd].
  split; [reflexivity|].
  rewrite lookup_delete_ne by (intros H; apply Htarget; now rewrite H).
  apply lookup_insert_eq.
Qed.

End RoundTrip.

End Backups.


Section BackupRuns.
Import Database BackupManager.

Lemma create_backup_records_nothing_witness :
  let r := create_backup toy_tar_gz_create toy_encrypt toy_sha256 toy_path
             toy_path toy_join toy_tmp toy_walk
             toy_config test_fs initialize ["test_data/test_file.txt"%string]
             "test" "Test backup" "backup_1700000000_0a1b2c3d" "20231114_221320"
             1700000000 in
  fst (fst r) = None /\ snd r = initialize.
Proof.
  apply (create_backup_records_nothing toy_tar_gz_create toy_encrypt toy_sha256
           toy_path toy_path toy_join toy_tmp toy_walk
           toy_config test_fs initialize ["test_data/test_file.txt"%string]
           "test" "Test backup" "backup_1700000000_0a1b2c3d" "20231114_221320"
           1700000000).
  reflexivity.
Defined.

Lemma restore_backup_refuses_checksum_mismatch_witness :
  restore_backup toy_tar_gz_extract
    toy_decrypt toy_sha256 toy_join
    toy_tmp corrupted_fs checksummed_db
    "b1" None 2000
  = (false, corrupted_fs, checksummed_db).
Proof.
  apply (restore_backup_refuses_checksum_mismatch toy_tar_gz_extract
           toy_decrypt toy_sha256 toy_join
           toy_tmp corrupted_fs
           checksummed_db "b1" None 2000
           [("id", VInt 1); ("backup_id", VText "b1");
            ("backup_type", VText "manual");
            ("backup_path", VText "./backups/b1.tar.gz.enc");
            ("checksum", VText "4")]
           "4").
  - reflexivity.
  - reflexivity.
  - discriminate.
  - intros backup_path data [= <-] Hf.
    vm_compute in Hf. injection Hf as <-. vm_compute. discriminate.
Defined.

End BackupRuns.

(** ** The ransomware heuristics *)

Section Ransomware.
Import Database FileWatcher.

Lemma count_kind_total (l : list event_data) :
  (count_kind created l + count_kind modified l + count_kind moved l
   + count_kind deleted l)%nat = length l.
Proof.
  unfold count_kind. induction l as [|e t IH]; simpl; [reflexivity|].
  destruct (type e); simpl; lia.
Qed.

Lemma trigger_all_app (db : Db) (l1 l2 : list (string * dict)) (now : Z) :
  trigger_all db (l1 ++ l2) now = trigger_all (trigger_all db l1 now) l2 now.
Proof. unfold trigger_all. apply fold_left_app. Qed.

Lemma trigger_all_if (db : Db) (b : bool) (a : string * dict) (now : Z) :
  trigger_all db (if b then [a] else []) now
  = if b then _trigger_alert db (fst a) (snd a) now else db.
Proof. now destruct b. Qed.

(** The scan logs exactly the detections of the last minute. *)
Lemma check_ransomware_patterns_detections (d : RansomwareDetector) (db : Db)
    (now : Z) :
  _check_ransomware_patterns d db now
  = trigger_all db (detections (last_minute d now)) now.
Proof.
  unfold _check_ransomware_patterns, detections.
  destruct (last_minute d now) as [|e recent] eqn:E; [reflexivity|].
  rewrite count_kind_total.
  rewrite !trigger_all_app, !trigger_all_if. reflexivity.
Qed.

Lemma trigger_all_logs (alerts : list (string * dict)) (now : Z) :
  forall db : Db,
  exists events rows,
    security_events (trigger_all db alerts now) = security_events db ++ events
    /\ audit_log (trigger_all db alerts now) = audit_log db ++ rows
    /\ map event_view events
       = map (fun a => ("ransomware_detection"%string, dict_str "severity" (snd a),
                        falsy_to_none (Some (snd a)), false)) alerts
    /\ map (fun r => (action r, resource r, audit_details r)) rows
       = map (fun a => ("ransomware_alert_triggered"%string, Some (fst a),
                        falsy_to_none (Some (snd a)))) alerts.
Proof.
  unfold trigger_all.
  induction alerts as [|a rest IH]; intros db; simpl.
  - exists [], []. rewrite !app_nil_r. repeat split.
  - destruct (IH (_trigger_alert db (fst a) (snd a) now))
      as (events & rows & He & Hr & Hv & Hw).
    eexists (_ :: events), (_ :: rows).
    rewrite He, Hr. unfold _trigger_alert, log_audit, log_security_event.
    cbn [security_events audit_log with_audit_log with_security_events].
    rewrite <- !app_assoc.
    split; [reflexivity|]. split; [reflexivity|].
    split; cbn [map]; f_equal; assumption.
Qed.

Lemma In_optional {A : Type} (b : bool) (a x : A) :
  In x (if b then [a] else []) <-> b = true /\ x = a.
Proof.
  destruct b; simpl; split.
  - intros [H|[]]. now split.
  - intros [_ H]. now left.
  - intros [].
  - intros [H _]. discriminate.
Qed.

Lemma map_fst_optional {A B : Type} (b : bool) (a : A * B) :
  map fst (if b then [a] else []) = if b then [fst a] else [].
Proof. now destruct b. Qed.

Lemma detections_details_kept (recent : list event_data) (a : string * dict) :
  In a (detections recent) -> falsy_to_none (Some (snd a)) = Some (snd a).
Proof.
  unfold detections. rewrite !in_app_iff, !In_optional.
  intros [[_ ->]|[[_ ->]|[[_ ->]|[[_ ->]|[_ ->]]]]]; reflexivity.
Qed.

Lemma detections_severity (recent : list event_data) (a : string * dict) :
  In a (detections recent) -> dict_str "severity" (snd a) = severity_of (fst a).
Proof.
  unfold detections. rewrite !in_app_iff, !In_optional.
  intros [[_ ->]|[[_ ->]|[[_ ->]|[[_ ->]|[_ ->]]]]]; reflexivity.
Qed.

Lemma fired_names (recent : list event_data) (name : string) :
  In name (map fst (detections recent))
  <-> ((50 <? length recent)%nat = true /\ name = "mass_file_operations"%string)
      \/ ((30 <? count_kind moved recent)%nat = true /\ name = "mass_renames"%string)
      \/ ((10 <? length (List.filter is_suspicious_extension recent))%nat = true
          /\ name = "suspicious_extensions"%string)
      \/ ((5 <? length (List.filter is_encryption_pattern recent))%nat = true
          /\ name = "encryption_patterns"%string)
      \/ ((20 <? count_kind modified recent)%nat = true
          /\ name = "rapid_modifications"%string).
Proof.
  unfold detections, count_kind.
  rewrite !map_app, !map_fst_optional. cbn [fst].
  rewrite !in_app_iff, !In_optional. reflexivity.
Qed.

Lemma fired_names_NoDup (recent : list event_data) :
  List.NoDup (map fst (detections recent)).
Proof.
  unfold detections. rewrite !map_app, !map_fst_optional. cbn [fst].
  destruct (50 <? length recent)%nat, (30 <? count_kind moved recent)%nat,
    (10 <? length (List.filter is_suspicious_extension recent))%nat,
    (5 <? length (List.filter is_encryption_pattern recent))%nat,
    (20 <? length (List.filter (fun e => kind_eqb (type e) modified) recent))%nat;
    cbn [app];
    repeat (constructor; [cbn [In]; intuition discriminate|]); constructor.
Qed.

Ltac pick_detection H :=
  unfold detections in H; rewrite !in_app_iff, !In_optional in H;
  destruct H as [[_ H]|[[_ H]|[[_ H]|[[_ H]|[_ H]]]]];
  try discriminate H; injection H as ->.

(** What the scan does, detector by detector. The scan of the last minute
    fires each of the five detectors at most once, exactly when its count
    exceeds its threshold, with the severity of the table; every firing
    appends one security event of type [ransomware_detection] and one
    audit row, both carrying the details with the raw counts. The file
    list of [rapid_modifications] is cut to its first ten names; that of
    [encryption_patterns] is written whole. *)
Theorem scan_fires_detectors (d : RansomwareDetector) (db : Db) (now : Z) :
  let recent := last_minute d now in
  let fired := detections recent in
  let db' := _check_ransomware_patterns d db now in
  (exists events rows,
      security_events db' = security_events db ++ events
      /\ audit_log db' = audit_log db ++ rows
      /\ map event_view events
         = map (fun a => ("ransomware_detection"%string, severity_of (fst a),
                          Some (snd a), false)) fired
      /\ map (fun r => (action r, resource r, audit_details r)) rows
         = map (fun a => ("ransomware_alert_triggered"%string, Some (fst a),
                          Some (snd a))) fired)
  /\ List.NoDup (map fst fired)
  /\ (In "mass_file_operations"%string (map fst fired)
      <-> (50 < length recent)%nat)
  /\ (In "mass_renames"%string (map fst fired)
      <-> (30 < count_kind moved recent)%nat)
  /\ (In "suspicious_extensions"%string (map fst fired)
      <-> (10 < length (List.filter is_suspicious_extension recent))%nat)
  /\ (In "encryption_patterns"%string (map fst fired)
      <-> (5 < length (List.filter is_encryption_pattern recent))%nat)
  /\ (In "rapid_modifications"%string (map fst fired)
      <-> (20 < count_kind modified recent)%nat)
  /\ (forall det, In ("mass_file_operations"%string, det) fired ->
      dict_get "created" det = Some (jnat (count_kind created recent))
      /\ dict_get "modified" det = Some (jnat (count_kind modified recent))
      /\ dict_get "moved" det = Some (jnat (count_kind moved recent))
      /\ dict_get "deleted" det = Some (jnat (count_kind deleted recent)))
  /\ (forall det, In ("mass_renames"%string, det) fired ->
      dict_get "count" det = Some (jnat (count_kind moved recent)))
  /\ (forall det, In ("suspicious_extensions"%string, det) fired ->
      dict_get "count" det
      = Some (jnat (length (List.filter is_suspicious_extension recent))))
  /\ (forall det, In ("encryption_patterns"%string, det) fired ->
      dict_get "count" det
      = Some (jnat (length (List.filter is_encryption_pattern recent)))
      /\ dict_get "files" det
         = Some (JArr (map (fun e => JStr (src_path e))
                           (List.filter is_encryption_pattern recent))))
  /\ (forall det, In ("rapid_modifications"%string, det) fired ->
      dict_get "count" det = Some (jnat (count_kind modified recent))
      /\ dict_get "files" det
         = Some (JArr (map (fun e => JStr (src_path e))
                           (firstn 10 (List.filter
                                         (fun e => kind_eqb (type e) modified)
                                         recent))))).
Proof.
  intros recent fired db'. subst db' fired.
  rewrite check_ransomware_patterns_detections. fold recent.
  split; [|split; [apply fired_names_NoDup|]].
  - destruct (trigger_all_logs (detections recent) now db)
      as (events & rows & He & Hr & Hv & Hw).
    exists events, rows. split; [exact He|]. split; [exact Hr|]. split.
    + rewrite Hv. apply map_ext_in. intros a Ha.
      rewrite (detections_details_kept recent a Ha).
      now rewrite (detections_severity recent a Ha).
    + rewrite Hw. apply map_ext_in. intros a Ha.
      now rewrite (detections_details_kept recent a Ha).
  - rewrite !fired_names, !Nat.ltb_lt.
    repeat (split; [solve [intuition (try discriminate; try lia)]|]).
    repeat (split; [intros det H; pick_detection H; repeat split; reflexivity|]).
    intros det H. pick_detection H. split; reflexivity.
Qed.

(** C5 at a failing input. After eleven files named [*.locked] were
    created within a minute, the scan writes one critical event whose
    details list all eleven names: the file list of [encryption_patterns]
    is not cut, where the list of [rapid_modifications] next to it is cut
    to ten and the claim asks both to be. *)
Lemma encryption_patterns_lists_every_file : ~ file_lists_truncated.
Proof.
  intros H.
  assert (E : exists e,
             security_events
               (_check_ransomware_patterns (fst eleven_locked_files) initialize 1010)
             = [e]
             /\ severity e = "critical"%string
             /\ files_listed e = Some 11%nat).
  { eexists. vm_compute. repeat split. }
  destruct E as (e & He & _ & Hn).
  specialize (H (fst eleven_locked_files) 1010 e 11%nat).
  rewrite He in H. specialize (H (or_introl eq_refl) Hn). lia.
Qed.

End Ransomware.

(** ** More on the queue of the local store *)

Section QueueOperations.
Import Database OfflineQueue.

Lemma dict_get_set_same (k : string) (v : json) (d : dict) :
  dict_get k (dict_set k v d) = Some v.
Proof.
  induction d as [|[k' v'] t IH]; simpl.
  - now rewrite String.eqb_refl.
  - destruct (String.eqb k' k) eqn:E; simpl; rewrite E; [reflexivity|exact IH].
Qed.

Lemma dict_get_set_other (k k0 : string) (v : json) (d : dict) :
  k0 <> k -> dict_get k0 (dict_set k v d) = dict_get k0 d.
Proof.
  intros Hne. induction d as [|[k' v'] t IH]; simpl.
  - destruct (String.eqb k k0) eqn:E; [apply String.eqb_eq in E; congruence|reflexivity].
  - destruct (String.eqb k' k) eqn:E; simpl.
    + apply String.eqb_eq in E. subst k'.
      destruct (String.eqb k k0) eqn:E'; [apply String.eqb_eq in E'; congruence|reflexivity].
    + destruct (String.eqb k' k0); [reflexivity|exact IH].
Qed.

(** X1. [add_to_queue] on a queue with distinct ids that the counter bounds
    returns an id no row holds, appends one pending row with that id, the
    given type, payload and priority and [retry_count] 0, and leaves the
    queue in the same good shape. *)
Theorem add_to_queue_fresh_id (db : Db) (qt : string) (p : dict) (prio now : Z) :
  queue_wf db ->
  let r := add_to_queue db qt p prio now in
  queue_wf (fst r)
  /\ ~ In (snd r) (map q_id (offline_queue db))
  /\ exists item,
       offline_queue (fst r) = offline_queue db ++ [item]
       /\ q_id item = snd r
       /\ queue_type item = qt /\ payload item = p /\ priority item = prio
       /\ status item = "pending"%string /\ retry_count item = 0.
Proof.
  intros [Hnd Hle]. simpl.
  assert (Hfresh : ~ In (offline_queue_seq db + 1) (map q_id (offline_queue db))).
  { intros Hin. apply in_map_iff in Hin. destruct Hin as (x & Hx & Hin).
    rewrite List.Forall_forall in Hle. specialize (Hle x Hin). lia. }
  split; [|split; [exact Hfresh|]].
  - split; simpl.
    + rewrite map_app. simpl. apply List.NoDup_app; [exact Hnd| |].
      * repeat constructor. intros [].
      * intros a Ha [<-|[]]. now apply Hfresh.
    + apply List.Forall_app. split.
      * revert Hle. apply List.Forall_impl. intros a Ha. lia.
      * repeat constructor. simpl. lia.
  - eexists. split; [reflexivity|]. simpl. repeat split.
Qed.

Lemma sql_limit_all {A : Type} (n : Z) (l : list A) :
  n < 0 \/ (length l <= Z.to_nat n)%nat -> sql_limit n l = l.
Proof.
  unfold sql_limit. intros [H|H].
  - destruct (n <? 0) eqn:E; [reflexivity|apply Z.ltb_ge in E; lia].
  - destruct (n <? 0); [reflexivity|]. now apply firstn_all2.
Qed.

(** X2. An item enqueued under a non-empty type is returned by the next
    claim of pending items of that type, with the id [add_to_queue] gave
    back and its payload, as long as the limit exceeds the number of rows
    that were already pending under the type. *)
Theorem enqueued_item_is_claimed (db : Db) (qt : string) (p : dict)
    (prio now limit : Z) :
  qt <> ""%string ->
  (length (List.filter (where_clause (Some qt) "pending") (offline_queue db))
   < Z.to_nat limit)%nat ->
  let r := add_to_queue db qt p prio now in
  exists item,
    In item (get_queue_items (fst r) (Some qt) "pending" limit)
    /\ q_id item = snd r /\ payload item = p /\ priority item = prio.
Proof.
  intros Hqt Hlen. simpl.
  exists {| q_id := offline_queue_seq db + 1; queue_type := qt; payload := p;
            priority := prio; created_at := now; retry_count := 0;
            max_retries := 3; status := "pending" |}.
  split; [|repeat split].
  rewrite get_queue_items_eq. simpl.
  rewrite List.filter_app. simpl.
  assert (Hw : forall x, where_clause (Some qt) "pending"
            {| q_id := x; queue_type := qt; payload := p; priority := prio;
               created_at := now; retry_count := 0; max_retries := 3;
               status := "pending" |} = true).
  { intros x. unfold where_clause. simpl. unfold truthy_str.
    destruct (String.eqb qt "") eqn:E; [apply String.eqb_eq in E; contradiction|].
    simpl. now rewrite String.eqb_refl. }
  rewrite Hw. rewrite sql_limit_all.
  - apply sort_by_In. apply in_or_app. right. now left.
  - right. rewrite sort_by_length, length_app. simpl. lia.
Qed.

Lemma update_where_ids (item_id : Z) (f : QueueItem -> QueueItem)
    (q : list QueueItem) :
  (forall r, q_id (f r) = q_id r) ->
  map q_id (update_where item_id f q) = map q_id q.
Proof.
  intros Hf. unfold update_where. rewrite map_map. apply map_ext.
  intros r. destruct (q_id r =? item_id); [apply Hf|reflexivity].
Qed.

Lemma update_queue_item_rows (db : Db) (item_id : Z) (st : string)
    (result : option dict) :
  exists f,
    (forall r, q_id (f r) = q_id r)
    /\ offline_queue (update_queue_item db item_id st result)
       = update_where item_id f (offline_queue db).
Proof.
  unfold update_queue_item. simpl.
  destruct (truthy_dict result).
  - destruct (List.find _ _) as [r0|].
    + exists (fun r => set_payload
                         (dict_set "result" (JObj (default [] result)) (payload r0))
                         (set_status_retry st r)).
      split; [reflexivity|].
      unfold update_where. rewrite map_map. apply map_ext. intros r. simpl.
      destruct (q_id r =? item_id) eqn:E; simpl; now rewrite E.
    + exists (set_status_retry st). split; reflexivity.
  - exists (set_status_retry st). split; reflexivity.
Qed.

(** X3. [update_queue_item] changes no id and no counter, leaves every row
    with another id as it was, does nothing at all when no row has the id
    (there is no error for an unknown id), and keeps ids distinct. *)
Theorem update_queue_item_touches_one_id (db : Db) (item_id : Z) (st : string)
    (result : option dict) :
  let db' := update_queue_item db item_id st result in
  map q_id (offline_queue db') = map q_id (offline_queue db)
  /\ offline_queue_seq db' = offline_queue_seq db
  /\ (forall i r, nth_error (offline_queue db) i = Some r -> q_id r <> item_id ->
      nth_error (offline_queue db') i = Some r)
  /\ (~ In item_id (map q_id (offline_queue db)) ->
      offline_queue db' = offline_queue db)
  /\ (queue_wf db -> queue_wf db').
Proof.
  intros db'. subst db'.
  destruct (update_queue_item_rows db item_id st result) as (f & Hf & Hq).
  assert (Hids : map q_id (offline_queue (update_queue_item db item_id st result))
                 = map q_id (offline_queue db)).
  { rewrite Hq. now apply update_where_ids. }
  split; [exact Hids|]. split; [reflexivity|]. split; [|split].
  - intros i r Hi Hne. rewrite Hq, nth_error_update_where, Hi. simpl.
    destruct (q_id r =? item_id) eqn:E; [apply Z.eqb_eq in E; contradiction|reflexivity].
  - intros Hnot. rewrite Hq. unfold update_where.
    rewrite <- (map_id (offline_queue db)) at 2. apply map_ext_in.
    intros r Hr. destruct (q_id r =? item_id) eqn:E; [|reflexivity].
    apply Z.eqb_eq in E. exfalso. apply Hnot. rewrite <- E. now apply in_map.
  - intros [Hnd Hle]. split.
    + now rewrite Hids.
    + rewrite List.Forall_forall in *. intros r' Hr'.
      assert (Hin : In (q_id r') (map q_id (offline_queue db))).
      { rewrite <- Hids. now apply in_map. }
      apply in_map_iff in Hin. destruct Hin as (x & Hx & Hin).
      rewrite <- Hx. simpl. now apply Hle.
Qed.

Lemma find_unique_id (q : list QueueItem) (i : nat) (r : QueueItem) :
  List.NoDup (map q_id q) -> nth_error q i = Some r ->
  List.find (fun x => q_id x =? q_id r) q = Some r.
Proof.
  revert i. induction q as [|x t IH]; intros i Hnd Hi.
  - destruct i; discriminate.
  - simpl in Hnd. apply List.NoDup_cons_iff in Hnd. destruct Hnd as [Hx Ht].
    destruct i as [|i]; simpl in *.
    + injection Hi as ->. now rewrite Z.eqb_refl.
    + destruct (q_id x =? q_id r) eqn:E.
      * apply Z.eqb_eq in E. exfalso. apply Hx. rewrite E.
        apply in_map. eapply nth_error_In; eauto.
      * eapply IH; eauto.
Qed.

(** X4. Given a non-empty [result], [update_queue_item] stores it under the
    key [result] of the payload and keeps every other key; an empty
    [result] dictionary counts as absent and leaves the payload alone. *)
Theorem update_queue_item_merges_result (db : Db) (item_id : Z) (st : string)
    (result : dict) (i : nat) (r : QueueItem) :
  List.NoDup (map q_id (offline_queue db)) ->
  nth_error (offline_queue db) i = Some r ->
  q_id r = item_id ->
  exists r',
    nth_error (offline_queue (update_queue_item db item_id st (Some result))) i
    = Some r'
    /\ (result <> [] ->
        dict_get "result" (payload r') = Some (JObj result)
        /\ forall k, k <> "result"%string ->
                     dict_get k (payload r') = dict_get k (payload r))
    /\ (result = [] -> payload r' = payload r).
Proof.
  intros Hnd Hi Hid. subst item_id. unfold update_queue_item. simpl.
  assert (H1 : nth_error (update_where (q_id r) (set_status_retry st) (offline_queue db)) i
               = Some (set_status_retry st r)).
  { rewrite nth_error_update_where, Hi. simpl. now rewrite Z.eqb_refl. }
  destruct result as [|kv rest]; simpl.
  - eexists. split; [exact H1|]. split; [congruence|reflexivity].
  - assert (Hfind : List.find (fun x => q_id x =? q_id r)
                      (update_where (q_id r) (set_status_retry st) (offline_queue db))
                    = Some (set_status_retry st r)).
    { apply (find_unique_id _ i (set_status_retry st r)).
      - rewrite update_where_ids by reflexivity. exact Hnd.
      - exact H1. }
    rewrite Hfind. eexists. split.
    + rewrite nth_error_update_where, H1. simpl.
      rewrite Z.eqb_refl. reflexivity.
    + simpl. split; [|discriminate]. intros _. split.
      * apply dict_get_set_same.
      * intros k Hk. now apply dict_get_set_other.
Qed.

Lemma fail_and_sweep_row (db : Db) (i : nat) (r : QueueItem) :
  nth_error (offline_queue db) i = Some r ->
  status r = "pending"%string -> retry_count r = 0 -> 1 < max_retries r ->
  nth_error (offline_queue (fail_and_sweep (q_id r) db)) i = Some r.
Proof.
  intros Hi Hst Hrc Hmax.
  unfold fail_and_sweep, retry_failed_items, update_queue_item.
  cbn [offline_queue with_offline_queue truthy_dict].
  rewrite nth_error_map, nth_error_update_where, Hi. simpl.
  rewrite Z.eqb_refl. f_equal.
  unfold retry_eligible. simpl. rewrite Hrc.
  destruct (0 + 1 <? max_retries r) eqn:E; [|apply Z.ltb_ge in E; lia].
  destruct r; simpl in *. subst. reflexivity.
Qed.

(** X5. The retry budget is never used up by failing and sweeping: a
    pending row with [retry_count] 0 and [max_retries] above 1 is, after
    any number of rounds of being marked failed and swept by
    [retry_failed_items], exactly the row it was. *)
Theorem failed_item_regains_full_budget (db : Db) (n : nat) (i : nat)
    (r : QueueItem) :
  nth_error (offline_queue db) i = Some r ->
  status r = "pending"%string -> retry_count r = 0 -> 1 < max_retries r ->
  nth_error (offline_queue (Nat.iter n (fail_and_sweep (q_id r)) db)) i = Some r.
Proof.
  intros Hi Hst Hrc Hmax. induction n as [|n IH]; [exact Hi|].
  rewrite Nat.iter_succ. now apply fail_and_sweep_row.
Qed.

(** X6. A second retry sweep in a row changes nothing. *)
Theorem retry_failed_items_idempotent (db : Db) :
  retry_failed_items (retry_failed_items db) = retry_failed_items db.
Proof.
  unfold retry_failed_items, with_offline_queue. simpl. f_equal.
  rewrite map_map. apply map_ext. intros r.
  destruct (retry_eligible r) eqn:E; [|now rewrite E].
  reflexivity.
Qed.

Lemma add_to_queue_fresh_id_witness :
  let r := add_to_queue sample_db "telemetry" [("cpu", JNum 7)] 1 130 in
  queue_wf (fst r)
  /\ ~ In (snd r) (map q_id (offline_queue sample_db))
  /\ exists item,
       offline_queue (fst r) = offline_queue sample_db ++ [item]
       /\ q_id item = snd r
       /\ queue_type item = "telemetry"%string
       /\ payload item = [("cpu", JNum 7)] /\ priority item = 1
       /\ status item = "pending"%string /\ retry_count item = 0.
Proof.
  apply (add_to_queue_fresh_id sample_db "telemetry" [("cpu", JNum 7)] 1 130).
  exact queue_wf_sample_db.
Defined.

Lemma enqueued_item_is_claimed_witness :
  let r := add_to_queue sample_db "telemetry" [("cpu", JNum 7)] 1 130 in
  exists item,
    In item (get_queue_items (fst r) (Some "telemetry"%string) "pending" 50)
    /\ q_id item = snd r /\ payload item = [("cpu", JNum 7)] /\ priority item = 1.
Proof.
  apply (enqueued_item_is_claimed sample_db "telemetry" [("cpu", JNum 7)] 1 130 50).
  - discriminate.
  - vm_compute. lia.
Defined.

Lemma update_queue_item_merges_result_witness :
  exists r',
    nth_error (offline_queue
                 (update_queue_item sample_db 3 "completed"
                    (Some [("delivered", JBool true)]))) 2 = Some r'
    /\ ([("delivered", JBool true)] <> [] ->
        dict_get "result" (payload r') = Some (JObj [("delivered", JBool true)])
        /\ forall k, k <> "result"%string ->
                     dict_get k (payload r')
                     = dict_get k (payload (sample_row 3 "command_result" 0 110 0 "pending")))
    /\ ([("delivered", JBool true)] = [] ->
        payload r' = payload (sample_row 3 "command_result" 0 110 0 "pending")).
Proof.
  apply (update_queue_item_merges_result sample_db 3 "completed"
           [("delivered", JBool true)] 2
           (sample_row 3 "command_result" 0 110 0 "pending")).
  - apply queue_wf_sample_db.
  - reflexivity.
  - reflexivity.
Defined.

Lemma failed_item_regains_full_budget_witness :
  nth_error (offline_queue
               (Nat.iter 5
                  (fail_and_sweep (q_id (sample_row 3 "command_result" 0 110 0 "pending")))
                  sample_db)) 2
  = Some (sample_row 3 "command_result" 0 110 0 "pending").
Proof.
  apply (failed_item_regains_full_budget sample_db 5 2
           (sample_row 3 "command_result" 0 110 0 "pending")).
  - reflexivity.
  - reflexivity.
  - reflexivity.
  - simpl. lia.
Defined.

End QueueOperations.

(** ** The sync worker *)

Section SyncWorker.
Import Database OfflineQueue.

Lemma NoDup_map_filter {A B : Type} (f : A -> B) (p : A -> bool) (l : list A) :
  List.NoDup (map f l) -> List.NoDup (map f (List.filter p l)).
Proof.
  induction l as [|x t IH]; simpl; [auto|].
  rewrite List.NoDup_cons_iff. intros [Hx Ht].
  destruct (p x); simpl; [|now apply IH].
  apply List.NoDup_cons_iff. split; [|now apply IH].
  intros Hin. apply Hx. apply in_map_iff in Hin. destruct Hin as (y & Hy & Hin).
  apply filter_In in Hin. apply in_map_iff. exists y. tauto.
Qed.

Section Decoding.
Variable decodes : QueueItem -> bool.

Lemma mark_where_row (sel : QueueItem -> bool) (st : string)
    (items : list QueueItem) :
  forall (db : Db) (i : nat) (r : QueueItem),
    nth_error (offline_queue db) i = Some r ->
    exists r',
      nth_error (offline_queue (mark_where sel st items db)) i = Some r'
      /\ q_id r' = q_id r /\ payload r' = payload r
      /\ queue_type r' = queue_type r /\ priority r' = priority r
      /\ (In (q_id r) (map q_id (List.filter sel items)) -> status r' = st)
      /\ (~ In (q_id r) (map q_id (List.filter sel items)) -> r' = r).
Proof.
  unfold mark_where.
  induction items as [|it rest IH]; intros db i r Hi; simpl.
  - exists r. repeat split; try assumption. intros [].
  - destruct (sel it) eqn:Es.
    + destruct (q_id r =? q_id it) eqn:E.
      * destruct (IH (update_queue_item db (q_id it) st None) i (set_status_retry st r))
          as (r' & Hn & Hid & Hp & Hq & Hpr & Hin & Hout).
        { unfold update_queue_item. simpl.
          rewrite nth_error_update_where, Hi. simpl. now rewrite E. }
        exists r'. simpl in *. repeat split; try assumption.
        -- intros _. destruct (in_dec Z.eq_dec (q_id r) (map q_id (List.filter sel rest)))
             as [Hi'|Hn'].
           ++ now apply Hin.
           ++ rewrite (Hout Hn'). reflexivity.
        -- intros Hnot. exfalso. apply Hnot. left. apply Z.eqb_eq in E. congruence.
      * destruct (IH (update_queue_item db (q_id it) st None) i r)
          as (r' & Hn & Hid & Hp & Hq & Hpr & Hin & Hout).
        { unfold update_queue_item. simpl.
          rewrite nth_error_update_where, Hi. simpl. now rewrite E. }
        exists r'. simpl. repeat split; try assumption.
        -- intros [Heq|Hin']; [apply Z.eqb_neq in E; congruence|now apply Hin].
        -- intros Hnot. apply Hout. intros H. apply Hnot. now right.
    + apply IH. exact Hi.
Qed.

Lemma filter_true_id {A : Type} (l : list A) : List.filter (fun _ => true) l = l.
Proof. induction l; simpl; congruence. Qed.

Lemma filter_nil_existsb {A : Type} (f : A -> bool) (l : list A) :
  List.filter f l = [] <-> existsb f l = false.
Proof.
  induction l as [|x t IH]; simpl; [tauto|].
  destruct (f x); simpl; [split; discriminate|exact IH].
Qed.

(** X7. A batch drain ([_sync_telemetry_data], [_sync_security_events]) is
    all or nothing: every claimed row ends completed when the batch POST
    returned 200 and failed otherwise, including, on success, a row whose
    payload did not decode and was left out of the batch; when no claimed
    payload decodes nothing is sent and all claimed rows end failed. Rows
    that were not claimed are untouched and no payload is changed. *)
Theorem sync_batch_all_or_nothing (qt : string) (db : Db) (post : http_outcome)
    (i : nat) (r : QueueItem) :
  nth_error (offline_queue db) i = Some r ->
  let claimed := get_queue_items db (Some qt) "pending" batch_size in
  exists r',
    nth_error (offline_queue (sync_batch decodes qt db post)) i = Some r'
    /\ q_id r' = q_id r /\ payload r' = payload r
    /\ (~ In (q_id r) (map q_id claimed) -> r' = r)
    /\ (In (q_id r) (map q_id claimed) ->
        status r'
        = if existsb decodes claimed && delivered post
          then "completed"%string else "failed"%string).
Proof.
  intros Hi claimed. unfold sync_batch. fold claimed.
  destruct claimed as [|c0 cs] eqn:Ec.
  { exists r. repeat split; try assumption. intros []. }
  rewrite <- Ec.
  destruct (mark_where_row (fun item => negb (decodes item)) "failed" claimed db i r Hi)
    as (r1 & Hn1 & Hid1 & Hp1 & _ & _ & Hin1 & Hout1).
  assert (Hsub : forall x, In x (map q_id (List.filter (fun item => negb (decodes item)) claimed))
                           -> In x (map q_id claimed)).
  { intros x Hx. apply in_map_iff in Hx. destruct Hx as (y & <- & Hy).
    apply filter_In in Hy. apply in_map. tauto. }
  destruct (List.filter decodes claimed) as [|d0 ds] eqn:Ed.
  - apply filter_nil_existsb in Ed. rewrite Ed. simpl.
    exists r1. repeat split; try assumption.
    + intros Hnot. apply Hout1. intros H. apply Hnot. now apply Hsub.
    + intros Hin. apply Hin1.
      assert (Hall : List.filter (fun item => negb (decodes item)) claimed = claimed).
      { rewrite <- (filter_true_id claimed) at 2. apply filter_ext_in.
        intros a Ha.
        destruct (decodes a) eqn:E; [|reflexivity].
        exfalso. assert (existsb decodes claimed = true)
          by (apply existsb_exists; eauto). congruence. }
      now rewrite Hall.
  - assert (Hex : existsb decodes claimed = true).
    { destruct (existsb decodes claimed) eqn:E; [reflexivity|].
      apply filter_nil_existsb in E. congruence. }
    rewrite Hex. simpl.
    assert (Hfinal : forall st,
      exists r',
        nth_error (offline_queue (mark_where (fun _ => true) st claimed
                     (mark_where (fun item => negb (decodes item)) "failed" claimed db)))
                  i = Some r'
        /\ q_id r' = q_id r /\ payload r' = payload r
        /\ (~ In (q_id r) (map q_id claimed) -> r' = r)
        /\ (In (q_id r) (map q_id claimed) -> status r' = st)).
    { intros st.
      destruct (mark_where_row (fun _ => true) st claimed _ i r1 Hn1)
        as (r2 & Hn2 & Hid2 & Hp2 & _ & _ & Hin2 & Hout2).
      rewrite filter_true_id in Hin2, Hout2. rewrite Hid1 in Hin2, Hout2.
      exists r2. repeat split; try congruence.
      - intros Hnot. rewrite (Hout2 Hnot). apply Hout1.
        intros H. apply Hnot. now apply Hsub.
      - exact Hin2. }
    destruct (delivered post); apply Hfinal.
Qed.

Lemma NoDup_firstn {A : Type} (n : nat) (l : list A) :
  List.NoDup l -> List.NoDup (firstn n l).
Proof.
  intros H. rewrite <- (firstn_skipn n l) in H.
  now apply NoDup_app_remove_r in H.
Qed.

Lemma claimed_ids_NoDup (db : Db) (qt : option string) (st : string) (limit : Z) :
  List.NoDup (map q_id (offline_queue db)) ->
  List.NoDup (map q_id (get_queue_items db qt st limit)).
Proof.
  intros Hnd. rewrite get_queue_items_eq. unfold sql_limit.
  assert (Hs : List.NoDup (map q_id (sort_by queue_order
                 (List.filter (where_clause qt st) (offline_queue db))))).
  { eapply Permutation_NoDup.
    - symmetry. apply Permutation_map. apply sort_by_perm.
    - now apply NoDup_map_filter. }
  destruct (limit <? 0); [exact Hs|].
  rewrite <- firstn_map. now apply NoDup_firstn.
Qed.

Lemma sync_loop_prefix (post : Z -> http_outcome) (pre rest : list QueueItem) :
  forallb (processable decodes) pre = true ->
  match rest with
  | [] => True
  | bad :: _ => processable decodes bad = false
  end ->
  forall db,
    sync_command_results_loop decodes post (pre ++ rest) db
    = fold_left (fun acc item =>
                   update_queue_item acc (q_id item) (drain_outcome decodes post item) None)
                pre db.
Proof.
  intros Hpre Hrest. induction pre as [|it pre' IH]; intros db.
  - cbn [app fold_left]. destruct rest as [|bad post']; [reflexivity|].
    cbn [sync_command_results_loop].
    unfold processable in Hrest. apply orb_false_iff in Hrest.
    destruct Hrest as [Hd Hk]. apply negb_false_iff in Hd.
    now rewrite Hd, Hk.
  - cbn [forallb] in Hpre. apply andb_true_iff in Hpre.
    destruct Hpre as [Hit Hpre'].
    cbn [app fold_left sync_command_results_loop].
    unfold drain_outcome at 2. unfold processable in Hit.
    destruct (decodes it) eqn:Ed; cbn [negb orb andb] in *.
    + rewrite Hit. now apply IH.
    + now apply IH.
Qed.

Lemma drain_fold_row (g : QueueItem -> string) (items : list QueueItem) :
  List.NoDup (map q_id items) ->
  forall (db : Db) (i : nat) (r : QueueItem),
    nth_error (offline_queue db) i = Some r ->
    exists r',
      nth_error (offline_queue
                   (fold_left (fun acc item =>
                                 update_queue_item acc (q_id item) (g item) None)
                              items db)) i = Some r'
      /\ (forall it, In it items -> q_id it = q_id r -> r' = set_status_retry (g it) r)
      /\ (~ In (q_id r) (map q_id items) -> r' = r).
Proof.
  induction items as [|it rest IH]; intros Hnd db i r Hi; simpl.
  - exists r. split; [exact Hi|]. split; [intros it []|reflexivity].
  - simpl in Hnd. apply List.NoDup_cons_iff in Hnd. destruct Hnd as [Hit Hnd].
    destruct (q_id r =? q_id it) eqn:E.
    + apply Z.eqb_eq in E.
      destruct (IH Hnd (update_queue_item db (q_id it) (g it) None) i
                  (set_status_retry (g it) r)) as (r' & Hn & _ & Hout).
      { unfold update_queue_item. simpl.
        rewrite nth_error_update_where, Hi. simpl. now rewrite E, Z.eqb_refl. }
      exists r'. split; [exact Hn|]. split.
      * intros it' [<-|Hin] Hq.
        -- apply Hout. simpl. now rewrite E.
        -- exfalso. apply Hit. rewrite <- E, <- Hq. now apply in_map.
      * intros Hnot. exfalso. apply Hnot. left. congruence.
    + destruct (IH Hnd (update_queue_item db (q_id it) (g it) None) i r)
        as (r' & Hn & Hin & Hout).
      { unfold update_queue_item. simpl.
        rewrite nth_error_update_where, Hi. simpl. now rewrite E. }
      exists r'. split; [exact Hn|]. split.
      * intros it' [<-|Hin'] Hq; [apply Z.eqb_neq in E; congruence|now apply Hin].
      * intros Hnot. apply Hout. intros H. apply Hnot. now right.
Qed.

Lemma fold_update_ids (g : QueueItem -> string) (items : list QueueItem) :
  forall db : Db,
    map q_id (offline_queue
                (fold_left (fun acc item =>
                              update_queue_item acc (q_id item) (g item) None)
                           items db))
    = map q_id (offline_queue db).
Proof.
  induction items as [|it rest IH]; intros db; simpl; [reflexivity|].
  rewrite IH. unfold update_queue_item. simpl.
  unfold update_where. rewrite map_map. apply map_ext. intros r.
  now destruct (q_id r =? q_id it).
Qed.

(** X8. The sync worker's drain of command results never adds or removes a
    row, gives each item it gets past the status of its own POST (completed
    on 200, failed otherwise, failed when the payload does not decode) with
    one more retry, and stops at the first decodable payload that lacks
    [command_id] or [result]: that row and every row claimed after it are
    left exactly as they were. *)
Theorem sync_command_results_stops_at_malformed (post : Z -> http_outcome)
    (db : Db) (pre rest : list QueueItem) (i : nat) (r : QueueItem) :
  List.NoDup (map q_id (offline_queue db)) ->
  get_queue_items db (Some "command_result"%string) "pending" batch_size
  = pre ++ rest ->
  forallb (processable decodes) pre = true ->
  match rest with
  | [] => True
  | bad :: _ => processable decodes bad = false
  end ->
  nth_error (offline_queue db) i = Some r ->
  let db' := _sync_command_results decodes post db in
  map q_id (offline_queue db') = map q_id (offline_queue db)
  /\ exists r',
      nth_error (offline_queue db') i = Some r'
      /\ (In r pre ->
          status r' = drain_outcome decodes post r
          /\ retry_count r' = retry_count r + 1
          /\ payload r' = payload r)
      /\ (~ In r pre -> r' = r).
Proof.
  intros Hnd Hclaimed Hpre Hrest Hi db'. subst db'.
  unfold _sync_command_results. rewrite Hclaimed.
  rewrite (sync_loop_prefix post pre rest Hpre Hrest).
  split; [apply fold_update_ids|].
  assert (Hsub : forall it, In it pre -> In it (offline_queue db)).
  { intros it Hit. apply (get_queue_items_In db (Some "command_result"%string)
                            "pending" batch_size).
    rewrite Hclaimed. apply in_or_app. now left. }
  assert (Hndpre : List.NoDup (map q_id pre)).
  { pose proof (claimed_ids_NoDup db (Some "command_result"%string) "pending"
                  batch_size Hnd) as H.
    rewrite Hclaimed, map_app in H. now apply NoDup_app_remove_r in H. }
  destruct (drain_fold_row (drain_outcome decodes post) pre Hndpre db i r Hi)
    as (r' & Hn & Hin & Hout).
  exists r'. split; [exact Hn|]. split.
  - intros Hr. rewrite (Hin r Hr eq_refl). simpl. repeat split.
  - intros Hnot. apply Hout. intros Hid.
    apply in_map_iff in Hid. destruct Hid as (it & Hq & Hit).
    apply Hnot.
    assert (it = r); [|now subst].
    apply (NoDup_map_injective q_id (offline_queue db)); auto.
    eapply nth_error_In; eauto.
Qed.

End Decoding.

Lemma sync_batch_all_or_nothing_witness :
  let claimed := get_queue_items sample_db (Some "telemetry"%string) "pending"
                   batch_size in
  exists r',
    nth_error (offline_queue
                 (sync_batch always_decodes "telemetry" sample_db (Response 200))) 0
    = Some r'
    /\ q_id r' = q_id (sample_row 1 "telemetry" 1 100 0 "pending")
    /\ payload r' = payload (sample_row 1 "telemetry" 1 100 0 "pending")
    /\ (~ In (q_id (sample_row 1 "telemetry" 1 100 0 "pending")) (map q_id claimed) ->
        r' = sample_row 1 "telemetry" 1 100 0 "pending")
    /\ (In (q_id (sample_row 1 "telemetry" 1 100 0 "pending")) (map q_id claimed) ->
        status r'
        = if existsb always_decodes claimed && delivered (Response 200)
          then "completed"%string else "failed"%string).
Proof.
  apply (sync_batch_all_or_nothing always_decodes "telemetry" sample_db
           (Response 200) 0 (sample_row 1 "telemetry" 1 100 0 "pending")).
  reflexivity.
Defined.

Lemma sync_command_results_stops_at_malformed_witness :
  let r := result_row 3 1 [("command_id", JStr "c3"); ("result", JObj [])] in
  let pre := [result_row 1 3 [("command_id", JStr "c1"); ("result", JObj [])]] in
  let db' := _sync_command_results always_decodes (fun _ => Response 200) blocked_db in
  map q_id (offline_queue db') = map q_id (offline_queue blocked_db)
  /\ exists r',
      nth_error (offline_queue db') 2 = Some r'
      /\ (In r pre ->
          status r' = drain_outcome always_decodes (fun _ => Response 200) r
          /\ retry_count r' = retry_count r + 1
          /\ payload r' = payload r)
      /\ (~ In r pre -> r' = r).
Proof.
  apply (sync_command_results_stops_at_malformed always_decodes
           (fun _ => Response 200) blocked_db
           [result_row 1 3 [("command_id", JStr "c1"); ("result", JObj [])]]
           [result_row 2 2 [("command_id", JStr "c2")];
            result_row 3 1 [("command_id", JStr "c3"); ("result", JObj [])]]
           2 (result_row 3 1 [("command_id", JStr "c3"); ("result", JObj [])])).
  - simpl. repeat (constructor; [simpl; intuition discriminate|]). constructor.
  - reflexivity.
  - reflexivity.
  - reflexivity.
  - reflexivity.
Defined.

Lemma sum_values_incr (m : gmap string nat) (k : string) :
  sum_values (<[k := S (default 0%nat (m !! k))]> m) = S (sum_values m).
Proof.
  unfold sum_values.
  destruct (m !! k) as [v|] eqn:E; simpl.
  - rewrite <- insert_delete_eq.
    rewrite map_fold_insert_L.
    + rewrite (map_fold_delete_L _ _ k v m); [lia| |exact E].
      intros; lia.
    + intros; lia.
    + apply lookup_delete_eq.
  - rewrite map_fold_insert_L; [lia| |exact E].
    intros; lia.
Qed.

Lemma count_by_fold (keys : list string) :
  forall m : gmap string nat,
    sum_values (fold_left (fun m k => <[k := S (default 0%nat (m !! k))]> m) keys m)
    = (length keys + sum_values m)%nat
    /\ forall k, default 0%nat
                   (fold_left (fun m k => <[k := S (default 0%nat (m !! k))]> m) keys m
                    !! k)
                 = (count_occ string_dec keys k + default 0%nat (m !! k))%nat.
Proof.
  induction keys as [|x t IH]; intros m; simpl.
  - split; [reflexivity|]. intros k. reflexivity.
  - destruct (IH (<[x := S (default 0%nat (m !! x))]> m)) as [Hs Hc]. split.
    + rewrite Hs, sum_values_incr. lia.
    + intros k. rewrite Hc. destruct (string_dec x k) as [->|Hne].
      * rewrite lookup_insert_eq. simpl. lia.
      * rewrite lookup_insert_ne by exact Hne. reflexivity.
Qed.

Lemma count_occ_map_filter {A : Type} (f : A -> string) (l : list A) (k : string) :
  count_occ string_dec (map f l) k
  = length (List.filter (fun r => String.eqb (f r) k) l).
Proof.
  induction l as [|r t IH]; [reflexivity|].
  cbn [map count_occ List.filter].
  destruct (string_dec (f r) k) as [Heq|Hne].
  - rewrite Heq, String.eqb_refl. cbn [length]. now rewrite IH.
  - apply String.eqb_neq in Hne. now rewrite Hne.
Qed.

(** X10. [get_queue_status] accounts for every row: [total_items] is the
    number of rows, the count reported for a status is the number of rows
    with that status, and the counts by type add up to the number of
    pending rows. *)
Theorem queue_status_counts_every_row (w : Worker) (db : Db) :
  let s := get_queue_status w db in
  total_items s = length (offline_queue db)
  /\ (forall st, default 0%nat (status_counts s !! st)
                 = length (List.filter (fun r => String.eqb (status r) st)
                                       (offline_queue db)))
  /\ sum_values (pending_by_type s)
     = length (List.filter (fun r => String.eqb (status r) "pending")
                           (offline_queue db)).
Proof.
  cbn [total_items status_counts pending_by_type get_queue_status].
  unfold count_by.
  assert (H0 : sum_values (∅ : gmap string nat) = 0%nat).
  { unfold sum_values. apply map_fold_empty. }
  split; [|split].
  - destruct (count_by_fold (map status (offline_queue db)) ∅) as [Hs _].
    rewrite Hs, length_map, H0. lia.
  - intros st.
    destruct (count_by_fold (map status (offline_queue db)) ∅) as [_ Hc].
    rewrite Hc, lookup_empty. cbn [default]. rewrite Nat.add_0_r.
    apply count_occ_map_filter.
  - destruct (count_by_fold
                (map queue_type
                   (List.filter (fun r => String.eqb (status r) "pending")
                                (offline_queue db))) ∅) as [Hs _].
    rewrite Hs, length_map, H0. lia.
Qed.

(** X9. [cleanup_old_items] deletes nothing but completed and failed rows
    that compare older than the cutoff: every row in another status
    survives, survivors are unchanged, and the id counter stays, so ids of
    deleted rows are not given out again. *)
Theorem cleanup_old_items_keeps_live_rows (created_before : Z -> Z -> bool)
    (db : Db) (days now : Z) :
  let db' := cleanup_old_items created_before db days now in
  (forall r, In r (offline_queue db') -> In r (offline_queue db))
  /\ (forall r, In r (offline_queue db) ->
      status r <> "completed"%string -> status r <> "failed"%string ->
      In r (offline_queue db'))
  /\ (forall r, In r (offline_queue db) -> ~ In r (offline_queue db') ->
      (status r = "completed"%string \/ status r = "failed"%string)
      /\ created_before (created_at r) (now - days * 86400) = true)
  /\ offline_queue_seq db' = offline_queue_seq db
  /\ (queue_wf db -> queue_wf db').
Proof.
  unfold cleanup_old_items.
  cbn [offline_queue with_offline_queue offline_queue_seq].
  set (keep := fun r : QueueItem =>
                 negb (str_in (status r) ["completed"; "failed"]
                       && created_before (created_at r) (now - days * 86400))).
  split; [|split; [|split; [|split]]].
  - intros r Hr. apply filter_In in Hr. tauto.
  - intros r Hr Hc Hf. apply filter_In. split; [exact Hr|].
    unfold keep. simpl. apply String.eqb_neq in Hc, Hf.
    rewrite Hc, Hf. reflexivity.
  - intros r Hr Hnot.
    destruct (keep r) eqn:E.
    + exfalso. apply Hnot. apply filter_In. now split.
    + unfold keep in E. apply negb_false_iff, andb_true_iff in E.
      destruct E as [E1 E2]. split; [|exact E2].
      simpl in E1. rewrite !orb_true_iff, !String.eqb_eq in E1.
      intuition discriminate.
  - reflexivity.
  - intros [Hnd Hle]. split; cbn [offline_queue with_offline_queue offline_queue_seq].
    + now apply NoDup_map_filter.
    + rewrite List.Forall_forall in *. intros r Hr.
      apply filter_In in Hr. now apply Hle.
Qed.

End SyncWorker.

(** ** The outcome of one command *)

Section CommandOutcome.
Import Database CommandProcessor.

Lemma filter_complement {A : Type} (p : A -> bool) (l : list A) :
  List.filter p (List.filter (fun x => negb (p x)) l) = [].
Proof.
  induction l as [|x t IH]; [reflexivity|]. cbn [List.filter].
  destruct (p x) eqn:E; cbn [negb]; [exact IH|].
  cbn [List.filter]. now rewrite E.
Qed.

Lemma filter_twice {A : Type} (p : A -> bool) (l : list A) :
  List.filter p (List.filter p l) = List.filter p l.
Proof.
  induction l as [|x t IH]; [reflexivity|]. cbn [List.filter].
  destruct (p x) eqn:E; [|exact IH].
  cbn [List.filter]. rewrite E. now rewrite IH.
Qed.

Section Host.
Variable World : Type.
Variable handler : string -> dict -> World -> handler_result * World.

Lemma update_after_record (db : Db) (cid ctype : string) (params : dict)
    (s : string) (res : dict) (now : Z) :
  command_history
    (_update_command_status
       (_record_command db cid ctype params "received" now) cid s res now)
  = List.filter (fun r => negb (String.eqb (command_id r) cid)) (command_history db)
    ++ [final_record (command_history_seq db) cid ctype params s res now].
Proof.
  unfold _update_command_status, _record_command, final_record.
  cbn [command_history with_command_history].
  rewrite map_app. cbn [map command_id].
  rewrite String.eqb_refl. f_equal.
  rewrite <- (map_id (List.filter _ _)) at 2. apply map_ext_in.
  intros r Hr. apply filter_In in Hr. destruct Hr as [_ Hr].
  apply negb_true_iff in Hr. now rewrite Hr.
Qed.

Lemma send_after_update (cfg : Config) (db : Db) (cid ctype : string)
    (params : dict) (s : string) (res : dict) (post : http_outcome) (now : Z) :
  offline_queue
    (_send_command_result cfg
       (_update_command_status
          (_record_command db cid ctype params "received" now) cid s res now)
       (JStr cid) (JObj res) post now)
  = offline_queue (_send_command_result cfg db (JStr cid) (JObj res) post now).
Proof.
  rewrite !send_command_result_rows. destruct (post_failed cfg post); reflexivity.
Qed.

Lemma send_keeps_history (cfg : Config) (db : Db) (cid result : json)
    (post : http_outcome) (now : Z) :
  command_history (_send_command_result cfg db cid result post now)
  = command_history db.
Proof.
  rewrite send_command_result_rows. now destruct (post_failed cfg post).
Qed.

(** What [_process_command] does with a command that carries an id and a
    type. *)
Lemma process_command_outcome (cfg : Config) (st : State World) (c : Command)
    (post : http_outcome) (now : Z) (cid ctype : string) :
  c_id c = Some cid -> cid <> ""%string ->
  c_type c = Some ctype -> ctype <> ""%string ->
  let params := default [] (c_parameters c) in
  let outcome := command_outcome handler ctype params (world st) in
  let st' := _process_command handler cfg st c post now in
  command_history (db st')
  = List.filter (fun r => negb (String.eqb (command_id r) cid))
                (command_history (db st))
    ++ [final_record (command_history_seq (db st)) cid ctype params
          (fst (fst outcome)) (snd (fst outcome)) now]
  /\ world st' = snd outcome
  /\ handler_calls st'
     = handler_calls st
       ++ (if str_in ctype command_handlers then [(cid, ctype)] else [])
  /\ offline_queue (db st')
     = offline_queue
         (_send_command_result cfg (db st) (JStr cid) (JObj (snd (fst outcome)))
            post now).
Proof.
  intros Hid Hidne Hty Htyne params outcome st'.
  subst st' outcome params.
  assert (Hd1 : default ""%string (c_id c) = cid) by now rewrite Hid.
  assert (Hd2 : default ""%string (c_type c) = ctype) by now rewrite Hty.
  unfold _process_command, _execute_command, command_outcome.
  rewrite Hd1, Hd2, Hid, Hty. cbn [truthy_opt_str]. unfold truthy_str.
  apply String.eqb_neq in Hidne, Htyne. rewrite Hidne, Htyne.
  cbn [negb orb].
  set (known := str_in ctype command_handlers).
  set (params := default [] (c_parameters c)).
  cbn [db world handler_calls].
  destruct known.
  - destruct (handler ctype params (world st)) as [[result|msg] w];
      cbn [db world handler_calls fst snd].
    all: rewrite send_keeps_history, update_after_record, send_after_update; auto.
  - cbn [db world handler_calls fst snd].
    rewrite send_keeps_history, update_after_record, send_after_update.
    rewrite app_nil_r. auto.
Qed.

Lemma command_outcome_terminal (ctype : string) (params : dict) (w : World) :
  let s := fst (fst (command_outcome handler ctype params w)) in
  s = "completed"%string \/ s = "failed"%string.
Proof.
  unfold command_outcome.
  destruct (str_in ctype command_handlers); [|now right].
  destruct (handler ctype params w) as [[r|m] w']; [now left|now right].
Qed.

(** X11. A command that carries an id and a type never stays in status
    received: after [_process_command] the history holds exactly one row
    with its id, that row is completed when the handler returned and failed
    otherwise (handler raised, or no handler of that type), it carries a
    result and a completion time, and the rows of other commands are
    untouched. *)
Theorem process_command_reaches_terminal_status (cfg : Config) (st : State World)
    (c : Command) (post : http_outcome) (now : Z) (cid ctype : string) :
  c_id c = Some cid -> cid <> ""%string ->
  c_type c = Some ctype -> ctype <> ""%string ->
  let st' := _process_command handler cfg st c post now in
  (exists r,
     List.filter (fun x => String.eqb (command_id x) cid) (command_history (db st'))
     = [r]
     /\ (cmd_status r = "completed"%string \/ cmd_status r = "failed"%string)
     /\ (cmd_status r = "completed"%string <->
         str_in ctype command_handlers = true
         /\ exists res, fst (handler ctype (default [] (c_parameters c)) (world st))
                        = Returned res /\ cmd_result r = Some res)
     /\ cmd_result r <> None /\ completed_at r = Some now)
  /\ List.filter (fun x => negb (String.eqb (command_id x) cid))
                 (command_history (db st'))
     = List.filter (fun x => negb (String.eqb (command_id x) cid))
                   (command_history (db st)).
Proof.
  intros Hid Hidne Hty Htyne st'.
  destruct (process_command_outcome cfg st c post now cid ctype Hid Hidne Hty Htyne)
    as (Hh & _ & _ & _).
  fold st' in Hh. rewrite Hh. clear Hh.
  set (params := default [] (c_parameters c)).
  set (old := command_history (db st)).
  pose proof (filter_complement (fun x => String.eqb (command_id x) cid) old) as Hno.
  pose proof (filter_twice (fun x => negb (String.eqb (command_id x) cid)) old) as Hyes.
  split.
  - eexists. rewrite List.filter_app, Hno. cbn [List.filter final_record command_id app].
    rewrite String.eqb_refl. split; [reflexivity|].
    cbn [cmd_status cmd_result completed_at].
    split; [apply command_outcome_terminal|].
    split; [|split; [discriminate|reflexivity]].
    unfold command_outcome. fold params.
    destruct (str_in ctype command_handlers).
    + destruct (handler ctype params (world st)) as [[res|msg] w]; cbn [fst snd].
      * split; [intros _; split; [reflexivity|now exists res]|reflexivity].
      * split; [discriminate|]. intros [_ (res & Hres & _)]. discriminate.
    + cbn [fst snd]. split; [discriminate|]. intros [H _]. discriminate.
  - rewrite List.filter_app, Hyes. cbn [List.filter final_record command_id].
    rewrite String.eqb_refl. cbn [negb]. now rewrite app_nil_r.
Qed.

(** X12. A command whose type has no handler is refused without any effect
    on the host: no handler is called, the host is as before, and the
    command is recorded as failed with the error text naming the type;
    its result is reported like any other. *)
Theorem unknown_command_type_is_refused (cfg : Config) (st : State World)
    (c : Command) (post : http_outcome) (now : Z) (cid ctype : string) :
  c_id c = Some cid -> cid <> ""%string ->
  c_type c = Some ctype -> ctype <> ""%string ->
  str_in ctype command_handlers = false ->
  let st' := _process_command handler cfg st c post now in
  let err := error_result ("Unknown command type: " +:+ ctype) in
  world st' = world st
  /\ handler_calls st' = handler_calls st
  /\ In (final_record (command_history_seq (db st)) cid ctype
           (default [] (c_parameters c)) "failed" err now)
        (command_history (db st'))
  /\ offline_queue (db st')
     = offline_queue (_send_command_result cfg (db st) (JStr cid) (JObj err) post now).
Proof.
  intros Hid Hidne Hty Htyne Hunknown st' err.
  destruct (process_command_outcome cfg st c post now cid ctype Hid Hidne Hty Htyne)
    as (Hh & Hw & Hc & Hq).
  fold st' in Hh, Hw, Hc, Hq.
  unfold command_outcome in Hh, Hw, Hq. rewrite Hunknown in Hh, Hw, Hc, Hq.
  cbn [fst snd] in Hh, Hw, Hq.
  split; [exact Hw|]. split; [now rewrite Hc, app_nil_r|].
  split; [|exact Hq].
  rewrite Hh. apply in_or_app. right. now left.
Qed.

(** X14. Commands without an id or without a type are skipped: a poll
    response is processed exactly as the same response with those commands
    removed. *)
Theorem malformed_commands_are_skipped (cfg : Config) (now : Z) (st : State World)
    (commands : list (Command * http_outcome)) :
  process_commands handler cfg now st commands
  = process_commands handler cfg now st
      (List.filter (fun cp => well_formed (fst cp)) commands).
Proof.
  unfold process_commands. revert st.
  induction commands as [|[c post] rest IH]; intros st; [reflexivity|].
  cbn [List.filter fst]. destruct (well_formed c) eqn:E.
  - cbn [fold_left]. apply IH.
  - cbn [fold_left fst snd]. rewrite <- IH. f_equal.
    unfold _process_command. unfold well_formed in E.
    destruct (truthy_opt_str (c_id c)), (truthy_opt_str (c_type c));
      try discriminate; reflexivity.
Qed.

End Host.

(** X13. The isolate and get_logs handlers never succeed and never touch
    the host, whatever the rest of their bodies would do: for every value
    of [parameters] they raise, with the AttributeError of a missing [get]
    when [parameters] is no dictionary (as JSON null) and with the
    NameError of the unbound name [Path] when it is one. So a command of
    one of these two types that carries a dictionary, or no parameters at
    all, leaves the host as it was and is recorded as failed with that
    NameError. *)
Theorem isolate_and_get_logs_always_fail (World : Type)
    (isolate_files : json -> World -> handler_result * World)
    (read_logs : json -> json -> World -> handler_result * World)
    (handler : string -> dict -> World -> handler_result * World)
    (parameters : json) (w : World)
    (cfg : Config) (st : State World)
    (c : Command) (post : http_outcome) (now : Z) (cid ctype : string) :
  _handle_isolate_command World isolate_files parameters w
  = (Raised (path_handler_error parameters), w)
  /\ _handle_get_logs_command World read_logs parameters w
     = (Raised (path_handler_error parameters), w)
  /\ (c_id c = Some cid -> cid <> ""%string ->
      c_type c = Some ctype ->
      ctype = "isolate"%string \/ ctype = "get_logs"%string ->
      let st' := _process_command
                   (with_pathless_handlers World isolate_files read_logs handler)
                   cfg st c post now in
      world st' = world st
      /\ In (final_record (command_history_seq (db st)) cid ctype
               (default [] (c_parameters c)) "failed"
               (error_result (name_error "Path")) now)
            (command_history (db st'))
      /\ forall r, In r (command_history (db st')) -> command_id r = cid ->
                   cmd_status r = "failed"%string).
Proof.
  assert (Hiso : forall p w0,
             _handle_isolate_command World isolate_files p w0
             = (Raised (path_handler_error p), w0)).
  { intros p w0. unfold _handle_isolate_command, attr_get.
    destruct p; reflexivity. }
  assert (Hlogs : forall p w0,
             _handle_get_logs_command World read_logs p w0
             = (Raised (path_handler_error p), w0)).
  { intros p w0. unfold _handle_get_logs_command, attr_get.
    destruct p; reflexivity. }
  split; [apply Hiso|]. split; [apply Hlogs|].
  intros Hid Hidne Hty Hkind st'.
  assert (Htyne : ctype <> ""%string) by (destruct Hkind; subst; discriminate).
  destruct (process_command_outcome World
              (with_pathless_handlers World isolate_files read_logs handler)
              cfg st c post now cid ctype Hid Hidne Hty Htyne)
    as (Hh & Hw & _ & _).
  fold st' in Hh, Hw.
  assert (Hout : command_outcome
                   (with_pathless_handlers World isolate_files read_logs handler)
                   ctype (default [] (c_parameters c)) (world st)
                 = ("failed"%string, error_result (name_error "Path"), world st)).
  { unfold command_outcome, with_pathless_handlers.
    destruct Hkind; subst ctype; cbn [str_in existsb String.eqb Ascii.eqb
                                      Bool.eqb orb command_handlers];
      [rewrite Hiso|rewrite Hlogs]; reflexivity. }
  rewrite Hout in Hh, Hw. cbn [fst snd] in Hh, Hw.
  split; [exact Hw|]. rewrite Hh. split.
  - apply in_or_app. right. now left.
  - intros r Hin Hr. apply in_app_or in Hin. destruct Hin as [Hin|[<-|[]]].
    + apply filter_In in Hin. destruct Hin as [_ Hin].
      apply negb_true_iff, String.eqb_neq in Hin. contradiction.
    + reflexivity.
Qed.

Lemma process_command_reaches_terminal_status_witness :
  let st' := _process_command trivial_handler online fresh_state get_status_c1
               (Response 200) 1000 in
  (exists r,
     List.filter (fun x => String.eqb (command_id x) "c1") (command_history (db st'))
     = [r]
     /\ (cmd_status r = "completed"%string \/ cmd_status r = "failed"%string)
     /\ (cmd_status r = "completed"%string <->
         str_in "get_status" command_handlers = true
         /\ exists res, fst (trivial_handler "get_status"
                               (default [] (c_parameters get_status_c1))
                               (world fresh_state))
                        = Returned res /\ cmd_result r = Some res)
     /\ cmd_result r <> None /\ completed_at r = Some 1000)
  /\ List.filter (fun x => negb (String.eqb (command_id x) "c1"))
                 (command_history (db st'))
     = List.filter (fun x => negb (String.eqb (command_id x) "c1"))
                   (command_history (db fresh_state)).
Proof.
  apply (process_command_reaches_terminal_status unit trivial_handler online
           fresh_state get_status_c1 (Response 200) 1000 "c1" "get_status");
    solve [reflexivity | discriminate].
Defined.

Lemma unknown_command_type_is_refused_witness :
  let st' := _process_command trivial_handler online fresh_state wipe_c3
               (Response 503) 1000 in
  let err := error_result ("Unknown command type: " +:+ "wipe") in
  world st' = world fresh_state
  /\ handler_calls st' = handler_calls fresh_state
  /\ In (final_record (command_history_seq (db fresh_state)) "c3" "wipe"
           (default [] (c_parameters wipe_c3)) "failed" err 1000)
        (command_history (db st'))
  /\ offline_queue (db st')
     = offline_queue (_send_command_result online (db fresh_state) (JStr "c3")
                        (JObj err) (Response 503) 1000).
Proof.
  apply (unknown_command_type_is_refused unit trivial_handler online fresh_state
           wipe_c3 (Response 503) 1000 "c3" "wipe");
    solve [reflexivity | discriminate].
Defined.

Lemma isolate_and_get_logs_always_fail_witness :
  let st' := _process_command
               (with_pathless_handlers unit isolate_succeeds read_logs_succeeds
                  trivial_handler)
               online fresh_state isolate_c2 (Response 200) 1000 in
  world st' = world fresh_state
  /\ In (final_record (command_history_seq (db fresh_state)) "c2" "isolate"
           (default [] (c_parameters isolate_c2)) "failed"
           (error_result (name_error "Path")) 1000)
        (command_history (db st'))
  /\ forall r, In r (command_history (db st')) -> command_id r = "c2"%string ->
               cmd_status r = "failed"%string.
Proof.
  apply (proj2 (proj2 (isolate_and_get_logs_always_fail unit isolate_succeeds
                         read_logs_succeeds trivial_handler JNull tt online
                         fresh_state isolate_c2 (Response 200) 1000
                         "c2" "isolate")));
    solve [reflexivity | discriminate | left; reflexivity].
Defined.

End CommandOutcome.

(** ** More on the alert dispatcher *)

Section AlertDispatcher.
Import Database AlertManager.

Lemma should_send_alert_invariant (c t0 now : Z)
    (acc : Manager * list (string * Z)) (et sev : string) :
  0 <= c -> t0 <= now ->
  checks_invariant c t0 acc ->
  let r := _should_send_alert (fst acc) et sev now in
  checks_invariant c now
    (snd r, snd acc ++ (if fst r then [(alert_key et sev, now)] else [])).
Proof.
  intros Hc Hnow (Hcd & Hws & Hlog & Hmap). destruct acc as [m log].
  cbn [fst snd] in *.
  assert (Hgrant :
    (forall t', In (alert_key et sev, t') log -> c <= now - t') ->
    checks_invariant c now
      ({| alert_cooldown := alert_cooldown m;
          last_alerts := <[alert_key et sev := now]> (last_alerts m) |},
       log ++ [(alert_key et sev, now)])).
  { intros Hsep. unfold checks_invariant. cbn [fst snd alert_cooldown last_alerts].
    split; [exact Hcd|]. split; [now constructor|]. split.
    - intros k t Hin. apply in_app_or in Hin.
      destruct Hin as [Hin|[[= <- <-]|[]]].
      + destruct (decide (alert_key et sev = k)) as [<-|Hne].
        * exists now. rewrite lookup_insert_eq. split; [reflexivity|].
          destruct (Hlog _ _ Hin) as (last & Hl & Ht).
          specialize (Hmap _ _ Hl). lia.
        * rewrite lookup_insert_ne by exact Hne. now apply Hlog.
      + exists now. rewrite lookup_insert_eq. split; [reflexivity|lia].
    - intros k last. destruct (decide (alert_key et sev = k)) as [<-|Hne].
      + rewrite lookup_insert_eq. intros [= <-]. lia.
      + rewrite lookup_insert_ne by exact Hne. intros Hl.
        specialize (Hmap _ _ Hl). lia. }
  unfold _should_send_alert.
  destruct (last_alerts m !! alert_key et sev) as [last|] eqn:El.
  - destruct (now - last <? alert_cooldown m) eqn:Ecd; cbn [fst snd].
    + rewrite app_nil_r. unfold checks_invariant. cbn [fst snd].
      repeat split; try assumption.
      intros k l Hl. specialize (Hmap _ _ Hl). lia.
    + apply Hgrant. intros t' Hin.
      destruct (Hlog _ _ Hin) as (last' & Hl & Ht).
      rewrite El in Hl. injection Hl as <-.
      apply Z.ltb_ge in Ecd. lia.
  - cbn [fst snd]. apply Hgrant. intros t' Hin.
    destruct (Hlog _ _ Hin) as (last' & Hl & _). congruence.
Qed.

(** X15. The cooldown check spaces what it grants: starting from an empty
    [last_alerts], with a cooldown that is not negative and a clock that
    does not go back, any two checks that [_should_send_alert] grants
    under one dedup key are at least [alert_cooldown] apart, in the
    readings of the clock the checks themselves make, whatever other
    checks are made and refused in between. *)
Theorem granted_checks_honour_cooldown (c t0 : Z)
    (checks : list (string * string * Z)) :
  0 <= c ->
  clock_from t0 checks ->
  cooldown_honoured c
    (snd (run_checks {| alert_cooldown := c; last_alerts := ∅ |} checks)).
Proof.
  intros Hc Hclock. apply well_spaced_honoured. unfold run_checks.
  assert (Hinv : checks_invariant c t0
                   ({| alert_cooldown := c; last_alerts := ∅ |}, [])).
  { unfold checks_invariant. cbn [fst snd alert_cooldown last_alerts].
    split; [reflexivity|]. split; [constructor|]. split.
    - intros k t [].
    - intros k last. rewrite lookup_empty. discriminate. }
  revert Hinv Hclock.
  generalize ({| alert_cooldown := c; last_alerts := ∅ |}, @nil (string * Z)).
  revert t0.
  induction checks as [|[[et sev] now] rest IH]; intros t0 acc Hinv Hclock.
  - cbn [fold_left]. now destruct Hinv as (_ & Hws & _).
  - cbn [fold_left fst snd]. destruct Hclock as [Hle Hrest]. cbn [snd] in Hle, Hrest.
    apply (IH now); [|exact Hrest].
    now apply should_send_alert_invariant with t0.
Qed.

Lemma should_send_alert_refuses (m : Manager) (et sev : string) (last t : Z) :
  last_alerts m !! alert_key et sev = Some last ->
  t - last < alert_cooldown m ->
  _should_send_alert m et sev t = (false, m).
Proof.
  intros Hl Ht. unfold _should_send_alert. rewrite Hl.
  destruct (t - last <? alert_cooldown m) eqn:E; [reflexivity|].
  apply Z.ltb_ge in E. lia.
Qed.

(** X16. Refused checks do not postpone the next alert: while the cooldown
    of a key runs, every check is refused and leaves the dispatcher as it
    was, so the first check made once the cooldown has passed since the
    last emission is granted and becomes the new reference time, however
    many checks were refused in between. *)
Theorem refused_checks_keep_the_window (m : Manager) (et sev : string)
    (last : Z) (attempts : list Z) (now : Z) :
  last_alerts m !! alert_key et sev = Some last ->
  List.Forall (fun t => t - last < alert_cooldown m) attempts ->
  alert_cooldown m <= now - last ->
  let m' := check_all m et sev attempts in
  m' = m
  /\ List.Forall (fun t => fst (_should_send_alert m et sev t) = false) attempts
  /\ fst (_should_send_alert m' et sev now) = true
  /\ last_alerts (snd (_should_send_alert m' et sev now)) !! alert_key et sev
     = Some now.
Proof.
  intros Hl Hall Hnow m'.
  assert (Hm : m' = m).
  { subst m'. unfold check_all.
    induction Hall as [|t rest Ht _ IH]; [reflexivity|].
    cbn [fold_left]. rewrite (should_send_alert_refuses m et sev last t Hl Ht).
    exact IH. }
  split; [exact Hm|]. split.
  - revert Hall. apply List.Forall_impl. intros t Ht.
    now rewrite (should_send_alert_refuses m et sev last t Hl Ht).
  - rewrite Hm. unfold _should_send_alert. rewrite Hl.
    destruct (now - last <? alert_cooldown m) eqn:E;
      [apply Z.ltb_lt in E; lia|].
    cbn [fst snd last_alerts]. split; [reflexivity|apply lookup_insert_eq].
Qed.

(** *** What a pass leaves alone *)

Lemma resolved_later_refl (l : list SecurityEvent) : Forall2 resolved_later l l.
Proof.
  induction l as [|e t IH]; constructor; [|exact IH].
  unfold resolved_later. tauto.
Qed.

Lemma resolved_later_mark (l0 l : list SecurityEvent) (event_id : Z) :
  Forall2 resolved_later l0 l ->
  Forall2 resolved_later l0
    (map (fun e =>
            if ev_id e =? event_id then
              {| ev_id := ev_id e; event_type := event_type e;
                 severity := severity e; description := description e;
                 file_path := file_path e; process_name := process_name e;
                 details := details e; timestamp := timestamp e;
                 resolved := true |}
            else e) l).
Proof.
  induction 1 as [|a b l0 l Hab _ IH]; cbn [map]; constructor; [|exact IH].
  destruct (ev_id b =? event_id); [|exact Hab].
  unfold resolved_later in *. cbn. tauto.
Qed.

Lemma pass_frame_refl (now : Z) (s : Manager * Db) : pass_frame now s s.
Proof.
  unfold pass_frame. repeat (split; [reflexivity|]).
  split; [apply resolved_later_refl|].
  exists []. rewrite app_nil_r. split; [reflexivity|constructor].
Qed.

Section Rendering.
Variable render_event : SecurityEvent -> string.
Variable render_command : CommandRecord -> string.

Lemma process_security_event_frame (now : Z) (s0 s : Manager * Db)
    (event : SecurityEvent) :
  pass_frame now s0 s ->
  pass_frame now s0 (_process_security_event render_event s event now).
Proof.
  intros (Hc & Hq & Hqs & Hh & Hb & He & sent & Ha & Hs).
  unfold _process_security_event, _should_send_alert.
  destruct (last_alerts (fst s) !! alert_key (event_type event) (severity event))
    as [last|]; [destruct (now - last <? alert_cooldown (fst s))|].
  - unfold pass_frame. cbn [fst snd]. repeat (split; [assumption|]).
    now exists sent.
  - unfold pass_frame. cbn [fst snd alert_cooldown].
    unfold _mark_event_resolved, _send_alert, _record_alert. cbn.
    repeat (split; [assumption|]).
    split; [now apply resolved_later_mark|].
    eexists. rewrite Ha, <- app_assoc. split; [reflexivity|].
    apply List.Forall_app. split; [exact Hs|]. repeat constructor.
  - unfold pass_frame. cbn [fst snd alert_cooldown].
    unfold _mark_event_resolved, _send_alert, _record_alert. cbn.
    repeat (split; [assumption|]).
    split; [now apply resolved_later_mark|].
    eexists. rewrite Ha, <- app_assoc. split; [reflexivity|].
    apply List.Forall_app. split; [exact Hs|]. repeat constructor.
Qed.

Lemma process_command_event_frame (now : Z) (s0 s : Manager * Db)
    (command : CommandRecord) :
  pass_frame now s0 s ->
  pass_frame now s0 (_process_command_event render_command s command now).
Proof.
  intros (Hc & Hq & Hqs & Hh & Hb & He & sent & Ha & Hs).
  unfold _process_command_event.
  destruct (negb (str_in (command_type command) _)).
  - unfold pass_frame. repeat (split; [assumption|]).
    now exists sent.
  - unfold pass_frame. cbn [fst snd].
    unfold _send_alert, _record_alert. cbn.
    repeat (split; [assumption|]).
    eexists. rewrite Ha, <- app_assoc. split; [reflexivity|].
    apply List.Forall_app. split; [exact Hs|]. repeat constructor.
Qed.

Lemma fold_frame {A : Type} (now : Z) (f : Manager * Db -> A -> Manager * Db)
    (l : list A) (s0 : Manager * Db) :
  (forall s a, pass_frame now s0 s -> pass_frame now s0 (f s a)) ->
  forall s, pass_frame now s0 s -> pass_frame now s0 (fold_left f l s).
Proof.
  intros Hf. induction l as [|a t IH]; intros s Hs; [exact Hs|].
  cbn [fold_left]. apply IH, Hf, Hs.
Qed.

(** X17. A pass of the dispatcher only raises [resolved] flags and appends
    [alert_sent] rows stamped with the time of the pass: the queue, the
    command history and the backup records are as before, every security
    event keeps its id and its content, no resolved event becomes
    unresolved, no audit row is removed or altered, and the cooldown
    setting is kept. *)
Theorem pending_alerts_pass_frame (s : Manager * Db) (now : Z) :
  let s' := _process_pending_alerts render_event render_command s now in
  alert_cooldown (fst s') = alert_cooldown (fst s)
  /\ offline_queue (snd s') = offline_queue (snd s)
  /\ offline_queue_seq (snd s') = offline_queue_seq (snd s)
  /\ command_history (snd s') = command_history (snd s)
  /\ backup_records (snd s') = backup_records (snd s)
  /\ Forall2 resolved_later (security_events (snd s)) (security_events (snd s'))
  /\ exists sent,
       audit_log (snd s') = audit_log (snd s) ++ sent
       /\ List.Forall (fun a => action a = "alert_sent"%string
                                /\ audit_timestamp a = now) sent.
Proof.
  intros s'. change (pass_frame now s s'). subst s'.
  unfold _process_pending_alerts.
  apply fold_frame.
  - intros s1 c. apply process_command_event_frame.
  - apply fold_frame.
    + intros s1 e. apply process_security_event_frame.
    + apply pass_frame_refl.
Qed.

End Rendering.

(** *** The dedup key *)

Lemma no_underscore_app (a b : string) :
  no_underscore (a +:+ String "_" b) = false.
Proof.
  induction a as [|c a IH]; [reflexivity|].
  simpl. rewrite IH. apply andb_false_r.
Qed.

(** X18. The dedup key tells apart any two pairs of event type and
    severity whose severities hold no underscore: two such pairs share a
    key only if they are the same pair, so the cooldown of one kind of
    alert never silences another. *)
Theorem alert_key_injective (et1 sev1 et2 sev2 : string) :
  no_underscore sev1 = true -> no_underscore sev2 = true ->
  alert_key et1 sev1 = alert_key et2 sev2 ->
  et1 = et2 /\ sev1 = sev2.
Proof.
  unfold alert_key. intros H1 H2.
  change ("_" +:+ sev1) with (String "_" sev1).
  change ("_" +:+ sev2) with (String "_" sev2).
  revert et2.
  induction et1 as [|c1 r1 IH]; intros [|c2 r2] Heq; simpl in Heq.
  - injection Heq as ->. now split.
  - exfalso. injection Heq as <- ->.
    now rewrite no_underscore_app in H1.
  - exfalso. injection Heq as -> <-.
    now rewrite no_underscore_app in H2.
  - injection Heq as -> Heq.
    destruct (IH r2 Heq) as [-> ->]. now split.
Qed.

Lemma granted_checks_honour_cooldown_witness :
  cooldown_honoured 300
    (snd (run_checks {| alert_cooldown := 300; last_alerts := ∅ |}
            [("ransomware_detection"%string, "high"%string, 1000);
             ("ransomware_detection"%string, "high"%string, 1060);
             ("suspicious_process"%string, "high"%string, 1100);
             ("ransomware_detection"%string, "high"%string, 1300)])).
Proof.
  apply (granted_checks_honour_cooldown 300 1000
           [("ransomware_detection"%string, "high"%string, 1000);
            ("ransomware_detection"%string, "high"%string, 1060);
            ("suspicious_process"%string, "high"%string, 1100);
            ("ransomware_detection"%string, "high"%string, 1300)]).
  - lia.
  - simpl. lia.
Defined.

Lemma refused_checks_keep_the_window_witness :
  let m' := check_all alerted_manager "ransomware_detection" "high"
              [1060; 1120; 1299] in
  m' = alerted_manager
  /\ List.Forall
       (fun t => fst (_should_send_alert alerted_manager "ransomware_detection"
                        "high" t) = false) [1060; 1120; 1299]
  /\ fst (_should_send_alert m' "ransomware_detection" "high" 1300) = true
  /\ last_alerts (snd (_should_send_alert m' "ransomware_detection" "high" 1300))
       !! alert_key "ransomware_detection" "high"
     = Some 1300.
Proof.
  apply (refused_checks_keep_the_window alerted_manager "ransomware_detection"
           "high" 1000 [1060; 1120; 1299] 1300).
  - reflexivity.
  - repeat constructor; simpl; lia.
  - simpl. lia.
Defined.

Lemma alert_key_injective_witness :
  "ransomware_detection"%string = "ransomware_detection"%string
  /\ "high"%string = "high"%string.
Proof.
  apply (alert_key_injective "ransomware_detection" "high"
           "ransomware_detection" "high"); reflexivity.
Defined.

End AlertDispatcher.

(** ** More on the backup store *)

Section BackupStore.
Import Database BackupManager.

Lemma sqlval_eqb_refl (v : sqlval) : sqlval_eqb v v = true.
Proof.
  destruct v; simpl; [reflexivity|apply Z.eqb_refl|apply String.eqb_refl].
Qed.

Lemma sqlval_eqb_eq (a b : sqlval) : sqlval_eqb a b = true -> a = b.
Proof.
  destruct a, b; simpl; try discriminate; intros H.
  - reflexivity.
  - apply Z.eqb_eq in H. now subst.
  - apply String.eqb_eq in H. now subst.
Qed.

Lemma row_get_In (c : string) (r : row) (v : sqlval) :
  row_get c r = Some v -> In (c, v) r.
Proof.
  induction r as [|[c' v'] t IH]; simpl; [discriminate|].
  destruct (String.eqb c' c) eqn:E.
  - apply String.eqb_eq in E. intros [= <-]. subst. now left.
  - intros H. right. now apply IH.
Qed.

Lemma row_get_build_row (t : Table) (assign : row) (c : string) (v : sqlval) :
  has_column t c = true -> row_get c assign = Some v ->
  row_get c (build_row t assign) = Some v.
Proof.
  unfold has_column, build_row. intros Hc Hv.
  induction (columns t) as [|cd cols IH]; simpl in *; [discriminate|].
  destruct (String.eqb (fst cd) c) eqn:E.
  - apply String.eqb_eq in E. rewrite E, Hv. simpl. now rewrite String.eqb_refl.
  - simpl in Hc.
    assert (Hfst : forall x : string * sqlval,
               fst (match row_get (fst cd) assign with
                    | Some v0 => (fst cd, v0)
                    | None => if String.eqb (fst cd) "id"
                              then (fst cd, VInt (rowseq t + 1)) else cd
                    end) = fst cd).
    { intros _. destruct (row_get (fst cd) assign); [reflexivity|].
      now destruct (String.eqb (fst cd) "id"). }
    specialize (Hfst cd).
    destruct (match row_get (fst cd) assign with
              | Some v0 => (fst cd, v0)
              | None => if String.eqb (fst cd) "id"
                        then (fst cd, VInt (rowseq t + 1)) else cd
              end) as [c0 v0].
    simpl in Hfst. subst c0. rewrite E. now apply IH.
Qed.

Lemma sql_insert_row_get (t t' : Table) (assign : row) (c : string) (v : sqlval) :
  sql_insert t assign = Some t' -> row_get c assign = Some v ->
  row_get c (build_row t assign) = Some v.
Proof.
  unfold sql_insert. intros H Hv.
  destruct (forallb (fun cv => has_column t (fst cv)) assign) eqn:E; [|discriminate].
  apply row_get_build_row; [|exact Hv].
  rewrite forallb_forall in E. exact (E _ (row_get_In _ _ _ Hv)).
Qed.

Lemma existsb_false_In {A : Type} (f : A -> bool) (l : list A) (x : A) :
  existsb f l = false -> In x l -> f x = false.
Proof.
  intros H Hin. destruct (f x) eqn:E; [|reflexivity].
  rewrite <- H. symmetry. apply existsb_exists. now exists x.
Qed.

Lemma find_all_false {A : Type} (f : A -> bool) (l : list A) :
  (forall x, In x l -> f x = false) -> List.find f l = None.
Proof.
  induction l as [|x t IH]; intros H; simpl; [reflexivity|].
  rewrite (H x) by now left. apply IH. intros y Hy. apply H. now right.
Qed.

Lemma find_app_last {A : Type} (f : A -> bool) (l : list A) (x : A) :
  List.find f l = None -> f x = true -> List.find f (l ++ [x]) = Some x.
Proof.
  induction l as [|y t IH]; simpl; intros Hl Hx; [now rewrite Hx|].
  destruct (f y); [discriminate|]. now apply IH.
Qed.

(** The row an INSERT has just added is the one a SELECT on a UNIQUE
    column of it finds. *)
Lemma sql_insert_select (t t' : Table) (assign : row) (c : string) (v : sqlval) :
  sql_insert t assign = Some t' ->
  In c (unique_columns t) ->
  row_get c assign = Some v -> v <> VNull ->
  sql_select_one t' c v = Some (build_row t assign).
Proof.
  intros Hins Hu Hv Hnn.
  pose proof (sql_insert_row_get t t' assign c v Hins Hv) as Hr.
  unfold sql_insert in Hins.
  destruct (forallb (fun cv => has_column t (fst cv)) assign); [|discriminate].
  destruct (unique_conflict t (build_row t assign)) eqn:Eu; [discriminate|].
  injection Hins as <-. unfold sql_select_one. cbn [rows].
  unfold unique_conflict in Eu.
  pose proof (existsb_false_In _ _ c Eu Hu) as Hc. cbn beta in Hc.
  rewrite Hr in Hc.
  assert (Hrows : existsb (fun r' => match row_get c r' with
                                     | Some v' => sqlval_eqb v v'
                                     | None => false
                                     end) (rows t) = false).
  { destruct v; [contradiction|exact Hc|exact Hc]. }
  apply find_app_last.
  - apply find_all_false. intros r' Hin.
    pose proof (existsb_false_In _ _ r' Hrows Hin) as Hx. cbn beta in Hx.
    destruct (row_get c r') as [v'|]; [|reflexivity].
    destruct (sqlval_eqb v' v) eqn:E; [|reflexivity].
    apply sqlval_eqb_eq in E. subst v'. now rewrite sqlval_eqb_refl in Hx.
  - rewrite Hr. apply sqlval_eqb_refl.
Qed.

Section Library.
Variable tar_gz_create : Z -> list (string * bytes) -> bytes.
Variable tar_gz_extract : bytes -> option (list (string * bytes)).
Variable encrypt : bytes -> bytes.
Variable decrypt : bytes -> option bytes.
Variable sha256_hexdigest : bytes -> string.
Variable path_name : string -> string.
Variable path_absolute : string -> string.
Variable path_join : string -> string -> string.
Variable with_suffix_tmp : string -> string.
Variable walk_dir : gmap string bytes -> string -> option (list (string * bytes)).

(** What a successful [create_backup] has done. *)
Lemma create_backup_success (cfg : Config) (fs : gmap string bytes) (db : Db)
    (source_paths : list string) (backup_type descr backup_id stamp : string)
    (now : Z) (id : string) :
  let backup_path :=
    path_join (backup_dir cfg)
      ("backup_" +:+ backup_id +:+ "_" +:+ stamp +:+ ".tar.gz.enc") in
  let r := create_backup tar_gz_create encrypt sha256_hexdigest path_name
             path_absolute path_join with_suffix_tmp walk_dir
             cfg fs db source_paths backup_type descr backup_id stamp now in
  let archive :=
    tar_gz_create (compression_level cfg)
      (flat_map (_add_to_archive path_name walk_dir fs)
                (_validate_source_paths path_absolute walk_dir fs source_paths)) in
  In "backup_id"%string (unique_columns (backup_records db)) ->
  with_suffix_tmp backup_path <> backup_path ->
  fst (fst r) = Some id ->
  id = backup_id
  /\ snd (fst r)
     = delete (with_suffix_tmp backup_path)
         (<[backup_path := encrypt archive]>
            (<[with_suffix_tmp backup_path := archive]> fs))
  /\ exists record,
       _get_backup_record (snd r) backup_id = Some record
       /\ row_get "backup_path" record = Some (VText backup_path)
       /\ row_get "backup_type" record = Some (VText backup_type)
       /\ row_get "checksum" record
          = Some (VText (sha256_hexdigest (encrypt archive))).
Proof.
  intros backup_path r archive Hu Htmp. subst r. unfold create_backup.
  fold backup_path.
  destruct (_validate_source_paths path_absolute walk_dir fs source_paths)
    as [|v vs] eqn:Ev; [discriminate|].
  subst archive. set (archive := tar_gz_create _ _).
  set (tmp := with_suffix_tmp backup_path) in *.
  destruct (max_backup_size cfg <? Z.of_nat (length archive)); [discriminate|].
  rewrite lookup_insert_eq.
  unfold _calculate_checksum.
  rewrite lookup_delete_ne by exact Htmp. rewrite lookup_insert_eq.
  cbn [fmap option_fmap option_map].
  unfold _record_backup.
  destruct (sql_insert (backup_records db) _) as [t'|] eqn:Eins;
    cbn [fmap option_fmap option_map fst snd]; [|discriminate].
  intros [= <-]. split; [reflexivity|]. split; [reflexivity|].
  eexists. unfold _get_backup_record. cbn [backup_records with_backup_records].
  split.
  - apply (sql_insert_select _ _ _ _ _ Eins Hu); [reflexivity|discriminate].
  - repeat split;
      apply (sql_insert_row_get _ _ _ _ _ Eins); reflexivity.
Qed.

(** X19. A backup id returned by [create_backup] names a backup that is in
    place: on a table where [backup_id] is UNIQUE, the returned id is the
    drawn one, the encrypted artifact is on disk at the recorded path, the
    temporary archive is gone, the record is found under the id, and the
    recorded checksum is the SHA-256 of the artifact, so that the check a
    restore makes passes. *)
Theorem created_backup_is_recorded (cfg : Config) (fs : gmap string bytes) (db : Db)
    (source_paths : list string) (backup_type descr backup_id stamp : string)
    (now : Z) (id : string) :
  let backup_path :=
    path_join (backup_dir cfg)
      ("backup_" +:+ backup_id +:+ "_" +:+ stamp +:+ ".tar.gz.enc") in
  let r := create_backup tar_gz_create encrypt sha256_hexdigest path_name
             path_absolute path_join with_suffix_tmp walk_dir
             cfg fs db source_paths backup_type descr backup_id stamp now in
  In "backup_id"%string (unique_columns (backup_records db)) ->
  with_suffix_tmp backup_path <> backup_path ->
  fst (fst r) = Some id ->
  id = backup_id
  /\ snd (fst r) !! with_suffix_tmp backup_path = None
  /\ exists data record,
       snd (fst r) !! backup_path = Some data
       /\ _get_backup_record (snd r) backup_id = Some record
       /\ row_get "backup_path" record = Some (VText backup_path)
       /\ row_get "checksum" record = Some (VText (sha256_hexdigest data))
       /\ _verify_checksum sha256_hexdigest (snd (fst r)) backup_path
            (row_get "checksum" record) = Some true.
Proof.
  intros backup_path r Hu Htmp Hid.
  destruct (create_backup_success cfg fs db source_paths backup_type descr
              backup_id stamp now id Hu Htmp Hid)
    as (Heq & Hfs & record & Hrec & Hpath & _ & Hsum).
  fold backup_path in Hfs, Hpath. fold r in Hfs, Hrec.
  set (archive := tar_gz_create (compression_level cfg)
                    (flat_map (_add_to_archive path_name walk_dir fs)
                       (_validate_source_paths path_absolute walk_dir fs
                          source_paths))) in *.
  split; [exact Heq|]. rewrite Hfs. split; [apply lookup_delete_eq|].
  exists (encrypt archive), record.
  assert (Hbp : delete (with_suffix_tmp backup_path)
                  (<[backup_path := encrypt archive]>
                     (<[with_suffix_tmp backup_path := archive]> fs)) !! backup_path
                = Some (encrypt archive)).
  { rewrite lookup_delete_ne by exact Htmp. apply lookup_insert_eq. }
  split; [exact Hbp|]. split; [exact Hrec|]. split; [exact Hpath|].
  split; [exact Hsum|].
  rewrite Hsum. unfold _verify_checksum, _calculate_checksum. rewrite Hbp.
  destruct (checksum_available _); [|reflexivity].
  cbn. now rewrite String.eqb_refl.
Qed.

(** X20. [create_backup] writes to two paths only, whether it succeeds or
    fails: every file other than the artifact and the temporary archive,
    the sources among them, is as before, and so are all tables other than
    [backup_records]. *)
Theorem create_backup_touches_only_its_files (cfg : Config)
    (fs : gmap string bytes) (db : Db) (source_paths : list string)
    (backup_type descr backup_id stamp : string) (now : Z) (p : string) :
  let backup_path :=
    path_join (backup_dir cfg)
      ("backup_" +:+ backup_id +:+ "_" +:+ stamp +:+ ".tar.gz.enc") in
  let r := create_backup tar_gz_create encrypt sha256_hexdigest path_name
             path_absolute path_join with_suffix_tmp walk_dir
             cfg fs db source_paths backup_type descr backup_id stamp now in
  p <> backup_path -> p <> with_suffix_tmp backup_path ->
  snd (fst r) !! p = fs !! p
  /\ offline_queue (snd r) = offline_queue db
  /\ security_events (snd r) = security_events db
  /\ command_history (snd r) = command_history db
  /\ audit_log (snd r) = audit_log db.
Proof.
  intros backup_path r Hp Ht. subst r. unfold create_backup. fold backup_path.
  set (tmp := with_suffix_tmp backup_path) in *.
  destruct (_validate_source_paths path_absolute walk_dir fs source_paths);
    [now repeat split|].
  set (archive := tar_gz_create _ _).
  assert (H1 : delete tmp (<[tmp := archive]> fs) !! p = fs !! p).
  { rewrite lookup_delete_ne by congruence. apply lookup_insert_ne. congruence. }
  assert (H3 : forall data,
             delete tmp (<[backup_path := encrypt data]> (<[tmp := archive]> fs)) !! p
             = fs !! p).
  { intros data. rewrite lookup_delete_ne by congruence.
    rewrite lookup_insert_ne by congruence. apply lookup_insert_ne. congruence. }
  destruct (max_backup_size cfg <? Z.of_nat (length archive));
    [cbn [fst snd]; now repeat split|].
  destruct (<[tmp := archive]> fs !! tmp) as [data|].
  - destruct (_calculate_checksum _ _ _) as [checksum|];
      [|cbn [fst snd]; now repeat split].
    unfold _record_backup.
    destruct (sql_insert _ _) as [t'|];
      cbn [fmap option_fmap option_map fst snd]; now repeat split.
  - cbn [fst snd]. repeat split. apply lookup_insert_ne. congruence.
Qed.

(** X21. Whenever [create_backup] succeeds on one regular file, a restore
    of the returned id gives the file back byte for byte under the restore
    directory, for a cipher and an archive format that undo each other on
    this archive; the restore directory is the given one, or [./restore]
    when none is given. *)
Theorem restore_after_create_round_trip (cfg : Config) (fs : gmap string bytes)
    (db : Db) (f : string) (content : bytes)
    (backup_type descr backup_id stamp : string) (restore_path : option string)
    (now now' : Z) (id : string) :
  let backup_path :=
    path_join (backup_dir cfg)
      ("backup_" +:+ backup_id +:+ "_" +:+ stamp +:+ ".tar.gz.enc") in
  let archive := tar_gz_create (compression_level cfg) [(path_name f, content)] in
  let restore_dir :=
    if truthy_opt_str restore_path then default ""%string restore_path
    else "./restore"%string in
  let created := create_backup tar_gz_create encrypt sha256_hexdigest path_name
                   path_absolute path_join with_suffix_tmp walk_dir
                   cfg fs db [f] backup_type descr backup_id stamp now in
  let restored := restore_backup tar_gz_extract decrypt sha256_hexdigest path_join
                    with_suffix_tmp (snd (fst created)) (snd created) id
                    restore_path now' in
  In "backup_id"%string (unique_columns (backup_records db)) ->
  fs !! f = Some content ->
  path_absolute f = f ->
  decrypt (encrypt archive) = Some archive ->
  tar_gz_extract archive = Some [(path_name f, content)] ->
  with_suffix_tmp backup_path <> backup_path ->
  path_join restore_dir (path_name f) <> with_suffix_tmp backup_path ->
  fst (fst created) = Some id ->
  fst (fst restored) = true
  /\ snd (fst restored) !! path_join restore_dir (path_name f) = Some content.
Proof.
  intros backup_path archive restore_dir created restored
    Hu Hf Habs Hdec Hext Htmp Htarget Hid.
  destruct (create_backup_success cfg fs db [f] backup_type descr backup_id stamp
              now id Hu Htmp Hid)
    as (-> & Hfs & record & Hrec & Hpath & Htype & Hsum).
  fold backup_path in Hfs, Hpath. fold created in Hfs, Hrec.
  assert (Hvalid : _validate_source_paths path_absolute walk_dir fs [f] = [f]).
  { unfold _validate_source_paths, path_exists. cbn [List.filter map].
    rewrite Hf. cbn [map]. now rewrite Habs. }
  assert (Harch : flat_map (_add_to_archive path_name walk_dir fs) [f]
                  = [(path_name f, content)]).
  { cbn [flat_map]. unfold _add_to_archive. rewrite Hf. reflexivity. }
  rewrite Hvalid, Harch in Hfs, Hsum. fold archive in Hfs, Hsum.
  set (tmp := with_suffix_tmp backup_path) in *.
  subst restored. unfold restore_backup. rewrite Hrec, Hpath, Hfs.
  assert (Hbp : delete tmp (<[backup_path := encrypt archive]> (<[tmp := archive]> fs))
                  !! backup_path = Some (encrypt archive)).
  { rewrite lookup_delete_ne by exact Htmp. apply lookup_insert_eq. }
  rewrite Hbp, Hsum.
  assert (Hver : _verify_checksum sha256_hexdigest
                   (delete tmp (<[backup_path := encrypt archive]>
                                  (<[tmp := archive]> fs)))
                   backup_path
                   (Some (VText (sha256_hexdigest (encrypt archive))))
                 = Some true).
  { unfold _verify_checksum, _calculate_checksum. rewrite Hbp.
    destruct (checksum_available _); [|reflexivity].
    cbn. now rewrite String.eqb_refl. }
  rewrite Hver, Hdec. fold tmp. rewrite lookup_insert_eq.
  cbn [mbind option_bind]. rewrite Hext, Htype.
  fold restore_dir. cbn [fst snd]. unfold extractall. cbn [fold_left fst snd].
  split; [reflexivity|].
  rewrite lookup_delete_ne by (intros H; apply Htarget; now rewrite H).
  apply lookup_insert_eq.
Qed.

(** X22. [restore_backup] writes to the store exactly when it succeeds: a
    failed restore leaves the store as it was, a successful one appends one
    [backup_restored] audit row naming the backup and nothing else. *)
Theorem restore_backup_audits_successes (fs : gmap string bytes) (db : Db)
    (backup_id : string) (restore_path : option string) (now : Z) :
  let r := restore_backup tar_gz_extract decrypt sha256_hexdigest path_join
             with_suffix_tmp fs db backup_id restore_path now in
  (fst (fst r) = false -> snd r = db)
  /\ (fst (fst r) = true ->
      exists e,
        snd r = with_audit_log db (audit_log db ++ [e])
        /\ action e = "backup_restored"%string
        /\ resource e = Some backup_id
        /\ audit_timestamp e = now).
Proof.
  intros r. subst r. unfold restore_backup.
  destruct (_get_backup_record db backup_id) as [record|];
    [|split; [reflexivity|discriminate]].
  destruct (row_get "backup_path" record) as [[| |backup_path]|];
    try (split; [reflexivity|discriminate]).
  destruct (fs !! backup_path) as [encrypted_data|];
    [|split; [reflexivity|discriminate]].
  destruct (_verify_checksum sha256_hexdigest fs backup_path _) as [[|]|];
    try (split; [reflexivity|discriminate]).
  destruct (decrypt encrypted_data) as [decrypted_data|];
    [|split; [reflexivity|discriminate]].
  destruct (_ ≫= tar_gz_extract) as [members|];
    [|split; [reflexivity|discriminate]].
  destruct (row_get "backup_type" record) as [backup_type|];
    [|split; [reflexivity|discriminate]].
  cbn [fst snd]. split; [discriminate|]. intros _.
  unfold log_audit. eexists. split; [reflexivity|]. now repeat split.
Qed.

(** X23. A restore whose extraction fails leaves the decrypted archive
    behind: when the record and the artifact are there, the checksum
    passes, the cipher decrypts and the archive cannot be read, the call
    fails, the store is as before, and the file system has gained the
    temporary file holding the plaintext archive. *)
Theorem failed_extraction_leaves_plaintext (fs : gmap string bytes) (db : Db)
    (backup_id : string) (restore_path : option string) (now : Z)
    (record : row) (backup_path : string) (encrypted_data plain : bytes) :
  _get_backup_record db backup_id = Some record ->
  row_get "backup_path" record = Some (VText backup_path) ->
  fs !! backup_path = Some encrypted_data ->
  _verify_checksum sha256_hexdigest fs backup_path (row_get "checksum" record)
  = Some true ->
  decrypt encrypted_data = Some plain ->
  tar_gz_extract plain = None ->
  restore_backup tar_gz_extract decrypt sha256_hexdigest path_join with_suffix_tmp
    fs db backup_id restore_path now
  = (false, <[with_suffix_tmp backup_path := plain]> fs, db).
Proof.
  intros Hrec Hpath Hfile Hver Hdec Hext. unfold restore_backup.
  rewrite Hrec, Hpath, Hfile, Hver, Hdec, lookup_insert_eq.
  cbn [mbind option_bind]. now rewrite Hext.
Qed.

(** *** Retention *)

Lemma unlink_if_exists_other (fs fs' : gmap string bytes) (p q : string) :
  unlink_if_exists walk_dir fs p = Some fs' -> q <> p -> fs' !! q = fs !! q.
Proof.
  unfold unlink_if_exists. intros H Hq.
  destruct (fs !! p).
  - injection H as <-. now apply lookup_delete_ne.
  - destruct (walk_dir fs p); [discriminate|]. now injection H as <-.
Qed.

Lemma unlink_if_exists_gone (fs fs' : gmap string bytes) (p : string) :
  unlink_if_exists walk_dir fs p = Some fs' -> fs' !! p = None.
Proof.
  unfold unlink_if_exists. intros H.
  destruct (fs !! p) eqn:E.
  - injection H as <-. apply lookup_delete_eq.
  - destruct (walk_dir fs p); [discriminate|]. now injection H as <-.
Qed.

Lemma cleanup_loop_keeps (old_backups : list row) (fs : gmap string bytes)
    (t : Table) (r : row) :
  In r (rows t) ->
  (forall r', In r' old_backups ->
              row_get "backup_id" r' <> row_get "backup_id" r) ->
  In r (rows (snd (cleanup_loop walk_dir old_backups fs t))).
Proof.
  revert fs t. induction old_backups as [|b rest IH]; intros fs t Hr Hids;
    cbn [cleanup_loop]; [exact Hr|].
  destruct (row_get "backup_path" b) as [[| |p]|]; try exact Hr.
  destruct (unlink_if_exists walk_dir fs p) as [fs'|]; [|exact Hr].
  apply IH; [|intros r' Hr'; apply Hids; now right].
  cbn [sql_delete rows]. apply filter_In. split; [exact Hr|].
  apply negb_true_iff. unfold sql_matches.
  specialize (Hids b (or_introl eq_refl)).
  destruct (row_get "backup_id" b) as [v|]; cbn [default from_option id];
    [|reflexivity].
  destruct (row_get "backup_id" r) as [v'|].
  - destruct v; try reflexivity;
      (destruct (sqlval_eqb v' _) eqn:E; [|reflexivity]);
      apply sqlval_eqb_eq in E; subst v'; contradiction.
  - now destruct v.
Qed.

Lemma cleanup_loop_files (old_backups : list row) (fs : gmap string bytes)
    (t : Table) (p : string) :
  (forall r', In r' old_backups -> row_get "backup_path" r' <> Some (VText p)) ->
  fst (cleanup_loop walk_dir old_backups fs t) !! p = fs !! p.
Proof.
  revert fs t. induction old_backups as [|b rest IH]; intros fs t Hp;
    cbn [cleanup_loop]; [reflexivity|].
  pose proof (Hp b (or_introl eq_refl)) as Hb.
  destruct (row_get "backup_path" b) as [[| |q]|]; try reflexivity.
  destruct (unlink_if_exists walk_dir fs q) as [fs'|] eqn:E; [|reflexivity].
  rewrite IH by (intros r' Hr'; apply Hp; now right).
  apply (unlink_if_exists_other _ _ _ _ E). congruence.
Qed.

(** X24. The retention sweep never removes a backup that was not uploaded
    or that is younger than the retention period: on a table whose
    backup ids are distinct such a record is still there after
    [_cleanup_old_backups], and so is its artifact unless a removed record
    names the same path; the other tables are not touched. *)
Theorem cleanup_keeps_backups_not_uploaded (retention_days : Z)
    (fs : gmap string bytes) (db : Db) (now : Z) (r : row) :
  let cutoff := now - retention_days * 86400 in
  let res := _cleanup_old_backups walk_dir retention_days fs db now in
  In r (rows (backup_records db)) ->
  old_uploaded cutoff r = false ->
  (forall r', In r' (rows (backup_records db)) -> old_uploaded cutoff r' = true ->
              row_get "backup_id" r' <> row_get "backup_id" r) ->
  In r (rows (backup_records (snd res)))
  /\ (forall p,
        (forall r', In r' (rows (backup_records db)) ->
                    old_uploaded cutoff r' = true ->
                    row_get "backup_path" r' <> Some (VText p)) ->
        fst res !! p = fs !! p)
  /\ offline_queue (snd res) = offline_queue db
  /\ command_history (snd res) = command_history db
  /\ audit_log (snd res) = audit_log db.
Proof.
  intros cutoff res Hr Hkeep Hids. subst res. unfold _cleanup_old_backups.
  fold cutoff. cbn [fst snd backup_records with_backup_records].
  split; [|split; [|now repeat split]].
  - apply cleanup_loop_keeps; [exact Hr|].
    intros r' Hr'. apply filter_In in Hr'. destruct Hr' as [Hin Hold].
    now apply Hids.
  - intros p Hp. apply cleanup_loop_files.
    intros r' Hr'. apply filter_In in Hr'. destruct Hr' as [Hin Hold].
    now apply Hp.
Qed.

(** X25. A deleted backup is gone for good: when [delete_backup] returns
    True, no record is found under the id, the artifact is no longer on
    disk, and a restore of the id fails without touching anything. *)
Theorem deleted_backup_cannot_be_restored (fs : gmap string bytes) (db : Db)
    (backup_id : string) (restore_path : option string) (now : Z) :
  let d := delete_backup walk_dir fs db backup_id in
  fst (fst d) = true ->
  _get_backup_record (snd d) backup_id = None
  /\ (forall record p,
        _get_backup_record db backup_id = Some record ->
        row_get "backup_path" record = Some (VText p) ->
        snd (fst d) !! p = None)
  /\ restore_backup tar_gz_extract decrypt sha256_hexdigest path_join
       with_suffix_tmp (snd (fst d)) (snd d) backup_id restore_path now
     = (false, snd (fst d), snd d).
Proof.
  intros d. subst d. unfold delete_backup.
  destruct (_get_backup_record db backup_id) as [record|] eqn:Erec;
    [|discriminate].
  destruct (row_get "backup_path" record) as [[| |p]|] eqn:Ep; try discriminate.
  destruct (unlink_if_exists walk_dir fs p) as [fs'|] eqn:Eu; [|discriminate].
  cbn [fst snd]. intros _.
  assert (Hnone : _get_backup_record
                    (with_backup_records db
                       (sql_delete (backup_records db) "backup_id" (VText backup_id)))
                    backup_id = None).
  { unfold _get_backup_record, sql_select_one.
    cbn [backup_records with_backup_records sql_delete rows].
    apply find_all_false. intros x Hx. apply filter_In in Hx.
    destruct Hx as [_ Hx]. apply negb_true_iff in Hx.
    unfold sql_matches in Hx. exact Hx. }
  split; [exact Hnone|]. split.
  - intros record' p' [= <-] Hp'. rewrite Ep in Hp'. injection Hp' as <-.
    exact (unlink_if_exists_gone _ _ _ Eu).
  - unfold restore_backup. now rewrite Hnone.
Qed.

End Library.

Lemma created_backup_is_recorded_witness :
  let backup_path :=
    toy_join (backup_dir toy_config)
      ("backup_" +:+ "b7" +:+ "_" +:+ "20231114_221320" +:+ ".tar.gz.enc") in
  let r := create_backup toy_tar_gz_create toy_encrypt toy_sha256 toy_path
             toy_path toy_join toy_tmp toy_walk
             toy_config test_fs extended_db ["test_data/test_file.txt"%string]
             "test" "Test backup" "b7" "20231114_221320" 1700000000 in
  "b7"%string = "b7"%string
  /\ snd (fst r) !! toy_tmp backup_path = None
  /\ exists data record,
       snd (fst r) !! backup_path = Some data
       /\ _get_backup_record (snd r) "b7" = Some record
       /\ row_get "backup_path" record = Some (VText backup_path)
       /\ row_get "checksum" record = Some (VText (toy_sha256 data))
       /\ _verify_checksum toy_sha256 (snd (fst r)) backup_path
            (row_get "checksum" record) = Some true.
Proof.
  apply (created_backup_is_recorded toy_tar_gz_create toy_encrypt toy_sha256
           toy_path toy_path toy_join toy_tmp toy_walk
           toy_config test_fs extended_db ["test_data/test_file.txt"%string]
           "test" "Test backup" "b7" "20231114_221320" 1700000000 "b7").
  - simpl. now left.
  - vm_compute. discriminate.
  - vm_compute. reflexivity.
Defined.

Lemma create_backup_touches_only_its_files_witness :
  let r := create_backup toy_tar_gz_create toy_encrypt toy_sha256 toy_path
             toy_path toy_join toy_tmp toy_walk
             toy_config test_fs extended_db ["test_data/test_file.txt"%string]
             "test" "Test backup" "b7" "20231114_221320" 1700000000 in
  snd (fst r) !! "test_data/test_file.txt"%string
  = test_fs !! "test_data/test_file.txt"%string
  /\ offline_queue (snd r) = offline_queue extended_db
  /\ security_events (snd r) = security_events extended_db
  /\ command_history (snd r) = command_history extended_db
  /\ audit_log (snd r) = audit_log extended_db.
Proof.
  apply (create_backup_touches_only_its_files toy_tar_gz_create toy_encrypt
           toy_sha256 toy_path toy_path toy_join toy_tmp toy_walk
           toy_config test_fs extended_db ["test_data/test_file.txt"%string]
           "test" "Test backup" "b7" "20231114_221320" 1700000000
           "test_data/test_file.txt").
  - vm_compute. discriminate.
  - vm_compute. discriminate.
Defined.

Lemma restore_after_create_round_trip_witness :
  let created := create_backup toy_tar_gz_create toy_encrypt toy_sha256 toy_path
                   toy_path toy_join toy_tmp toy_walk
                   toy_config test_fs extended_db
                   ["test_data/test_file.txt"%string]
                   "test" "Test backup" "b7" "20231114_221320" 1700000000 in
  let restored := restore_backup toy_tar_gz_extract toy_decrypt toy_sha256 toy_join
                    toy_tmp (snd (fst created)) (snd created) "b7"
                    (Some "test_restore"%string) 1700000100 in
  fst (fst restored) = true
  /\ snd (fst restored) !! toy_join "test_restore" "test_file.txt"
     = Some [x54; x65; x73; x74].
Proof.
  apply (restore_after_create_round_trip toy_tar_gz_create toy_tar_gz_extract
           toy_encrypt toy_decrypt toy_sha256
           (fun _ => "test_file.txt"%string) toy_path toy_join toy_tmp toy_walk
           toy_config test_fs extended_db "test_data/test_file.txt"
           [x54; x65; x73; x74] "test" "Test backup" "b7" "20231114_221320"
           (Some "test_restore"%string) 1700000000 1700000100 "b7").
  - simpl. now left.
  - reflexivity.
  - reflexivity.
  - reflexivity.
  - reflexivity.
  - vm_compute. discriminate.
  - vm_compute. discriminate.
  - vm_compute. reflexivity.
Defined.

Lemma failed_extraction_leaves_plaintext_witness :
  restore_backup unreadable_archive toy_decrypt toy_sha256 toy_join toy_tmp
    artifact_fs plain_record_db "b1" None 2000
  = (false,
     <[toy_tmp "./backups/b1.tar.gz.enc" := [x54; x65; x73; x74]]> artifact_fs,
     plain_record_db).
Proof.
  apply (failed_extraction_leaves_plaintext unreadable_archive toy_decrypt
           toy_sha256 toy_join toy_tmp artifact_fs plain_record_db "b1" None 2000
           (retention_row 1 "b1" "./backups/b1.tar.gz.enc" 0 )
           "./backups/b1.tar.gz.enc" [x54; x65; x73; x74] [x54; x65; x73; x74]);
    reflexivity.
Defined.

Lemma cleanup_keeps_backups_not_uploaded_witness :
  let r := retention_row 2 "b2" "./backups/b2.tar.gz.enc" 0 in
  let cutoff := 5000000 - 30 * 86400 in
  let res := _cleanup_old_backups toy_walk 30 retention_fs retention_db 5000000 in
  In r (rows (backup_records (snd res)))
  /\ (forall p,
        (forall r', In r' (rows (backup_records retention_db)) ->
                    old_uploaded cutoff r' = true ->
                    row_get "backup_path" r' <> Some (VText p)) ->
        fst res !! p = retention_fs !! p)
  /\ offline_queue (snd res) = offline_queue retention_db
  /\ command_history (snd res) = command_history retention_db
  /\ audit_log (snd res) = audit_log retention_db.
Proof.
  apply (cleanup_keeps_backups_not_uploaded toy_walk 30 retention_fs retention_db
           5000000 (retention_row 2 "b2" "./backups/b2.tar.gz.enc" 0)).
  - simpl. right. now left.
  - reflexivity.
  - intros r' [<-|[<-|[]]] Hold; [discriminate|discriminate].
Defined.

Lemma deleted_backup_cannot_be_restored_witness :
  let d := delete_backup toy_walk retention_fs retention_db "b1" in
  _get_backup_record (snd d) "b1" = None
  /\ (forall record p,
        _get_backup_record retention_db "b1" = Some record ->
        row_get "backup_path" record = Some (VText p) ->
        snd (fst d) !! p = None)
  /\ restore_backup toy_tar_gz_extract toy_decrypt toy_sha256 toy_join toy_tmp
       (snd (fst d)) (snd d) "b1" None 2000
     = (false, snd (fst d), snd d).
Proof.
  apply (deleted_backup_cannot_be_restored toy_tar_gz_extract toy_decrypt
           toy_sha256 toy_join toy_tmp toy_walk retention_fs retention_db "b1"
           None 2000).
  vm_compute. reflexivity.
Defined.

End BackupStore.

(** ** The process monitor *)

Section ProcessMonitor.
Import Database ProcessWatcher.
Variable lower : string -> string.
Variable strip : string -> string.
Variable format_1f : Q -> string.
Variable json_of_float : Q -> json.

(** X26. The verdict of [_is_suspicious_process] does not depend on the
    executable path: the last check, made for processes without one, only
    repeats the test on the name that has already failed, so a process is
    flagged for what its name and command line hold and for nothing
    else. *)
Theorem suspicious_verdict_ignores_exe (p : proc_info) (e : option string) :
  _is_suspicious_process lower strip (with_exe p e)
  = _is_suspicious_process lower strip p.
Proof.
  unfold _is_suspicious_process, joined_cmdline. cbn [name cmdline exe with_exe].
  destruct (name p) as [n|]; [|reflexivity]. f_equal.
  set (nm := strip (lower n)).
  destruct (negb (truthy_str nm) || String.eqb nm ""); [reflexivity|].
  destruct (str_in nm safe_processes); [reflexivity|].
  destruct (contains "system idle process" nm || contains "idle" nm);
    [reflexivity|].
  destruct (existsb (fun s => contains s nm) suspicious_names); [reflexivity|].
  destruct (existsb _ suspicious_names); [reflexivity|].
  now destruct (_ && _ && _), (_ && _ && _).
Qed.

(** X27. A process whose lower-case name holds [idle] leaves no trace in a
    scan: whatever its command line and its CPU and memory figures, it is
    neither reported as suspicious nor as a high resource user, and the
    store is as before. *)
Theorem idle_in_name_evades_the_scan (db : Db) (p : proc_info) (n : string)
    (now : Z) :
  name p = Some n ->
  contains "idle" (lower n) = true ->
  contains "idle" (strip (lower n)) = true ->
  _is_suspicious_process lower strip p = Some false
  /\ fst (check_process lower strip format_1f json_of_float db p now) = db.
Proof.
  intros Hn Hl Hs.
  assert (Hv : _is_suspicious_process lower strip p = Some false).
  { unfold _is_suspicious_process. rewrite Hn. f_equal.
    destruct (negb _ || _); [reflexivity|].
    destruct (str_in _ safe_processes); [reflexivity|].
    rewrite Hs. now rewrite orb_true_r. }
  split; [exact Hv|].
  unfold check_process, _handle_high_resource_process. rewrite Hn, Hv, Hl.
  rewrite orb_true_r.
  destruct (cpu_percent p) as [c|]; [|reflexivity].
  destruct (gtb c (80 # 1)); [reflexivity|].
  destruct (memory_percent p) as [m|]; [|reflexivity].
  now destruct (gtb m (80 # 1)).
Qed.

(** X28. High memory use alone is never recorded: for a process that is not
    flagged as suspicious and whose CPU figure is at most 80, the scan
    leaves the store as it was whatever the memory figure is, although the
    loop calls the high-resource handler once memory exceeds 80. *)
Theorem high_memory_alone_logs_nothing (db : Db) (p : proc_info) (c : Q)
    (m : option Q) (now : Z) :
  _is_suspicious_process lower strip p = Some false ->
  cpu_percent p = Some c ->
  (c <= 80 # 1)%Q ->
  fst (check_process lower strip format_1f json_of_float db
         (with_memory_percent p m) now) = db.
Proof.
  intros Hv Hc Hle.
  assert (Hg : gtb c (80 # 1) = false).
  { unfold gtb. apply negb_false_iff. now apply Qle_bool_iff. }
  unfold check_process, _handle_high_resource_process.
  assert (Hv' : _is_suspicious_process lower strip (with_memory_percent p m)
                = Some false) by exact Hv.
  rewrite Hv'. cbn [name cpu_percent memory_percent with_memory_percent].
  unfold _is_suspicious_process in Hv.
  destruct (name p) as [n|]; [|discriminate].
  rewrite Hc, Hg.
  destruct m as [mem|]; [|reflexivity].
  destruct (gtb mem (80 # 1)); [|reflexivity].
  clear Hv Hv'.
  now destruct (contains "system idle process" (lower n)
                || contains "idle" (lower n)).
Qed.

(** X29. A process whose name cannot be read ends the scan: the processes
    listed after it are not looked at, so the outcome is that of the scan
    of the processes before it. *)
Theorem scan_stops_at_unreadable_process (before after : list proc_info)
    (p : proc_info) (db : Db) (now : Z) :
  name p = None ->
  _check_processes lower strip format_1f json_of_float
    (before ++ p :: after) db now
  = _check_processes lower strip format_1f json_of_float before db now.
Proof.
  intros Hn. revert db.
  induction before as [|q rest IH]; intros db; cbn [app _check_processes].
  - unfold check_process. now rewrite Hn.
  - destruct (check_process lower strip format_1f json_of_float db q now)
      as [db1 [|]]; [apply IH|reflexivity].
Qed.

End ProcessMonitor.

Section ProcessMonitorRuns.
Import Database ProcessWatcher.

Lemma idle_in_name_evades_the_scan_witness :
  _is_suspicious_process as_is as_is idle_locker = Some false
  /\ fst (check_process as_is as_is no_format no_float initialize idle_locker 1000)
     = initialize.
Proof.
  apply (idle_in_name_evades_the_scan as_is as_is no_format no_float initialize
           idle_locker "idle_cryptolocker.exe" 1000); reflexivity.
Defined.

Lemma high_memory_alone_logs_nothing_witness :
  fst (check_process as_is as_is no_format no_float initialize
         (with_memory_percent memory_hog (Some (95 # 1))) 1000)
  = initialize.
Proof.
  apply (high_memory_alone_logs_nothing as_is as_is no_format no_float initialize
           memory_hog (3 # 1) (Some (95 # 1)) 1000).
  - reflexivity.
  - reflexivity.
  - vm_compute. discriminate.
Defined.

Lemma scan_stops_at_unreadable_process_witness :
  _check_processes as_is as_is no_format no_float
    ([memory_hog] ++ unreadable :: [idle_locker]) initialize 1000
  = _check_processes as_is as_is no_format no_float [memory_hog] initialize 1000.
Proof.
  apply (scan_stops_at_unreadable_process as_is as_is no_format no_float
           [memory_hog] [idle_locker] unreadable initialize 1000).
  reflexivity.
Defined.

End ProcessMonitorRuns.

(** ** The threshold checks of the telemetry collector *)

Section TelemetryThresholds.
Import Database Telemetry.
Variable format_1f : Q -> string.
Variable str_float : Q -> string.
Variable json_of_float : Q -> json.

Lemma gtb_lt (x y : Q) : gtb x y = true <-> (y < x)%Q.
Proof.
  unfold gtb. rewrite negb_true_iff. split.
  - intros H. apply Qnot_le_lt. intros H'. apply Qle_bool_iff in H'. congruence.
  - intros H. destruct (Qle_bool x y) eqn:E; [|reflexivity].
    apply Qle_bool_iff in E. exfalso. exact (Qlt_not_le _ _ H E).
Qed.

Lemma gtb_le (x y : Q) : gtb x y = false <-> (x <= y)%Q.
Proof.
  unfold gtb. rewrite negb_false_iff. apply Qle_bool_iff.
Qed.

Lemma max_disk_usage_above (th : Q) (disk_data : list (string * option Q)) (acc : Q) :
  gtb (fold_left (fun max_usage partition_data =>
                    match snd partition_data with
                    | Some percent =>
                        if gtb percent max_usage then percent else max_usage
                    | None => max_usage
                    end) disk_data acc) th
  = gtb acc th || partition_above th disk_data.
Proof.
  revert acc. unfold partition_above.
  induction disk_data as [|[mount [percent|]] rest IH]; intros acc;
    cbn [fold_left existsb snd].
  - now rewrite orb_false_r.
  - rewrite IH. rewrite orb_assoc. f_equal.
    destruct (gtb percent acc) eqn:E.
    + apply gtb_lt in E.
      destruct (gtb percent th) eqn:Ep; [now rewrite orb_true_r|].
      rewrite orb_false_r. symmetry. apply gtb_le. apply gtb_le in Ep.
      apply Qlt_le_weak in E. now apply Qle_trans with percent.
    + apply gtb_le in E.
      destruct (gtb acc th) eqn:Ea; [reflexivity|].
      cbn [orb]. symmetry. apply gtb_le. apply gtb_le in Ea.
      now apply Qle_trans with acc.
  - rewrite IH. reflexivity.
Qed.

Lemma log_all_events (alerts : list dict) (db : Db) (now : Z) :
  map (fun e => (event_type e, severity e, violation_type e))
      (security_events
         (fold_left (fun acc alert =>
                       log_security_event acc "threshold_violation"
                         (alert_str "severity" alert) (alert_str "message" alert)
                         None None (Some alert) now) alerts db))
  = map (fun e => (event_type e, severity e, violation_type e)) (security_events db)
    ++ map (fun alert => ("threshold_violation"%string,
                          alert_str "severity" alert,
                          if truthy_dict (Some alert)
                          then alert_str "type" alert else ""%string)) alerts.
Proof.
  revert db. induction alerts as [|a rest IH]; intros db; cbn [fold_left map].
  - now rewrite app_nil_r.
  - rewrite IH. unfold log_security_event.
    cbn [security_events with_security_events]. rewrite map_app, <- app_assoc.
    f_equal. cbn [map app event_type severity]. f_equal.
    unfold violation_type, falsy_to_none. cbn [details].
    now destruct (truthy_dict (Some a)).
Qed.

(** X30. [_check_thresholds] records one [threshold_violation] event for
    each metric that is strictly above its threshold and none otherwise:
    [high_cpu] and [high_memory] with severity medium, [high_disk] with
    severity high, in this order. With a disk threshold that is not
    negative the disk event is recorded exactly when some partition
    reports a usage above the threshold; a metric equal to its threshold
    is not reported, and a missing CPU or memory figure counts as 0. *)
Theorem check_thresholds_flags_exceeded_metrics (th : Thresholds) (db : Db)
    (data : telemetry_data) (now : Z) :
  (0 # 1 <= disk_threshold th)%Q ->
  let db' := _check_thresholds format_1f str_float json_of_float th db data now in
  map (fun e => (event_type e, severity e, violation_type e)) (security_events db')
  = map (fun e => (event_type e, severity e, violation_type e)) (security_events db)
    ++ (if gtb (default (0 # 1) (cpu data)) (cpu_threshold th)
        then [("threshold_violation"%string, "medium"%string, "high_cpu"%string)]
        else [])
    ++ (if gtb (default (0 # 1) (memory data)) (memory_threshold th)
        then [("threshold_violation"%string, "medium"%string, "high_memory"%string)]
        else [])
    ++ (if partition_above (disk_threshold th) (disk data)
        then [("threshold_violation"%string, "high"%string, "high_disk"%string)]
        else []).
Proof.
  intros Hth db'. subst db'. unfold _check_thresholds.
  rewrite log_all_events. f_equal.
  unfold threshold_alerts, _get_max_disk_usage.
  rewrite max_disk_usage_above.
  assert (H0 : gtb (0 # 1) (disk_threshold th) = false) by now apply gtb_le.
  rewrite H0. cbn [orb]. rewrite !map_app.
  destruct (gtb _ (cpu_threshold th)), (gtb _ (memory_threshold th)),
    (partition_above _ _); reflexivity.
Qed.

End TelemetryThresholds.

Section TelemetryRuns.
Import Database Telemetry.

Lemma check_thresholds_flags_exceeded_metrics_witness :
  let db' := _check_thresholds (fun _ => ""%string) (fun _ => ""%string)
               (fun _ => JNull) default_thresholds initialize busy_sample 1000 in
  map (fun e => (event_type e, severity e, violation_type e)) (security_events db')
  = map (fun e => (event_type e, severity e, violation_type e))
        (security_events initialize)
    ++ (if gtb (default (0 # 1) (cpu busy_sample)) (cpu_threshold default_thresholds)
        then [("threshold_violation"%string, "medium"%string, "high_cpu"%string)]
        else [])
    ++ (if gtb (default (0 # 1) (memory busy_sample))
                (memory_threshold default_thresholds)
        then [("threshold_violation"%string, "medium"%string, "high_memory"%string)]
        else [])
    ++ (if partition_above (disk_threshold default_thresholds) (disk busy_sample)
        then [("threshold_violation"%string, "high"%string, "high_disk"%string)]
        else []).
Proof.
  apply (check_thresholds_flags_exceeded_metrics (fun _ => ""%string)
           (fun _ => ""%string) (fun _ => JNull) default_thresholds initialize
           busy_sample 1000).
  vm_compute. discriminate.
Defined.

End TelemetryRuns.
